(** * element-builder: the desktop release builder (src/desktop_release.js)

    A shallow embedding of [DesktopReleaseBuilder] and of the helper
    functions of its module.  The JavaScript is asynchronous and talks to
    the outside world (the file system, child processes, the key chain, a
    Windows VM); the embedding keeps that visible:

    - an [async] function is a [Task]: a finite tree whose nodes are the
      points where the function suspends on an external call ([Await]) or
      touches the builder instance, and whose leaves are [return] and
      [throw];
    - the outside world is a [World]: an arbitrary function from the history
      of the run and a call to the answer of that call;
    - running a task in a world threads a [State] (the mutable fields of the
      instance, the remote published tree, the history). *)

From stdpp Require Import base strings list.
From Stdlib Require Import Ascii Lia.

Set Warnings "-register-all".

(** ** JavaScript strings *)

Module Str.

(** The line feed, written "\n" in the source. *)
Definition nl : string := String (Ascii.ascii_of_nat 10) "".

(** [s.startsWith(p)] *)
Fixpoint startsWith (s p : string) : bool :=
  match p with
  | EmptyString => true
  | String c p' =>
      match s with
      | EmptyString => false
      | String d s' => Ascii.eqb c d && startsWith s' p'
      end
  end.

(** [s.endsWith(p)] *)
Definition endsWith (s p : string) : bool :=
  startsWith (String.rev s) (String.rev p).

Fixpoint chars (s : string) : list string :=
  match s with
  | EmptyString => []
  | String c s' => String c "" :: chars s'
  end.

(** The scan of [s.split(sep)] for a non-empty separator: [cur] is the
    piece being read, [skip] counts the characters of a separator that has
    just been recognised and are still to be passed over. *)
Fixpoint split_go (sep : string) (skip : nat) (cur s : string) : list string :=
  match s with
  | EmptyString => [cur]
  | String c s' =>
      match skip with
      | S n => split_go sep n cur s'
      | O =>
          if startsWith s sep
          then cur :: split_go sep (String.length sep - 1) "" s'
          else split_go sep 0 (cur +:+ String c "") s'
      end
  end.

(** [s.split(sep)] *)
Definition split (s sep : string) : list string :=
  match sep with
  | EmptyString => chars s
  | _ => split_go sep 0 "" s
  end.

(** [l.join(sep)] on strings *)
Definition join (sep : string) (l : list string) : string :=
  String.concat sep l.

End Str.

(** ** Errors and promise results *)

Inductive Error : Type :=
| ExitCode (code : nat)            (* [reject(code)] of a spawned process *)
| JsError (msg : string)           (* [new Error(msg)] *)
| TypeError (msg : string)         (* thrown by the runtime *)
| SyntaxError (msg : string)       (* thrown by [JSON.parse] *)
| External (msg : string).         (* a rejection coming from a collaborator *)

Inductive Result (A : Type) : Type :=
| Ok (a : A)
| Rejected (e : Error).
Arguments Ok {A} a.
Arguments Rejected {A} e.

Definition is_ok {A} (r : Result A) : bool :=
  match r with Ok _ => true | Rejected _ => false end.

(** ** JavaScript values, as far as [JSON.parse] produces them *)

Module Js.

(** A number is carried by the text [String(n)] gives for it: the program
    never computes with one, it only prints them.  An object is the list of
    its own properties in enumeration order. *)
Inductive JS : Type :=
| JUndef
| JNull
| JBool (b : bool)
| JNum (repr : string)
| JStr (s : string)
| JArr (xs : list JS)
| JObj (fields : list (string * JS)).

(** String coercion, as done by ['...' + v]. *)
Fixpoint to_str (v : JS) : string :=
  match v with
  | JUndef => "undefined"
  | JNull => "null"
  | JBool true => "true"
  | JBool false => "false"
  | JNum r => r
  | JStr s => s
  | JArr xs =>
      Str.join ","
        (map (fun x => match x with JUndef | JNull => "" | _ => to_str x end) xs)
  | JObj _ => "[object Object]"
  end.

Fixpoint lookup_field (k : string) (fs : list (string * JS)) : option JS :=
  match fs with
  | [] => None
  | (k', v) :: fs' => if String.eqb k k' then Some v else lookup_field k fs'
  end.

(** [v.k] for a key that [Object.prototype], [Array.prototype] and the
    primitive wrappers do not define (build, version, productName). *)
Definition get_prop (v : JS) (k : string) : Result JS :=
  match v with
  | JUndef => Rejected (TypeError ("Cannot read property '" +:+ k +:+ "' of undefined"))
  | JNull => Rejected (TypeError ("Cannot read property '" +:+ k +:+ "' of null"))
  | JObj fs => Ok (default JUndef (lookup_field k fs))
  | _ => Ok JUndef
  end.

(** [o[k] = v] on the property list: an existing key keeps its place, a new
    one goes last. *)
Fixpoint set_field (k : string) (v : JS) (fs : list (string * JS)) : list (string * JS) :=
  match fs with
  | [] => [(k, v)]
  | (k', v') :: fs' =>
      if String.eqb k k' then (k, v) :: fs' else (k', v') :: set_field k v fs'
  end.

(** [Object.assign(target, source)], where [target] is a variable of the
    caller: the result is what that variable holds afterwards, as
    [JSON.stringify] sees it.  [undefined] and [null] throw; a primitive is
    wrapped and the wrapper dropped; an array gains named properties, which
    [JSON.stringify] does not print. *)
Definition Object_assign (target : JS) (source : list (string * JS)) : Result JS :=
  match target with
  | JUndef | JNull => Rejected (TypeError "Cannot convert undefined or null to object")
  | JObj fs => Ok (JObj (fold_left (fun acc kv => set_field kv.1 kv.2 acc) source fs))
  | other => Ok other
  end.

(** A [RegExp] without the g and y flags, as the literals of the source:
    [test] has no state. *)
Record RegExp : Type := { re_source : string; re_test : string → bool }.

End Js.
Export Js.

(** ** Paths *)

Module Path.
(** [path.join(...segs)] on segments that are already normalised (no ".",
    "..", empty or doubled separators), on POSIX. *)
Definition join (segs : list string) : string := Str.join "/" segs.

(** [path.resolve(rel, ...segs)] for a relative [rel], from the working
    directory [cwd]. *)
Definition resolve (cwd : string) (segs : list string) : string :=
  join (cwd :: segs).
End Path.

(** ** External calls *)

(** [new Runner(cwd)] and [new DockerRunner(cwd, script)] *)
Inductive Runner : Type :=
| LocalRunner (cwd : string)
| DockerRunner (cwd script : string).

(** The arguments of [new WindowsBuilder(...)]. *)
Record WindowsBuilder : Type := {
  wb_repoDir : string;
  wb_type : string;
  wb_vmName : string;
  wb_username : string;
  wb_password : string;
  wb_keyContainer : option string;
}.

(** Every way the module reaches outside itself.  [Spawn] stands for
    [childProcess.spawn(cmd, args, {stdio: 'inherit', cwd})] together with
    waiting for the [exit] event; an argument may be [undefined]. *)
Inductive Call : Type :=
| GetSecret (name : string)
| ReadFile (path : string)
| WriteFile (path : string) (data : JS)
| Readdir (dir : string)
| Mkdir (path : string)                      (* always [{recursive: true}] *)
| CopyFile (src dest : string)
| Rimraf (dir : string)
| Spawn (cmd : string) (args : list (option string)) (cwd : option string)
| GitClone (dir : string) (args : list string)
| RunnerRun (r : Runner) (args : list string)
| WinStart (b : WindowsBuilder)
| WinRunScript (b : WindowsBuilder) (script : list (list string))
| WinStop (b : WindowsBuilder).

(** What a call resolves to: [Spawn] to the exit code ([None] is the [null]
    of a process ended by a signal). *)
Definition ret_ty (c : Call) : Type :=
  match c with
  | GetSecret _ | ReadFile _ => string
  | Readdir _ => list string
  | Spawn _ _ _ => option nat
  | _ => unit
  end.

Inductive Level : Type := Info | Err.

Inductive LogArg : Type :=
| LS (s : string)
| LE (e : Error).

(** The entry and the exit of [this.build(type)] are recorded in the history:
    a ghost event each, which no call, result or field depends on. *)
Inductive Frame : Type :=
| FBuild (type : string).

(** The history of a run: external calls with their answers, log lines,
    writes to the fields of the instance, and the frames. *)
Inductive Event : Type :=
| EvCall (c : Call) (r : Result (ret_ty c))
| EvLog (lvl : Level) (args : list LogArg)
| EvSetBuilding (b : bool)
| EvSetKey (k : string)
| EvEnter (f : Frame)
| EvExit (f : Frame) (ok : bool).

(** ** Tasks *)

Inductive Task (A : Type) : Type :=
| Ret (a : A)
| Throw (e : Error)
| Await (c : Call) (k : Result (ret_ty c) → Task A)
| Log (lvl : Level) (args : list LogArg) (k : Task A)
| GetBuilding (k : bool → Task A)
| SetBuilding (b : bool) (k : Task A)
| GetKey (k : option string → Task A)
| SetKey (v : string) (k : Task A)
| Parse (text : string) (k : Result JS → Task A)
| Stringify (v : JS) (k : string → Task A)
| Enter (f : Frame) (k : Task A)
| Exit (f : Frame) (ok : bool) (k : Task A).
Arguments Ret {A} a.
Arguments Throw {A} e.
Arguments Await {A} c k.
Arguments Log {A} lvl args k.
Arguments GetBuilding {A} k.
Arguments SetBuilding {A} b k.
Arguments GetKey {A} k.
Arguments SetKey {A} v k.
Arguments Parse {A} text k.
Arguments Stringify {A} v k.
Arguments Enter {A} f k.
Arguments Exit {A} f ok k.

Fixpoint bind {A B} (t : Task A) (f : A → Task B) : Task B :=
  match t with
  | Ret a => f a
  | Throw e => Throw e
  | Await c k => Await c (fun r => bind (k r) f)
  | Log l a k => Log l a (bind k f)
  | GetBuilding k => GetBuilding (fun b => bind (k b) f)
  | SetBuilding b k => SetBuilding b (bind k f)
  | GetKey k => GetKey (fun v => bind (k v) f)
  | SetKey v k => SetKey v (bind k f)
  | Parse s k => Parse s (fun r => bind (k r) f)
  | Stringify v k => Stringify v (fun r => bind (k r) f)
  | Enter fr k => Enter fr (bind k f)
  | Exit fr ok k => Exit fr ok (bind k f)
  end.

(** The completion of a task as a value: the common core of [try]/[catch]
    and [try]/[finally]. *)
Fixpoint attempt {A} (t : Task A) : Task (Result A) :=
  match t with
  | Ret a => Ret (Ok a)
  | Throw e => Ret (Rejected e)
  | Await c k => Await c (fun r => attempt (k r))
  | Log l a k => Log l a (attempt k)
  | GetBuilding k => GetBuilding (fun b => attempt (k b))
  | SetBuilding b k => SetBuilding b (attempt k)
  | GetKey k => GetKey (fun v => attempt (k v))
  | SetKey v k => SetKey v (attempt k)
  | Parse s k => Parse s (fun r => attempt (k r))
  | Stringify v k => Stringify v (fun r => attempt (k r))
  | Enter fr k => Enter fr (attempt k)
  | Exit fr ok k => Exit fr ok (attempt k)
  end.

Declare Scope task_scope.
Delimit Scope task_scope with task.
Bind Scope task_scope with Task.
Notation "x <- t ;; k" := (bind t (fun x => k))
  (at level 100, t at next level, right associativity) : task_scope.
Notation "t ;; k" := (bind t (fun _ => k))
  (at level 100, right associativity) : task_scope.
Open Scope task_scope.

Definition of_result {A} (r : Result A) : Task A :=
  match r with Ok a => Ret a | Rejected e => Throw e end.

(** [await c]: a rejection is thrown at the await. *)
Definition await (c : Call) : Task (ret_ty c) := Await c of_result.

Definition log (lvl : Level) (args : list LogArg) : Task unit := Log lvl args (Ret tt).
Definition info (msg : string) : Task unit := log Info [LS msg].

(** [try { body } catch (e) { handler }] *)
Definition try_catch {A} (body : Task A) (handler : Error → Task A) : Task A :=
  r <- attempt body ;;
  match r with Ok a => Ret a | Rejected e => handler e end.

(** [try { body } finally { fin }] *)
Definition finally_ {A} (body : Task A) (fin : Task unit) : Task A :=
  r <- attempt body ;; fin ;; of_result r.

(** A method whose entry and exit are recorded. *)
Definition frame {A} (f : Frame) (body : Task A) : Task A :=
  r <- Enter f (attempt body) ;; Exit f (is_ok r) (of_result r).

(** [for (const x of xs) { await body(x) }] *)
Fixpoint for_of {X} (xs : list X) (body : X → Task unit) : Task unit :=
  match xs with
  | [] => Ret tt
  | x :: xs' => body x ;; for_of xs' body
  end.

(** How a block ends when it does not throw: by falling off its end, or by a
    [return] that leaves the enclosing function. *)
Inductive Completion : Type := Normal | Return.

(** [for (const x of xs) { ... }] whose body may [return] from the enclosing
    function. *)
Fixpoint for_of_c {X} (xs : list X) (body : X → Task Completion) : Task Completion :=
  match xs with
  | [] => Ret Normal
  | x :: xs' =>
      c <- body x ;;
      match c with
      | Return => Ret Return
      | Normal => for_of_c xs' body
      end
  end.

Definition parse (text : string) : Task JS := Parse text of_result.
Definition stringify (v : JS) : Task string := Stringify v Ret.
Definition prop (v : JS) (k : string) : Task JS := of_result (get_prop v k).

(** ** The builder instance and the world around it *)

(** The arguments of the constructor and the working directory it reads;
    no method assigns to these fields. *)
Record Config : Type := {
  cwd : string;
  winVmName : string;
  winUsername : string;
  winPassword : string;
  rsyncRoot : string;
  desktopBranch : string;
}.

(** A published tree: file paths and file contents. *)
Definition Tree : Type := list (string * string).

(** The fields the methods assign to ([building] is falsy until [start]
    first writes it), the published tree on the mirror, and the history. *)
Record State : Type := {
  building : bool;
  riotSigningKeyContainer : option string;
  remotePub : Tree;
  trace : list Event;
}.

(** The outside world: what an external call answers after a given history,
    the [JSON] object of the runtime, and what the mirror holds once an rsync
    towards it has ended. *)
Record World : Type := {
  respond : list Event → ∀ c : Call, Result (ret_ty c);
  JSON_parse : string → Result JS;
  JSON_stringify : JS → string;
  mirror : list Event → Tree → Tree;
}.

Definition emit (ev : Event) (s : State) : State :=
  {| building := building s;
     riotSigningKeyContainer := riotSigningKeyContainer s;
     remotePub := remotePub s;
     trace := (trace s ++ [ev])%list |}.

Definition set_building (b : bool) (s : State) : State :=
  {| building := b;
     riotSigningKeyContainer := riotSigningKeyContainer s;
     remotePub := remotePub s;
     trace := (trace s ++ [EvSetBuilding b])%list |}.

Definition set_key (k : string) (s : State) : State :=
  {| building := building s;
     riotSigningKeyContainer := Some k;
     remotePub := remotePub s;
     trace := (trace s ++ [EvSetKey k])%list |}.

(** The destination of an rsync: its last argument. *)
Definition rsync_dest (c : Call) : option string :=
  match c with
  | Spawn cmd args _ =>
      if String.eqb cmd "rsync"
      then match last args with Some (Some d) => Some d | _ => None end
      else None
  | _ => None
  end.

Definition rsync_into (loc : string) (c : Call) : bool :=
  match rsync_dest c with
  | Some d => String.eqb d loc
  | None => false
  end.

Section Semantics.
Variable cfg : Config.
Variable w : World.

(** Where the published tree lives on the mirror. *)
Definition remotePubLocation : string := rsyncRoot cfg +:+ "packages.riot.im".

(** The published tree on the mirror changes when an rsync towards it has
    run, and by nothing else. *)
Definition writes_remote_pub (c : Call) : bool := rsync_into remotePubLocation c.

Definition record (c : Call) (r : Result (ret_ty c)) (s : State) : State :=
  {| building := building s;
     riotSigningKeyContainer := riotSigningKeyContainer s;
     remotePub := if writes_remote_pub c
                  then mirror w (trace s) (remotePub s)
                  else remotePub s;
     trace := (trace s ++ [EvCall c r])%list |}.

(** One task run to its end, alone. *)
Fixpoint run {A} (t : Task A) (s : State) : Result A * State :=
  match t with
  | Ret a => (Ok a, s)
  | Throw e => (Rejected e, s)
  | Await c k => let r := respond w (trace s) c in run (k r) (record c r s)
  | Log l a k => run k (emit (EvLog l a) s)
  | GetBuilding k => run (k (building s)) s
  | SetBuilding b k => run k (set_building b s)
  | GetKey k => run (k (riotSigningKeyContainer s)) s
  | SetKey v k => run k (set_key v s)
  | Parse text k => run (k (JSON_parse w text)) s
  | Stringify v k => run (k (JSON_stringify w v)) s
  | Enter f k => run k (emit (EvEnter f) s)
  | Exit f ok k => run k (emit (EvExit f ok) s)
  end.

(** A task between two turns of the event loop: finished, or suspended on
    a call. *)
Inductive Pending (A : Type) : Type :=
| Finished (r : Result A)
| Suspended (c : Call) (k : Result (ret_ty c) → Task A).
Arguments Finished {A} r.
Arguments Suspended {A} c k.

(** The synchronous part of a task: up to its next [await]. *)
Fixpoint advance {A} (t : Task A) (s : State) : Pending A * State :=
  match t with
  | Ret a => (Finished (Ok a), s)
  | Throw e => (Finished (Rejected e), s)
  | Await c k => (Suspended c k, s)
  | Log l a k => advance k (emit (EvLog l a) s)
  | GetBuilding k => advance (k (building s)) s
  | SetBuilding b k => advance k (set_building b s)
  | GetKey k => advance (k (riotSigningKeyContainer s)) s
  | SetKey v k => advance k (set_key v s)
  | Parse text k => advance (k (JSON_parse w text)) s
  | Stringify v k => advance (k (JSON_stringify w v)) s
  | Enter f k => advance k (emit (EvEnter f) s)
  | Exit f ok k => advance k (emit (EvExit f ok) s)
  end.

(** The call a suspended task waits for settles, and the task goes on to
    its next [await]. *)
Definition settle {A} (p : Pending A) (s : State) : Pending A * State :=
  match p with
  | Finished r => (Finished r, s)
  | Suspended c k =>
      let r := respond w (trace s) c in advance (k r) (record c r s)
  end.

Definition waiting_for {A} (p : Pending A) : option Call :=
  match p with
  | Finished _ => None
  | Suspended c _ => Some c
  end.

End Semantics.
Arguments Finished {A} r.
Arguments Suspended {A} c k.

(** The events a run has added to the history. *)
Definition emitted (s s' : State) : list Event :=
  drop (length (trace s)) (trace s').

(** ** The module's functions *)

Definition TYPES : list string := ["win64"; "mac"; "linux"].

Definition DESKTOP_GIT_REPO : string := "https://github.com/vector-im/riot-desktop.git".
Definition ELECTRON_BUILDER_CFG_FILE : string := "electron-builder.json".

Definition strs (l : list string) : list (option string) := map Some l.

(** [new Promise(...)] around [childProcess.spawn]:
    [code ? reject(code) : resolve()]. *)
Definition spawn (cmd : string) (args : list (option string)) (dir : option string) : Task unit :=
  code <- await (Spawn cmd args dir) ;;
  match code with
  | Some (S n) => Throw (ExitCode (S n))
  | _ => Ret tt
  end.

Definition setDebVersion (ver : JS) (templateFile outFile : string) : Task unit :=
  contents <- await (ReadFile templateFile) ;;
  let contents := contents +:+ ("Version: " +:+ to_str ver) +:+ Str.nl in
  await (WriteFile outFile (JStr contents)) ;;
  info ("Version set to " +:+ to_str ver).

Definition getMatchingFilesInDir (dir : string) (exp : RegExp) : Task (list string) :=
  files <- await (Readdir dir) ;;
  let ret := fold_left (fun ret f => if re_test exp f then (ret ++ [f])%list else ret) files [] in
  if length ret =? 0
  then Throw (JsError ("No files found matching " +:+ re_source exp +:+ "!"))
  else Ret ret.

(** The loop of [getRepoTargets] over the lines of conf/distributions.  The
    targets may hold [undefined]: [line.split(': ')[1]] of a line without that
    separator. *)
Definition codenames (confDistributions : string) : list (option string) :=
  fold_left
    (fun ret line =>
       if Str.startsWith line "Codename"
       then (ret ++ [Str.split line ": " !! 1])%list
       else ret)
    (Str.split confDistributions Str.nl) [].

Definition getRepoTargets (repoDir : string) : Task (list (option string)) :=
  confDistributions <- await (ReadFile (Path.join [repoDir; "conf"; "distributions"])) ;;
  Ret (codenames confDistributions).

Definition pullDebDatabase (debDir rsyncRoot : string) : Task unit :=
  log Info [LS "Pulling debian database..."; LS (rsyncRoot +:+ "debian/"); LS debDir] ;;
  spawn "rsync" (strs ["-av"; "--delete"; rsyncRoot +:+ "debian/"; debDir]) None.

Definition pushDebDatabase (debDir rsyncRoot : string) : Task unit :=
  info "Pushing debian database..." ;;
  spawn "rsync" (strs ["-av"; "--delete"; debDir +:+ "/"; rsyncRoot +:+ "debian"]) None.

(** One ingestion: [reprepro includedeb target deb] run in [debDir]. *)
Definition includedeb (debDir : string) (target : option string) (deb : string) : Call :=
  Spawn "reprepro" [Some "includedeb"; target; Some deb] (Some debDir).

Definition addDeb (debDir deb : string) : Task unit :=
  targets <- getRepoTargets debDir ;;
  info ("Adding " +:+ deb +:+ " for "
        +:+ Str.join ", " (map (default "") targets) +:+ "...") ;;
  for_of targets (fun target =>
    spawn "reprepro" [Some "includedeb"; target; Some deb] (Some debDir)).

Definition pull_call (pubDir rsyncRoot : string) : Call :=
  Spawn "rsync" (strs ["-av"; "--delete"; rsyncRoot +:+ "packages.riot.im/"; pubDir]) None.

Definition push_call (pubDir rsyncRoot : string) : Call :=
  Spawn "rsync"
    (strs ["-av"; "--delete"; "--delay-updates"; pubDir +:+ "/"; rsyncRoot +:+ "packages.riot.im"])
    None.

Definition pullArtifacts (pubDir rsyncRoot : string) : Task unit :=
  info "Pulling artifacts..." ;;
  spawn "rsync" (strs ["-av"; "--delete"; rsyncRoot +:+ "packages.riot.im/"; pubDir]) None.

Definition pushArtifacts (pubDir rsyncRoot : string) : Task unit :=
  info "Uploading artifacts..." ;;
  spawn "rsync"
    (strs ["-av"; "--delete"; "--delay-updates"; pubDir +:+ "/"; rsyncRoot +:+ "packages.riot.im"])
    None.

Definition copyAndLog (src dest : string) : Task unit :=
  info ("Copy " +:+ src +:+ " -> " +:+ dest) ;;
  await (CopyFile src dest).

(** The regular expressions of the source.  [$] without the m flag is the end
    of the name; the dot of [/-mac.zip$/] is any character but a line
    terminator. *)
Definition ends_with (lit suffix : string) : RegExp :=
  {| re_source := lit; re_test := fun f => Str.endsWith f suffix |}.

Definition re_dmg : RegExp := ends_with "/\.dmg$/" ".dmg".
Definition re_exe : RegExp := ends_with "/\.exe$/" ".exe".
Definition re_nupkg : RegExp := ends_with "/\.nupkg$/" ".nupkg".
Definition re_deb : RegExp := ends_with "/\.deb$/" ".deb".

Definition is_line_terminator (c : Ascii.ascii) : bool :=
  Ascii.eqb c (Ascii.ascii_of_nat 10) || Ascii.eqb c (Ascii.ascii_of_nat 13).

Definition re_mac_zip : RegExp :=
  {| re_source := "/-mac.zip$/";
     re_test := fun f =>
       match String.rev f with
       | String p (String i (String z (String c rest))) =>
           Ascii.eqb p "p"%char && Ascii.eqb i "i"%char && Ascii.eqb z "z"%char
           && negb (is_line_terminator c) && Str.startsWith rest "cam-"
       | _ => false
       end |}.

Definition re_releases : RegExp :=
  {| re_source := "/^RELEASES$/"; re_test := fun f => String.eqb f "RELEASES" |}.

(** ** The methods of [DesktopReleaseBuilder] *)

Definition pubDir (cfg : Config) : string := Path.join [cwd cfg; "packages.riot.im"].
Definition debDir (cfg : Config) : string := Path.join [cwd cfg; "debian"].
Definition appPubDir (cfg : Config) : string := Path.join [pubDir cfg; "desktop"].

(** The object [writeElectronBuilderConfigFile] serialises, from the parsed
    package.json: [pkg.build] after the [Object.assign]. *)
Definition electronBuilderConfig (type : string) (pkg : JS) : Result JS :=
  match get_prop pkg "build" with
  | Rejected e => Rejected e
  | Ok cfg =>
      let productName :=
        if String.eqb type "linux" then JStr "Element"
        else match get_prop pkg "productName" with Ok v => v | Rejected _ => JUndef end in
      Object_assign cfg
        [("extraMetadata", JObj [("productName", productName)]);
         ("deb", JObj [("fpm", JArr [JStr "--deb-custom-control=debcontrol"])])]
  end.

Definition makeMacRunner (dir : string) : Runner := LocalRunner dir.
Definition makeLinuxRunner (dir : string) : Runner :=
  DockerRunner dir (Path.join ["scripts"; "in-docker.sh"]).

(** [runner.run(...args)]; the [switch] of [buildLocal] leaves [runner]
    undefined for a type that is neither mac nor linux. *)
Definition runner_run (runner : option Runner) (args : list string) : Task unit :=
  match runner with
  | Some r => await (RunnerRun r args)
  | None => Throw (TypeError "Cannot read property 'run' of undefined")
  end.

Definition buildWithRunner (runner : option Runner) (buildVersion : JS) (type : string)
  : Task unit :=
  runner_run runner ["yarn"; "install"] ;;
  runner_run runner ["yarn"; "run"; "hak"; "check"] ;;
  runner_run runner ["yarn"; "run"; "build:native"] ;;
  runner_run runner ["yarn"; "run"; "fetch"; "-d"; "element.io/release"] ;;
  runner_run runner ["yarn"; "build"; "--config"; ELECTRON_BUILDER_CFG_FILE].

Section Builder.
Variable cfg : Config.

Definition writeElectronBuilderConfigFile (type repoDir : string) (buildVersion : JS)
  : Task unit :=
  text <- await (ReadFile (Path.join [repoDir; "package.json"])) ;;
  pkg <- parse text ;;
  cfg' <- of_result (electronBuilderConfig type pkg) ;;
  out <- stringify cfg' ;;
  await (WriteFile (Path.join [repoDir; ELECTRON_BUILDER_CFG_FILE]) (JStr out)).

Definition repoDirOf (type : string) : string :=
  Path.join ["builds"; "element-desktop-" +:+ type +:+ "-" +:+ desktopBranch cfg].

(** The loop of [buildLocal] over the built packages:
    [for (const f of debs) await addDeb(this.debDir, path.resolve(repoDir, 'dist', f))]. *)
Definition addDebs (repoDir : string) (debs : list string) : Task unit :=
  for_of debs (fun f => addDeb (debDir cfg) (Path.resolve (cwd cfg) [repoDir; "dist"; f])).

Definition buildLocal (type : string) : Task unit :=
  await (Mkdir "builds") ;;
  let repoDir := repoDirOf type in
  await (Rimraf repoDir) ;;
  info ("Cloning element-desktop into " +:+ repoDir) ;;
  await (GitClone repoDir [DESKTOP_GIT_REPO; repoDir; "-b"; desktopBranch cfg]) ;;
  info ("...checked out '" +:+ desktopBranch cfg +:+ "' branch, starting build for " +:+ type) ;;
  text <- await (ReadFile (Path.join [repoDir; "package.json"])) ;;
  pkg <- parse text ;;
  buildVersion <- prop pkg "version" ;;
  writeElectronBuilderConfigFile type repoDir buildVersion ;;
  (if String.eqb type "linux"
   then setDebVersion buildVersion
          (Path.join [repoDir; "element.io"; "release"; "control.template"])
          (Path.join [repoDir; "debcontrol"])
   else Ret tt) ;;
  let runner :=
    if String.eqb type "mac" then Some (makeMacRunner repoDir)
    else if String.eqb type "linux" then Some (makeLinuxRunner repoDir)
    else None in
  buildWithRunner runner buildVersion type ;;
  info "Build completed!" ;;
  (if String.eqb type "mac" then
     await (Mkdir (Path.join [appPubDir cfg; "install"; "macos"])) ;;
     await (Mkdir (Path.join [appPubDir cfg; "update"; "macos"])) ;;
     dmgs <- getMatchingFilesInDir (Path.join [repoDir; "dist"]) re_dmg ;;
     for_of dmgs (fun f =>
       copyAndLog (Path.join [repoDir; "dist"; f])
                  (Path.join [appPubDir cfg; "install"; "macos"; f])) ;;
     zips <- getMatchingFilesInDir (Path.join [repoDir; "dist"]) re_mac_zip ;;
     for_of zips (fun f =>
       copyAndLog (Path.join [repoDir; "dist"; f])
                  (Path.join [appPubDir cfg; "update"; "macos"; f])) ;;
     let latestPath := Path.join [appPubDir cfg; "update"; "macos"; "latest"] in
     info ("Write " +:+ to_str buildVersion +:+ " -> " +:+ latestPath) ;;
     await (WriteFile latestPath buildVersion)
   else if String.eqb type "linux" then
     pullDebDatabase (debDir cfg) (rsyncRoot cfg) ;;
     debs <- getMatchingFilesInDir (Path.join [repoDir; "dist"]) re_deb ;;
     addDebs repoDir debs ;;
     pushDebDatabase (debDir cfg) (rsyncRoot cfg)
   else Ret tt) ;;
  info "Removing build dir" ;;
  await (Rimraf repoDir).

(** Modelled from the spec: [WindowsBuilder] (src/windows_builder.js is not
    among the sources).  Its [appendScript] is pure accumulation, order
    preserved, nothing executed; [runScript] executes the accumulated script
    as one unit.  The calls to [appendScript] of [buildWin] are therefore the
    list handed to [WinRunScript]. *)
Definition winScript (type buildDirName : string) : list (list string) :=
  let electronBuilderArchFlag := if String.eqb type "win64" then "--x64" else "--ia32" in
  [ ["rd"; buildDirName; "/s"; "/q"];
    ["git"; "clone"; DESKTOP_GIT_REPO; buildDirName; "-b"; desktopBranch cfg];
    ["cd"; buildDirName];
    ["copy"; "z:\" +:+ ELECTRON_BUILDER_CFG_FILE; ELECTRON_BUILDER_CFG_FILE];
    ["call"; "yarn"; "install"];
    ["call"; "yarn"; "run"; "hak"; "check"];
    ["call"; "yarn"; "run"; "build:native"];
    ["call"; "yarn"; "run"; "fetch"; "-d"; "element.io\release"];
    ["call"; "yarn"; "build"; electronBuilderArchFlag; "--config"; ELECTRON_BUILDER_CFG_FILE];
    ["xcopy dist z:\dist /S /I /Y"];
    ["cd"; ".."];
    ["rd"; buildDirName; "/s"; "/q"] ].

(** The body of the [try] of [buildWin]. *)
Definition buildWinGuarded (builder : WindowsBuilder) (type buildDirName repoDir : string)
  : Task unit :=
  let script := winScript type buildDirName in
  info "Starting build..." ;;
  await (WinRunScript builder script) ;;
  info "Build complete!" ;;
  let squirrelDir := "squirrel-windows" +:+ (if String.eqb type "win32" then "-ia32" else "") in
  let archDir := if String.eqb type "win32" then "ia32" else "x64" in
  await (Mkdir (Path.join [appPubDir cfg; "install"; "win32"; archDir])) ;;
  await (Mkdir (Path.join [appPubDir cfg; "update"; "win32"; archDir])) ;;
  exes <- getMatchingFilesInDir (Path.join [repoDir; "dist"; squirrelDir]) re_exe ;;
  for_of exes (fun f =>
    copyAndLog (Path.join [repoDir; "dist"; squirrelDir; f])
               (Path.join [appPubDir cfg; "install"; "win32"; archDir; f])) ;;
  nupkgs <- getMatchingFilesInDir (Path.join [repoDir; "dist"; squirrelDir]) re_nupkg ;;
  for_of nupkgs (fun f =>
    copyAndLog (Path.join [repoDir; "dist"; squirrelDir; f])
               (Path.join [appPubDir cfg; "update"; "win32"; archDir; f])) ;;
  rels <- getMatchingFilesInDir (Path.join [repoDir; "dist"; squirrelDir]) re_releases ;;
  for_of rels (fun f =>
    copyAndLog (Path.join [repoDir; "dist"; squirrelDir; f])
               (Path.join [appPubDir cfg; "update"; "win32"; archDir; f])).

Definition buildWin (type : string) : Task unit :=
  await (Mkdir "builds") ;;
  let buildDirName := "element-desktop-" +:+ type +:+ "-" +:+ desktopBranch cfg in
  let repoDir := Path.join ["builds"; buildDirName] in
  await (Rimraf repoDir) ;;
  info ("Cloning element-desktop into " +:+ repoDir) ;;
  await (GitClone repoDir [DESKTOP_GIT_REPO; repoDir; "-b"; desktopBranch cfg]) ;;
  info ("...checked out '" +:+ desktopBranch cfg +:+ "' branch, starting build for " +:+ type) ;;
  text <- await (ReadFile (Path.join [repoDir; "package.json"])) ;;
  pkg <- parse text ;;
  buildVersion <- prop pkg "version" ;;
  writeElectronBuilderConfigFile type repoDir buildVersion ;;
  key <- GetKey Ret ;;
  let builder :=
    {| wb_repoDir := repoDir; wb_type := type; wb_vmName := winVmName cfg;
       wb_username := winUsername cfg; wb_password := winPassword cfg;
       wb_keyContainer := key |} in
  info ("Starting Windows builder for " +:+ type +:+ "...") ;;
  await (WinStart builder) ;;
  info "...builder started" ;;
  finally_
    (buildWinGuarded builder type buildDirName repoDir)
    (await (WinStop builder)) ;;
  info "Removing build dir" ;;
  await (Rimraf repoDir).

Definition build (type : string) : Task unit :=
  if Str.startsWith type "win" then buildWin type else buildLocal type.

(** The body of the loop of [start]: the [try] with its [catch], which
    returns from [start]. *)
Definition buildOne (type : string) : Task Completion :=
  try_catch
    (info ("Starting build of " +:+ type +:+ " for " +:+ desktopBranch cfg) ;;
     frame (FBuild type) (build type) ;;
     Ret Normal)
    (fun e => log Err [LS "Build failed!"; LE e] ;; Ret Return).

(** The body of the outer [try] of [start]. *)
Definition startGuarded (toBuild : list string) : Task Completion :=
  SetBuilding true (Ret tt) ;;
  pullArtifacts (pubDir cfg) (rsyncRoot cfg) ;;
  c <- for_of_c toBuild buildOne ;;
  match c with
  | Return => Ret Return
  | Normal =>
      info ("Built packages for: " +:+ Str.join ", " toBuild +:+ ": pushing packages...") ;;
      pushArtifacts (pubDir cfg) (rsyncRoot cfg) ;;
      info "...push complete!" ;;
      Ret Normal
  end.

Definition start : Task unit :=
  info ("Starting Element Desktop " +:+ desktopBranch cfg +:+ " release builder...") ;;
  SetBuilding false (Ret tt) ;;
  key <- await (GetSecret "riot_key_container") ;;
  SetKey key (Ret tt) ;;
  b <- GetBuilding Ret ;;
  if b : bool then Ret tt else
  let toBuild := TYPES in
  if length toBuild =? 0 then Ret tt else
  finally_ (startGuarded toBuild) (SetBuilding false (Ret tt)) ;;
  Ret tt.

End Builder.

(** ** A sample world

    A world in which everything succeeds, used to run the builder on concrete
    inputs; variants of it make one call fail. *)

Module Sample.

Definition quote : string := String (Ascii.ascii_of_nat 34) "".

Definition escape_char (c : Ascii.ascii) : string :=
  if Ascii.eqb c (Ascii.ascii_of_nat 34) then "\" +:+ quote
  else if Ascii.eqb c "\"%char then "\\"
  else if Ascii.eqb c (Ascii.ascii_of_nat 10) then "\n"
  else String c "".

Fixpoint escape (s : string) : string :=
  match s with
  | EmptyString => ""
  | String c s' => escape_char c +:+ escape s'
  end.

Definition quoted (s : string) : string := quote +:+ escape s +:+ quote.

Definition block (opening closing ind : string) (items : list string) : string :=
  match items with
  | [] => opening +:+ closing
  | _ =>
      let ind' := ind +:+ "    " in
      opening +:+ Str.nl +:+ ind'
      +:+ Str.join ("," +:+ Str.nl +:+ ind') items
      +:+ Str.nl +:+ ind +:+ closing
  end.

Definition defined (v : JS) : bool :=
  match v with JUndef => false | _ => true end.

(** [JSON.stringify(v, null, 4)] for values without control characters
    other than the line feed in their strings. *)
Fixpoint pretty (ind : string) (v : JS) : string :=
  match v with
  | JUndef | JNull => "null"
  | JBool true => "true"
  | JBool false => "false"
  | JNum r => r
  | JStr s => quoted s
  | JArr xs => block "[" "]" ind (map (pretty (ind +:+ "    ")) xs)
  | JObj fs =>
      block "{" "}" ind
        (flat_map
           (fun kv =>
              if defined kv.2
              then [quoted kv.1 +:+ ": " +:+ pretty (ind +:+ "    ") kv.2]
              else [])
           fs)
  end.

Definition pkg : JS :=
  JObj [("name", JStr "element-desktop");
        ("productName", JStr "Element Nightly");
        ("version", JStr "1.6.0");
        ("build", JObj [("appId", JStr "im.riot.app");
                        ("deb", JObj [("depends", JArr [JStr "libnotify4"])])])].

Definition pkg_text : string := pretty "" pkg.

Definition distributions : string :=
  "Origin: element" +:+ Str.nl +:+ "Codename: buster" +:+ Str.nl
  +:+ "Origin: element" +:+ Str.nl +:+ "Codename: bullseye" +:+ Str.nl.

Definition control_template : string := "Package: element" +:+ Str.nl.

Definition listing : list string :=
  ["Element.dmg"; "Element-mac.zip"; "element.deb"; "Element Setup.exe";
   "element-full.nupkg"; "RELEASES"].

Definition read (path : string) : string :=
  if Str.endsWith path "package.json" then pkg_text
  else if Str.endsWith path "conf/distributions" then distributions
  else control_template.

(** The answer of a call that succeeds. *)
Definition succeed (c : Call) : Result (ret_ty c) :=
  match c with
  | GetSecret _ => Ok "[{{passphrase}}]=container"
  | ReadFile path => Ok (read path)
  | Readdir _ => Ok listing
  | Spawn _ _ _ => Ok (Some 0)
  | WriteFile _ _ | Mkdir _ | CopyFile _ _ | Rimraf _ | GitClone _ _
  | RunnerRun _ _ | WinStart _ | WinRunScript _ _ | WinStop _ => Ok tt
  end.

Definition parse_table (text : string) : Result JS :=
  if String.eqb text pkg_text then Ok pkg
  else Rejected (SyntaxError "Unexpected token").

(** A successful rsync towards the mirror leaves there the tree below. *)
Definition pushed : Tree := [("desktop/update/macos/latest", "1.6.0")].

Definition happy : World :=
  {| respond := fun _ c => succeed c;
     JSON_parse := parse_table;
     JSON_stringify := pretty "";
     mirror := fun _ _ => pushed |}.

(** The answer of a call that fails. *)
Definition fail (c : Call) : Result (ret_ty c) :=
  match c with
  | Spawn _ _ _ => Ok (Some 1)
  | _ => Rejected (External "failed")
  end.

(** The happy world, but for the calls [bad] picks out. *)
Definition failing (bad : Call → bool) : World :=
  {| respond := fun _ c => if bad c then fail c else succeed c;
     JSON_parse := parse_table;
     JSON_stringify := pretty "";
     mirror := fun _ _ => pushed |}.

Definition conf : Config :=
  {| cwd := "/home/builder";
     winVmName := "win10";
     winUsername := "builder";
     winPassword := "hunter2";
     rsyncRoot := "packages@mirror:/srv/";
     desktopBranch := "v1.6.0" |}.

Definition init : State :=
  {| building := false;
     riotSigningKeyContainer := None;
     remotePub := [("desktop/update/macos/latest", "1.5.0")];
     trace := [] |}.

(** The build section of [pkg]. *)
Definition build : list (string * JS) :=
  [("appId", JStr "im.riot.app");
   ("deb", JObj [("depends", JArr [JStr "libnotify4"])])].

(** The happy world with a given directory listing. *)
Definition listing_world (l : list string) : World :=
  {| respond := fun _ c =>
       match c as c0 return Result (ret_ty c0) with
       | Readdir _ => Ok l
       | c0 => succeed c0
       end;
     JSON_parse := parse_table;
     JSON_stringify := pretty "";
     mirror := fun _ _ => pushed |}.

(** The happy world with a given conf/distributions. *)
Definition distributions_world (conf : string) : World :=
  {| respond := fun _ c =>
       match c as c0 return Result (ret_ty c0) with
       | ReadFile _ => Ok conf
       | c0 => succeed c0
       end;
     JSON_parse := parse_table;
     JSON_stringify := pretty "";
     mirror := fun _ _ => pushed |}.

Definition re_appimage : RegExp := ends_with "/\.appimage$/" ".appimage".

Definition is_GetSecret (c : Call) : bool :=
  match c with GetSecret _ => true | _ => false end.

Definition is_WinRunScript (c : Call) : bool :=
  match c with WinRunScript _ _ => true | _ => false end.

(** The packaging command of the linux build, [yarn build --config ...] in
    the docker runner. *)
Definition is_linux_packaging (c : Call) : bool :=
  match c with
  | RunnerRun (DockerRunner _ _) ("yarn" :: "build" :: _) => true
  | _ => false
  end.

(** The happy world, every file holding the serialisation of [manifest] and
    [JSON.parse] giving it back. *)
Definition manifest_world (manifest : JS) : World :=
  {| respond := fun _ c =>
       match c as c0 return Result (ret_ty c0) with
       | ReadFile _ => Ok (pretty "" manifest)
       | c0 => succeed c0
       end;
     JSON_parse := fun _ => Ok manifest;
     JSON_stringify := pretty "";
     mirror := fun _ _ => pushed |}.

End Sample.

(** ** Observing a history *)

(** The state after an event, from the state before: the state of a run is
    a function of its history. *)
Definition apply_event (cfg : Config) (w : World) (s : State) (ev : Event) : State :=
  match ev with
  | EvCall c r => record cfg w c r s
  | EvSetBuilding b => set_building b s
  | EvSetKey k => set_key k s
  | EvLog _ _ | EvEnter _ | EvExit _ _ => emit ev s
  end.

Definition replay (cfg : Config) (w : World) (evs : list Event) (s : State) : State :=
  fold_left (apply_event cfg w) evs s.

(** An rsync towards the published tree on the mirror. *)
Definition is_remote_write (cfg : Config) (ev : Event) : bool :=
  match ev with
  | EvCall c _ => writes_remote_pub cfg c
  | _ => false
  end.

(** The value of [this.building] after a history. *)
Definition building_after (b : bool) (evs : list Event) : bool :=
  fold_left (fun b ev => match ev with EvSetBuilding b' => b' | _ => b end) evs b.

#[global] Instance WindowsBuilder_eq_dec : EqDecision WindowsBuilder.
Proof. solve_decision. Defined.

(** The builders whose remote environment has been started and on which
    [stop()] has not been invoked since. *)
Definition vm_step (st : list WindowsBuilder) (ev : Event) : list WindowsBuilder :=
  match ev with
  | EvCall c r =>
      match c with
      | WinStart b => if is_ok r then b :: st else st
      | WinStop b => List.filter (fun b' => negb (bool_decide (b' = b))) st
      | _ => st
      end
  | _ => st
  end.

Definition pending_stops (evs : list Event) : list WindowsBuilder :=
  fold_left vm_step evs [].

(** Whether a spawned process ended with a falsy exit code, so that its
    promise resolved. *)
Definition spawn_exit (c : Call) : Result (ret_ty c) → bool :=
  match c with
  | Spawn _ _ _ =>
      fun r => match r with Ok (Some (S _)) => false | Ok _ => true | Rejected _ => false end
  | _ => fun _ => false
  end.

(** The rsync of [pullArtifacts]. *)
Definition is_pull_call (cfg : Config) (c : Call) : bool :=
  match c with
  | Spawn cmd args dir =>
      String.eqb cmd "rsync"
      && bool_decide
           (args = strs ["-av"; "--delete"; rsyncRoot cfg +:+ "packages.riot.im/"; pubDir cfg])
      && bool_decide (dir = None)
  | _ => false
  end.

(** The pull of the published tree has run and succeeded. *)
Definition is_pull (cfg : Config) (ev : Event) : bool :=
  match ev with
  | EvCall c r => is_pull_call cfg c && spawn_exit c r
  | _ => false
  end.

(** What a history says about a run of [start]: whether the pull has
    succeeded, the platforms whose build was entered, those built and those
    that failed, the number of pushes towards the mirror, and whether the
    order was kept so far: a build is entered only after the pull and while
    no build has failed, a push happens only when every configured platform
    is built and none has failed. *)
Record Progress : Type := {
  pulled : bool;
  entered : list string;
  built : list string;
  failed : list string;
  pushes : nat;
  orderly : bool;
}.

Definition progress0 : Progress :=
  {| pulled := false; entered := []; built := []; failed := []; pushes := 0;
     orderly := true |}.

Definition may_enter (p : Progress) : bool :=
  pulled p && bool_decide (failed p = []).

Definition may_push (p : Progress) : bool :=
  bool_decide (built p = TYPES) && bool_decide (failed p = []).

Definition progress_step (cfg : Config) (p : Progress) (ev : Event) : Progress :=
  match ev with
  | EvEnter (FBuild t) =>
      {| pulled := pulled p; entered := entered p ++ [t]; built := built p;
         failed := failed p; pushes := pushes p;
         orderly := orderly p && may_enter p |}
  | EvExit (FBuild t) true =>
      {| pulled := pulled p; entered := entered p; built := built p ++ [t];
         failed := failed p; pushes := pushes p; orderly := orderly p |}
  | EvExit (FBuild t) false =>
      {| pulled := pulled p; entered := entered p; built := built p;
         failed := failed p ++ [t]; pushes := pushes p; orderly := orderly p |}
  | EvCall _ _ =>
      if is_pull cfg ev then
        {| pulled := true; entered := entered p; built := built p;
           failed := failed p; pushes := pushes p; orderly := orderly p |}
      else if is_remote_write cfg ev then
        {| pulled := pulled p; entered := entered p; built := built p;
           failed := failed p; pushes := S (pushes p);
           orderly := orderly p && may_push p |}
      else p
  | _ => p
  end.

Definition progress_of (cfg : Config) (evs : list Event) : Progress :=
  fold_left (progress_step cfg) evs progress0.

(** What a platform build may emit: log lines, and calls other than an rsync
    towards the published tree on the mirror or into its local copy. *)
Definition build_event (cfg : Config) (ev : Event) : bool :=
  match ev with
  | EvCall c _ =>
      negb (rsync_into (remotePubLocation cfg) c) && negb (rsync_into (pubDir cfg) c)
  | EvLog _ _ => true
  | _ => false
  end.

(** The ingestion operations of a history: the target and the package of each
    [reprepro includedeb]. *)
Definition ingestion (ev : Event) : option (option string * string) :=
  match ev with
  | EvCall (Spawn cmd [Some sub; target; Some deb] _) _ =>
      if String.eqb cmd "reprepro" && String.eqb sub "includedeb"
      then Some (target, deb)
      else None
  | _ => None
  end.

Definition ingestions (evs : list Event) : list (option string * string) :=
  omap ingestion evs.

Definition ingest_step (st : list (option string * string)) (ev : Event)
  : list (option string * string) :=
  match ingestion ev with
  | Some op => st ++ [op]
  | None => st
  end.

(** Every ingestion succeeds. *)
Definition all_ingest (cfg : Config) (w : World) : Prop :=
  ∀ tr t deb, respond w tr (includedeb (debDir cfg) (Some t) deb) = Ok (Some 0).

(** The (package, target) pairs of [debs] and [targets], package by
    package. *)
Definition ingestion_pairs (cfg : Config) (repoDir : string) (debs targets : list string)
  : list (option string * string) :=
  flat_map
    (fun f => map (fun t => (Some t, Path.resolve (cwd cfg) [repoDir; "dist"; f])) targets)
    debs.

(** ** The configuration as the specification words it

    "The package.json's build section with extraMetadata.productName set to
    ... and with deb.fpm set to include the flag": [o] with [o.k1.k2] set to
    [v], the other keys of [o.k1] kept. *)
Definition with_path (k1 k2 : string) (v : JS) (o : list (string * JS)) : list (string * JS) :=
  let inner := match lookup_field k1 o with Some (JObj fs) => fs | _ => [] end in
  set_field k1 (JObj (set_field k2 v inner)) o.

Definition declaredProductName (pkg : JS) : JS :=
  match pkg with
  | JObj fs => default JUndef (lookup_field "productName" fs)
  | _ => JUndef
  end.

Definition productNameFor (type : string) (pkg : JS) : JS :=
  if String.eqb type "linux" then JStr "Element" else declaredProductName pkg.

Definition debFlag : string := "--deb-custom-control=debcontrol".

Definition configAsWorded (type : string) (pkg : JS) (build : list (string * JS))
    (fpm : list JS) : JS :=
  JObj (with_path "deb" "fpm" (JArr fpm)
          (with_path "extraMetadata" "productName" (productNameFor type pkg) build)).

(** An entry of the build section that is absent, or holds nothing but the
    key [k]. *)
Definition holds_only (k : string) (entry : option JS) : Prop :=
  match entry with
  | None => True
  | Some (JObj []) => True
  | Some (JObj [(k', _)]) => k' = k
  | Some (JObj _) => False
  | Some _ => True
  end.

(** ** Two invocations of [start] on one instance

    The event loop runs the synchronous part of a call to [start] up to its
    first [await], and later resumes it when the awaited call has settled. *)
Module Reentry.

(** [start()] is called: it runs up to [await getSecret(...)]. *)
Definition first_called :=
  advance Sample.happy (start Sample.conf) Sample.init.

(** The secret arrives: the first invocation sets [building] and waits for
    the rsync of [pullArtifacts]. *)
Definition first_pulling :=
  settle Sample.conf Sample.happy first_called.1 first_called.2.

(** [start()] is called again while the first invocation waits. *)
Definition second_called :=
  advance Sample.happy (start Sample.conf) first_pulling.2.

(** The secret of the second invocation arrives. *)
Definition second_resumed :=
  settle Sample.conf Sample.happy second_called.1 second_called.2.

(** Both invocations are then resumed in turn until both have finished. *)
Fixpoint both (fuel : nat) (p1 p2 : Pending unit) (s : State)
  : Pending unit * Pending unit * State :=
  match fuel with
  | O => (p1, p2, s)
  | S fuel' =>
      let '(p1', s1) := settle Sample.conf Sample.happy p1 s in
      let '(p2', s2) := settle Sample.conf Sample.happy p2 s1 in
      both fuel' p1' p2' s2
  end.

Definition finished := both 200 first_pulling.1 second_resumed.1 second_resumed.2.

End Reentry.

(** The progress of a run whose pull has failed: in a builder whose mirror
    root is its working directory the pull is itself an rsync towards the
    mirror. *)
Definition pull_failed (cfg : Config) : Progress :=
  if writes_remote_pub cfg (pull_call (pubDir cfg) (rsyncRoot cfg))
  then {| pulled := false; entered := []; built := []; failed := []; pushes := 1;
          orderly := false |}
  else progress0.

(** The progress a run of [start] can end with: nothing done (no credential,
    or the guard), the pull failed, a build failed after the builds before it
    succeeded, or everything built and the push issued. *)
Definition start_outcome (cfg : Config) (p : Progress) : Prop :=
  p = progress0
  ∨ p = pull_failed cfg
  ∨ (∃ done t rest,
       TYPES = done ++ t :: rest
       ∧ p = {| pulled := true; entered := done ++ [t]; built := done; failed := [t];
                pushes := 0; orderly := true |})
  ∨ p = {| pulled := true; entered := TYPES; built := TYPES; failed := []; pushes := 1;
           orderly := true |}.

(** ** Further observations of a history *)

(** The commands handed to [runner.run], in order: the runner, the command,
    and whether it succeeded. *)
Definition runner_step (st : list (Runner * list string * bool)) (ev : Event)
  : list (Runner * list string * bool) :=
  match ev with
  | EvCall (RunnerRun r args) res => st ++ [(r, args, is_ok res)]
  | _ => st
  end.

Definition runner_log (evs : list Event) : list (Runner * list string * bool) :=
  fold_left runner_step evs [].

(** The five commands of [buildWithRunner]. *)
Definition build_commands : list (list string) :=
  [ ["yarn"; "install"];
    ["yarn"; "run"; "hak"; "check"];
    ["yarn"; "run"; "build:native"];
    ["yarn"; "run"; "fetch"; "-d"; "element.io/release"];
    ["yarn"; "build"; "--config"; ELECTRON_BUILDER_CFG_FILE] ].

(** A call of the local pipeline: a runner command or a spawned process. *)
Definition is_local_call (ev : Event) : bool :=
  match ev with
  | EvCall (RunnerRun _ _) _ | EvCall (Spawn _ _ _) _ => true
  | _ => false
  end.

(** A Windows builder made for [type] from the fields of the instance; the
    key container is left open. *)
Definition own_builder (cfg : Config) (type : string) (b : WindowsBuilder) : Prop :=
  Str.startsWith type "win" = true
  ∧ wb_repoDir b = repoDirOf cfg type ∧ wb_type b = type
  ∧ wb_vmName b = winVmName cfg ∧ wb_username b = winUsername cfg
  ∧ wb_password b = winPassword cfg.

(** What the build of a platform type may call: the Windows builder only for
    a type that starts with win; a runner only for mac (on the host) and for
    linux (in docker), in the checkout of that type; a spawned process (rsync,
    reprepro) only for linux; a copy into the published tree only for Windows
    and mac. *)
Definition platform_call (cfg : Config) (type : string) (ev : Event) : Prop :=
  match ev with
  | EvCall c _ =>
      match c with
      | WinStart b | WinRunScript b _ | WinStop b => own_builder cfg type b
      | RunnerRun r _ =>
          (type = "mac" ∧ r = LocalRunner (repoDirOf cfg type))
          ∨ (type = "linux" ∧ r = DockerRunner (repoDirOf cfg type) "scripts/in-docker.sh")
      | Spawn _ _ _ => type = "linux"
      | CopyFile _ _ => Str.startsWith type "win" = true ∨ type = "mac"
      | _ => True
      end
  | _ => True
  end.

(** The packaging of a platform has succeeded: [yarn build ...] in a runner,
    or the script of the Windows builder. *)
Definition is_packaged (ev : Event) : bool :=
  match ev with
  | EvCall c r =>
      match c with
      | RunnerRun _ (a :: b :: _) => String.eqb a "yarn" && String.eqb b "build" && is_ok r
      | WinRunScript _ _ => is_ok r
      | _ => false
      end
  | _ => false
  end.

(** A write into the published tree: a copied artifact, or a marker file
    written under [appPubDir]. *)
Definition is_publication (cfg : Config) (ev : Event) : bool :=
  match ev with
  | EvCall (CopyFile _ _) _ => true
  | EvCall (WriteFile path _) _ => Str.startsWith path (appPubDir cfg +:+ "/")
  | _ => false
  end.

(** Whether the packaging has succeeded, and whether every publication so far
    came after it. *)
Record Packaging : Type := {
  packaged : bool;
  published_after : bool;
}.

Definition packaging_step (cfg : Config) (p : Packaging) (ev : Event) : Packaging :=
  if is_publication cfg ev then
    {| packaged := packaged p; published_after := published_after p && packaged p |}
  else if is_packaged ev then
    {| packaged := true; published_after := published_after p |}
  else p.

Definition packaging_of (cfg : Config) (evs : list Event) : Packaging :=
  fold_left (packaging_step cfg) evs {| packaged := false; published_after := true |}.

(** An rsync. *)
Definition is_rsync (ev : Event) : bool :=
  match ev with
  | EvCall (Spawn cmd _ _) _ => String.eqb cmd "rsync"
  | _ => false
  end.

(** Whether the call of an event is a spawned process that ended with a falsy
    exit code. *)
Definition exited_ok (ev : Event) : bool :=
  match ev with
  | EvCall c r => spawn_exit c r
  | _ => false
  end.

(** The command, the arguments and the directory of a spawned process. *)
Definition spawned (ev : Event) : option (string * list (option string) * option string) :=
  match ev with
  | EvCall (Spawn cmd args dir) _ => Some (cmd, args, dir)
  | _ => None
  end.

(** The rsync of [pullDebDatabase]: the Debian database of the mirror into
    [debDir]; and that of [pushDebDatabase]: [debDir] onto the mirror. *)
Definition is_deb_pull (cfg : Config) (ev : Event) : bool :=
  bool_decide
    (spawned ev
     = Some ("rsync", strs ["-av"; "--delete"; rsyncRoot cfg +:+ "debian/"; debDir cfg], None)).

Definition is_deb_push (cfg : Config) (ev : Event) : bool :=
  bool_decide
    (spawned ev
     = Some ("rsync", strs ["-av"; "--delete"; debDir cfg +:+ "/"; rsyncRoot cfg +:+ "debian"],
             None)).

(** An operation on the Debian database: an rsync or an ingestion. *)
Definition deb_op (ev : Event) : bool :=
  is_rsync ev || bool_decide (is_Some (ingestion ev)).

(** The Debian database during a build: whether one of its operations has
    failed, how many rsyncs have run, and whether the order was kept so far:
    no operation after a failed one; the first operation is the pull; after
    the pull come ingestions and the push; after the push, nothing. *)
Record DebOrder : Type := {
  deb_failed : bool;
  deb_phase : nat;
  deb_kept : bool;
}.

Definition deb_order_step (cfg : Config) (d : DebOrder) (ev : Event) : DebOrder :=
  if deb_op ev then
    {| deb_failed := deb_failed d || negb (exited_ok ev);
       deb_phase := if is_rsync ev then S (deb_phase d) else deb_phase d;
       deb_kept := deb_kept d && negb (deb_failed d)
                   && match deb_phase d with
                      | 0 => is_deb_pull cfg ev
                      | 1 => bool_decide (is_Some (ingestion ev)) || is_deb_push cfg ev
                      | _ => false
                      end |}
  else d.

(** The removals of a directory, and whether the last event is one: [None]
    when it is not, else whether that removal succeeded. *)
Definition removal_step (dir : string) (st : nat * option bool) (ev : Event)
  : nat * option bool :=
  match ev with
  | EvCall (Rimraf d) r =>
      if String.eqb d dir then (S st.1, Some (is_ok r)) else (st.1, None)
  | _ => (st.1, None)
  end.

Definition removals (dir : string) (evs : list Event) : nat * option bool :=
  fold_left (removal_step dir) evs (0, None).

(** A clone, a removal of a directory. *)
Definition is_clone (ev : Event) : bool :=
  match ev with EvCall (GitClone _ _) _ => true | _ => false end.

Definition is_removal (ev : Event) : bool :=
  match ev with EvCall (Rimraf _) _ => true | _ => false end.

(** Neither a clone nor a removal. *)
Definition keeps_checkout (ev : Event) : Prop :=
  is_clone ev = false ∧ is_removal ev = false.

(** [s.includes(sub)] *)
Fixpoint includes (s sub : string) : bool :=
  Str.startsWith s sub
  || match s with
     | EmptyString => false
     | String _ s' => includes s' sub
     end.

(** A line of conf/distributions: the declaration of a codename, or a line
    of another field. *)
Inductive ConfLine : Type :=
| Codename (name : string)
| Field (line : string).

Definition conf_line (l : ConfLine) : string :=
  match l with
  | Codename name => "Codename: " +:+ name
  | Field line => line
  end.

Definition declared (l : ConfLine) : option string :=
  match l with
  | Codename name => Some name
  | Field _ => None
  end.

(** A codename holds no line feed and no ": "; another line holds no line
    feed and does not start with Codename. *)
Definition well_formed (l : ConfLine) : bool :=
  match l with
  | Codename name => negb (includes name Str.nl) && negb (includes name ": ")
  | Field line => negb (includes line Str.nl) && negb (Str.startsWith line "Codename")
  end.

(** The version marker of the macOS updates. *)
Definition latestPath (cfg : Config) : string :=
  Path.join [appPubDir cfg; "update"; "macos"; "latest"].

(** The history so far, as a ghost state. *)
Definition history_step (st : list Event) (ev : Event) : list Event := st ++ [ev].

(** Every version marker written in the history holds the version of a
    package.json that the history has read from [manifest]. *)
Definition marks_read_version (cfg : Config) (w : World) (manifest : string)
    (evs : list Event) : Prop :=
  ∀ data r,
    In (EvCall (WriteFile (latestPath cfg) data) r) evs →
    ∃ text pkg,
      In (EvCall (ReadFile manifest) (Ok text)) evs
      ∧ JSON_parse w text = Ok pkg
      ∧ get_prop pkg "version" = Ok data.

(** No version marker is written, or only with [ver]. *)
Definition marks_only (cfg : Config) (ver : option JS) (ev : Event) : Prop :=
  ∀ data r, ev = EvCall (WriteFile (latestPath cfg) data) r → ver = Some data.

(** Every event the task emits satisfies [P] and none assigns the key
    container, when it starts with the key container [key]. *)
Definition keeps_key (cfg : Config) (w : World) (key : string) (P : Event → Prop)
    {A} (t : Task A) : Prop :=
  ∀ s, riotSigningKeyContainer s = Some key →
    ∃ evs, (run cfg w t s).2 = replay cfg w evs s
           ∧ Forall P evs
           ∧ riotSigningKeyContainer (replay cfg w evs s) = Some key.

(** The Windows builder of an event, if it has one. *)
Definition builder_of (ev : Event) : option WindowsBuilder :=
  match ev with
  | EvCall (WinStart b) _ | EvCall (WinRunScript b _) _ | EvCall (WinStop b) _ => Some b
  | _ => None
  end.

(** The builders of the history sign with [key]. *)
Definition signs_with (key : string) (ev : Event) : Prop :=
  ∀ b, builder_of ev = Some b → wb_keyContainer b = Some key.

Definition is_key_write (ev : Event) : bool :=
  match ev with EvSetKey _ => true | _ => false end.

(** ** Two ways to speak of what a task emits *)

(** Every event the task emits satisfies [P]. *)
Definition emits (cfg : Config) (w : World) (P : Event → Prop) {A} (t : Task A) : Prop :=
  ∀ s, ∃ evs, (run cfg w t s).2 = replay cfg w evs s ∧ Forall P evs.

(** Started with the ghost state [st], the task leaves a result and a ghost
    state that satisfy [Q], the ghost state being folded over the events the
    task emits. *)
Definition tfold (cfg : Config) (w : World) {St : Type} (step : St → Event → St)
    {A} (st : St) (t : Task A) (Q : Result A → St → Prop) : Prop :=
  ∀ s, ∃ evs,
    (run cfg w t s).2 = replay cfg w evs s
    ∧ Q (run cfg w t s).1 (fold_left step evs st).

(** A task run after the history [pre]: its result, and the history when it
    ends. *)
Definition from_history (cfg : Config) (w : World) (s0 : State) {A}
    (pre : list Event) (t : Task A) (Q : Result A → list Event → Prop) : Prop :=
  let s := replay cfg w pre s0 in
  Q (run cfg w t s).1 (pre ++ emitted s (run cfg w t s).2).

(** A step of the guarded region of [buildWin]: the script, or the
    extraction of the artifacts (listing the output, making the directories
    of the published tree, copying). *)
Definition in_guarded_region (ev : Event) : bool :=
  match ev with
  | EvCall c _ =>
      match c with
      | WinRunScript _ _ | Readdir _ | CopyFile _ _ => true
      | Mkdir path => negb (String.eqb path "builds")
      | _ => false
      end
  | _ => false
  end.

(** Neither a step of the guarded region nor a call to a builder. *)
Definition outside_region (ev : Event) : Prop :=
  in_guarded_region ev = false ∧ builder_of ev = None.

(** * Properties *)


(** * The logic of runs *)

Section Logic.
Variable cfg : Config.
Variable w : World.

#[local] Abbreviation run := (run cfg w).
#[local] Abbreviation replay := (replay cfg w).

Lemma run_bind {A B} (t : Task A) (f : A → Task B) s :
  run (bind t f) s =
  match run t s with
  | (Ok a, s1) => run (f a) s1
  | (Rejected e, s1) => (Rejected e, s1)
  end.
Proof. revert s; induction t; intros s; simpl; auto. Qed.

Lemma run_attempt {A} (t : Task A) s :
  run (attempt t) s = (Ok (run t s).1, (run t s).2).
Proof. revert s; induction t; intros s; simpl; auto. Qed.

Lemma run_of_result {A} (r : Result A) s : run (of_result r) s = (r, s).
Proof. by destruct r. Qed.

Lemma replay_app e1 e2 s : replay (e1 ++ e2) s = replay e2 (replay e1 s).
Proof. apply fold_left_app. Qed.

Lemma trace_apply_event s ev : trace (apply_event cfg w s ev) = trace s ++ [ev].
Proof. by destruct ev. Qed.

Lemma trace_replay evs s : trace (replay evs s) = trace s ++ evs.
Proof.
  revert s; induction evs as [|ev evs IH]; intros s; simpl.
  - by rewrite app_nil_r.
  - rewrite IH, trace_apply_event, <- app_assoc. done.
Qed.

Lemma emitted_replay evs s : emitted s (replay evs s) = evs.
Proof.
  unfold emitted. rewrite trace_replay.
  rewrite drop_app_length. done.
Qed.

(** The state a run ends in is the replay of what it emitted. *)
Lemma run_replay {A} (t : Task A) s : ∃ evs, (run t s).2 = replay evs s.
Proof.
  revert s; induction t; intros s; simpl;
    try (by exists []);
    try (match goal with
         | IH : ∀ s, ∃ _, _ |- context [run ?k ?s1] =>
             destruct (IH s1) as [evs ->]
         | IH : ∀ x s, ∃ _, _ |- context [run (?k ?x) ?s1] =>
             destruct (IH x s1) as [evs ->]
         end).
  - by exists (EvCall c (respond w (trace s) c) :: evs).
  - by exists (EvLog lvl args :: evs).
  - by exists evs.
  - by exists (EvSetBuilding b :: evs).
  - by exists evs.
  - by exists (EvSetKey v :: evs).
  - by exists evs.
  - by exists evs.
  - by exists (EvEnter f :: evs).
  - by exists (EvExit f ok :: evs).
Qed.

Lemma run_emitted {A} (t : Task A) s :
  (run t s).2 = replay (emitted s (run t s).2) s.
Proof.
  destruct (run_replay t s) as [evs H]. rewrite H at 1.
  by rewrite H, emitted_replay.
Qed.

Lemma building_replay evs s :
  building (replay evs s) = building_after (building s) evs.
Proof.
  revert s; induction evs as [|ev evs IH]; intros s; simpl; [done|].
  rewrite IH. by destruct ev.
Qed.

Lemma remote_replay evs s :
  Forall (fun ev => is_remote_write cfg ev = false) evs →
  remotePub (replay evs s) = remotePub s.
Proof.
  revert s; induction evs as [|ev evs IH]; intros s H; simpl; [done|].
  inversion H as [|? ? Hev Hevs]; subst.
  rewrite IH by done.
  destruct ev; simpl in *; try done. by rewrite Hev.
Qed.

(** *** Every event of a task satisfies [P] *)


Section Emits.
Variable P : Event → Prop.

Lemma emits_ret {A} (a : A) : emits cfg w P (Ret a).
Proof. intros s. by exists []. Qed.

Lemma emits_throw {A} e : emits cfg w P (@Throw A e).
Proof. intros s. by exists []. Qed.

Lemma emits_of_result {A} (r : Result A) : emits cfg w P (of_result r).
Proof. destruct r; [apply emits_ret | apply emits_throw]. Qed.

Lemma emits_bind {A B} (t : Task A) (f : A → Task B) :
  emits cfg w P t → (∀ a, emits cfg w P (f a)) → emits cfg w P (bind t f).
Proof.
  intros Ht Hf s. rewrite run_bind.
  destruct (Ht s) as (e1 & H1 & F1).
  destruct (run t s) as [[a|e] s1]; simpl in *; subst.
  - destruct (Hf a (replay e1 s)) as (e2 & H2 & F2).
    exists (e1 ++ e2). rewrite replay_app, H2.
    split; [done | by apply Forall_app].
  - by exists e1.
Qed.

Lemma emits_attempt {A} (t : Task A) : emits cfg w P t → emits cfg w P (attempt t).
Proof. intros Ht s. rewrite run_attempt. apply Ht. Qed.

Lemma emits_Await {A} c (k : Result (ret_ty c) → Task A) :
  (∀ r, P (EvCall c r)) → (∀ r, emits cfg w P (k r)) → emits cfg w P (Await c k).
Proof.
  intros Hc Hk s. simpl.
  destruct (Hk (respond w (trace s) c) (record cfg w c (respond w (trace s) c) s))
    as (evs & H & F).
  exists (EvCall c (respond w (trace s) c) :: evs). split; [done | by constructor].
Qed.

Lemma emits_await c : (∀ r, P (EvCall c r)) → emits cfg w P (await c).
Proof. intros Hc. apply emits_Await; [done | intros; apply emits_of_result]. Qed.

Lemma emits_Log {A} lvl args (k : Task A) :
  P (EvLog lvl args) → emits cfg w P k → emits cfg w P (Log lvl args k).
Proof.
  intros Hl Hk s. simpl. destruct (Hk (emit (EvLog lvl args) s)) as (evs & H & F).
  exists (EvLog lvl args :: evs). split; [done | by constructor].
Qed.

Lemma emits_log lvl args : P (EvLog lvl args) → emits cfg w P (log lvl args).
Proof. intros. apply emits_Log; [done | apply emits_ret]. Qed.

Lemma emits_info msg : P (EvLog Info [LS msg]) → emits cfg w P (info msg).
Proof. apply emits_log. Qed.

Lemma emits_SetBuilding {A} b (k : Task A) :
  P (EvSetBuilding b) → emits cfg w P k → emits cfg w P (SetBuilding b k).
Proof.
intros Hb Hk s. simpl. destruct (Hk (set_building b s)) as (evs & H & F).
exists (EvSetBuilding b :: evs). split; [done | by constructor].
Qed.

Lemma emits_SetKey {A} v (k : Task A) :
  P (EvSetKey v) → emits cfg w P k → emits cfg w P (SetKey v k).
Proof.
intros Hb Hk s. simpl. destruct (Hk (set_key v s)) as (evs & H & F).
exists (EvSetKey v :: evs). split; [done | by constructor].
Qed.

Lemma emits_GetBuilding {A} (k : bool → Task A) :
  (∀ b, emits cfg w P (k b)) → emits cfg w P (GetBuilding k).
Proof. intros Hk s. simpl. apply Hk. Qed.

Lemma emits_GetKey {A} (k : option string → Task A) :
  (∀ v, emits cfg w P (k v)) → emits cfg w P (GetKey k).
Proof. intros Hk s. simpl. apply Hk. Qed.

Lemma emits_Parse {A} text (k : Result JS → Task A) :
  (∀ r, emits cfg w P (k r)) → emits cfg w P (Parse text k).
Proof. intros Hk s. simpl. apply Hk. Qed.

Lemma emits_parse text : emits cfg w P (parse text).
Proof. apply emits_Parse. intros; apply emits_of_result. Qed.

Lemma emits_stringify v : emits cfg w P (stringify v).
Proof. intros s. by exists []. Qed.

Lemma emits_prop v k : emits cfg w P (prop v k).
Proof. apply emits_of_result. Qed.

Lemma emits_try_catch {A} (body : Task A) handler :
  emits cfg w P body → (∀ e, emits cfg w P (handler e)) → emits cfg w P (try_catch body handler).
Proof.
  intros Hb Hh. apply emits_bind; [by apply emits_attempt|].
  intros [a|e]; [apply emits_ret | apply Hh].
Qed.

Lemma emits_finally {A} (body : Task A) fin :
  emits cfg w P body → emits cfg w P fin → emits cfg w P (finally_ body fin).
Proof.
  intros Hb Hf. apply emits_bind; [by apply emits_attempt|].
  intros r. apply emits_bind; [done | intros; apply emits_of_result].
Qed.

Lemma emits_for_of {X} (xs : list X) body :
  (∀ x, emits cfg w P (body x)) → emits cfg w P (for_of xs body).
Proof.
  intros Hb. induction xs as [|x xs IH]; simpl; [apply emits_ret|].
  apply emits_bind; [apply Hb | done].
Qed.

Lemma emits_spawn cmd args dir :
  (∀ r, P (EvCall (Spawn cmd args dir) r)) → emits cfg w P (spawn cmd args dir).
Proof.
  intros Hc. apply emits_bind; [by apply emits_await|].
  intros [[|n]|]; [apply emits_ret | apply emits_throw | apply emits_ret].
Qed.

Lemma emits_getMatchingFilesInDir dir exp :
  (∀ r, P (EvCall (Readdir dir) r)) → emits cfg w P (getMatchingFilesInDir dir exp).
Proof.
  intros Hc. apply emits_bind; [by apply emits_await|].
  intros files. simpl. case (_ =? 0); [apply emits_throw | apply emits_ret].
Qed.

Lemma emits_copyAndLog src dest :
  (∀ m, P (EvLog Info [LS m])) → (∀ r, P (EvCall (CopyFile src dest) r)) →
  emits cfg w P (copyAndLog src dest).
Proof.
  intros Hl Hc. apply emits_bind; [by apply emits_info | intros _].
by apply (emits_await (CopyFile src dest)).
Qed.

Lemma emits_runner_run runner args :
  (∀ r x, P (EvCall (RunnerRun r args) x)) → emits cfg w P (runner_run runner args).
Proof.
intros Hc. destruct runner as [r|]; [|apply emits_throw].
apply (emits_await (RunnerRun r args)). apply Hc.
Qed.

End Emits.

Lemma emits_weaken (P Q : Event → Prop) {A} (t : Task A) :
  (∀ ev, P ev → Q ev) → emits cfg w P t → emits cfg w Q t.
Proof.
  intros HPQ Ht s. destruct (Ht s) as (evs & H & F).
  exists evs. split; [done | by eapply Forall_impl].
Qed.

End Logic.

(** ** A ghost state folded over the history

    [tfold step st t Q]: started with ghost state [st], the task [t] leaves a
    result and a ghost state that satisfy [Q], the ghost state being folded
    over the events the task emits. *)

Section Fold.
Variable cfg : Config.
Variable w : World.
Context {St : Type}.
Variable step : St → Event → St.

#[local] Abbreviation run := (run cfg w).
#[local] Abbreviation replay := (replay cfg w).


Lemma tfold_conseq {A} st (t : Task A) (Q1 Q : Result A → St → Prop) :
  tfold cfg w step st t Q1 → (∀ r st', Q1 r st' → Q r st') → tfold cfg w step st t Q.
Proof. intros Ht HQ s. destruct (Ht s) as (evs & H & HQ1). exists evs. auto. Qed.

Lemma tfold_ret {A} st (a : A) (Q : Result A → St → Prop) :
  Q (Ok a) st → tfold cfg w step st (Ret a) Q.
Proof. intros HQ s. by exists []. Qed.

Lemma tfold_throw {A} st e (Q : Result A → St → Prop) :
  Q (Rejected e) st → tfold cfg w step st (Throw e) Q.
Proof. intros HQ s. by exists []. Qed.

Lemma tfold_of_result {A} st (r : Result A) (Q : Result A → St → Prop) :
  Q r st → tfold cfg w step st (of_result r) Q.
Proof. destruct r; [apply tfold_ret | apply tfold_throw]. Qed.

Lemma tfold_bind {A B} st (t : Task A) (f : A → Task B) Q1 (Q : Result B → St → Prop) :
  tfold cfg w step st t Q1 →
  (∀ a st1, Q1 (Ok a) st1 → tfold cfg w step st1 (f a) Q) →
  (∀ e st1, Q1 (Rejected e) st1 → Q (Rejected e) st1) →
  tfold cfg w step st (bind t f) Q.
Proof.
intros Ht Hf He s. rewrite run_bind.
destruct (Ht s) as (e1 & H1 & HQ1).
destruct (run t s) as [[a|e] s1]; simpl in *; subst.
- destruct (Hf a _ HQ1 (replay e1 s)) as (e2 & H2 & HQ2).
  exists (e1 ++ e2). rewrite replay_app, fold_left_app. done.
- exists e1. auto.
Qed.

Lemma tfold_attempt {A} st (t : Task A) (Q : Result (Result A) → St → Prop) :
  tfold cfg w step st t (fun r st' => Q (Ok r) st') → tfold cfg w step st (attempt t) Q.
Proof. intros Ht s. rewrite run_attempt. apply Ht. Qed.

Lemma tfold_Await {A} st c (k : Result (ret_ty c) → Task A) (Q : Result A → St → Prop) :
  (∀ r, tfold cfg w step (step st (EvCall c r)) (k r) Q) → tfold cfg w step st (Await c k) Q.
Proof.
intros Hk s. simpl.
destruct (Hk (respond w (trace s) c) (record cfg w c (respond w (trace s) c) s))
  as (evs & H & HQ).
by exists (EvCall c (respond w (trace s) c) :: evs).
Qed.

Lemma tfold_await st c (Q : Result (ret_ty c) → St → Prop) :
  (∀ r, Q r (step st (EvCall c r))) → tfold cfg w step st (await c) Q.
Proof. intros HQ. apply tfold_Await. intros r. by apply tfold_of_result. Qed.

(** The same, the answer ranging over what the world can answer. *)
Lemma tfold_await_resp st c (Q : Result (ret_ty c) → St → Prop) :
  (∀ tr, Q (respond w tr c) (step st (EvCall c (respond w tr c)))) →
  tfold cfg w step st (await c) Q.
Proof.
intros HQ s. simpl. rewrite run_of_result. simpl.
exists [EvCall c (respond w (trace s) c)]. split; [done | apply HQ].
Qed.

(** The same, in a world whose answer to the call is known. *)
Lemma tfold_await_known st c r0 (Q : Result (ret_ty c) → St → Prop) :
  (∀ tr, respond w tr c = r0) → Q r0 (step st (EvCall c r0)) → tfold cfg w step st (await c) Q.
Proof.
intros Hw HQ s. simpl. rewrite Hw, run_of_result. simpl.
by exists [EvCall c r0].
Qed.

Lemma tfold_Log {A} st lvl args (k : Task A) (Q : Result A → St → Prop) :
  tfold cfg w step (step st (EvLog lvl args)) k Q → tfold cfg w step st (Log lvl args k) Q.
Proof.
intros Hk s. simpl. destruct (Hk (emit (EvLog lvl args) s)) as (evs & H & HQ).
by exists (EvLog lvl args :: evs).
Qed.

Lemma tfold_log st lvl args (Q : Result unit → St → Prop) :
  Q (Ok tt) (step st (EvLog lvl args)) → tfold cfg w step st (log lvl args) Q.
Proof. intros. apply tfold_Log. by apply tfold_ret. Qed.

Lemma tfold_log_bind {B} st lvl args (f : unit → Task B) (Q : Result B → St → Prop) :
  tfold cfg w step (step st (EvLog lvl args)) (f tt) Q → tfold cfg w step st (bind (log lvl args) f) Q.
Proof. intros H. exact (tfold_Log st lvl args (f tt) Q H). Qed.

Lemma tfold_info_bind {B} st msg (f : unit → Task B) (Q : Result B → St → Prop) :
  tfold cfg w step (step st (EvLog Info [LS msg])) (f tt) Q → tfold cfg w step st (bind (info msg) f) Q.
Proof. apply tfold_log_bind. Qed.

Lemma tfold_Enter {A} st f (k : Task A) (Q : Result A → St → Prop) :
  tfold cfg w step (step st (EvEnter f)) k Q → tfold cfg w step st (Enter f k) Q.
Proof.
intros Hk s. simpl. destruct (Hk (emit (EvEnter f) s)) as (evs & H & HQ).
by exists (EvEnter f :: evs).
Qed.

Lemma tfold_Exit {A} st f ok (k : Task A) (Q : Result A → St → Prop) :
  tfold cfg w step (step st (EvExit f ok)) k Q → tfold cfg w step st (Exit f ok k) Q.
Proof.
intros Hk s. simpl. destruct (Hk (emit (EvExit f ok) s)) as (evs & H & HQ).
by exists (EvExit f ok :: evs).
Qed.

Lemma tfold_SetBuilding {A} st b (k : Task A) (Q : Result A → St → Prop) :
  tfold cfg w step (step st (EvSetBuilding b)) k Q → tfold cfg w step st (SetBuilding b k) Q.
Proof.
intros Hk s. simpl. destruct (Hk (set_building b s)) as (evs & H & HQ).
by exists (EvSetBuilding b :: evs).
Qed.

Lemma tfold_SetKey {A} st v (k : Task A) (Q : Result A → St → Prop) :
  tfold cfg w step (step st (EvSetKey v)) k Q → tfold cfg w step st (SetKey v k) Q.
Proof.
intros Hk s. simpl. destruct (Hk (set_key v s)) as (evs & H & HQ).
by exists (EvSetKey v :: evs).
Qed.

Lemma tfold_GetBuilding {A} st (k : bool → Task A) (Q : Result A → St → Prop) :
  (∀ b, tfold cfg w step st (k b) Q) → tfold cfg w step st (GetBuilding k) Q.
Proof. intros Hk s. simpl. apply Hk. Qed.

Lemma tfold_GetKey {A} st (k : option string → Task A) (Q : Result A → St → Prop) :
  (∀ v, tfold cfg w step st (k v) Q) → tfold cfg w step st (GetKey k) Q.
Proof. intros Hk s. simpl. apply Hk. Qed.

(** A task all of whose events leave the ghost state alone. *)
Lemma tfold_quiet {A} st (t : Task A) (Q : Result A → St → Prop) :
  emits cfg w (fun ev => ∀ st, step st ev = st) t → (∀ r, Q r st) → tfold cfg w step st t Q.
Proof.
intros Ht HQ s. destruct (Ht s) as (evs & H & F). exists evs. split; [done|].
assert (fold_left step evs st = st) as ->; [|done].
clear H. induction F as [|ev evs Hev _ IH]; simpl; [done|]. by rewrite Hev.
Qed.

Lemma tfold_bind_quiet {A B} st (t : Task A) (f : A → Task B) (Q : Result B → St → Prop) :
  emits cfg w (fun ev => ∀ st, step st ev = st) t →
  (∀ a, tfold cfg w step st (f a) Q) →
  (∀ e, Q (Rejected e) st) →
  tfold cfg w step st (bind t f) Q.
Proof.
intros Ht Hf He.
apply (tfold_bind st t f (fun _ st' => st' = st)).
- by apply tfold_quiet.
- intros a st1 ->. apply Hf.
- intros e st1 ->. apply He.
Qed.

Lemma tfold_finally {A} st (body : Task A) fin Q1 (Q : Result A → St → Prop) :
  tfold cfg w step st body Q1 →
  (∀ r st1, Q1 r st1 →
     tfold cfg w step st1 fin (fun rf st2 =>
       Q (match rf with Ok _ => r | Rejected e => Rejected e end) st2)) →
  tfold cfg w step st (finally_ body fin) Q.
Proof.
intros Hb Hf. unfold finally_.
apply (tfold_bind st _ _ (fun r st1 => ∃ r0, r = Ok r0 ∧ Q1 r0 st1)).
- apply tfold_attempt. eapply tfold_conseq; [exact Hb|]. eauto.
- intros r st1 (r0 & [= <-] & H1).
  eapply tfold_bind; [apply (Hf _ _ H1) | |].
  + intros [] st2 H2. by apply tfold_of_result.
  + intros e st2 H2. done.
- intros e st1 (r0 & [=] & _).
Qed.

Lemma tfold_try_catch {A} st (body : Task A) handler Q1 (Q : Result A → St → Prop) :
  tfold cfg w step st body Q1 →
  (∀ a st1, Q1 (Ok a) st1 → Q (Ok a) st1) →
  (∀ e st1, Q1 (Rejected e) st1 → tfold cfg w step st1 (handler e) Q) →
  tfold cfg w step st (try_catch body handler) Q.
Proof.
intros Hb Hok Hh. unfold try_catch.
apply (tfold_bind st _ _ (fun r st1 => ∃ r0, r = Ok r0 ∧ Q1 r0 st1)).
- apply tfold_attempt. eapply tfold_conseq; [exact Hb|]. eauto.
- intros r st1 (r0 & [= <-] & H1). destruct r as [a|e].
  + apply tfold_ret. auto.
  + auto.
- intros e st1 (r0 & [=] & _).
Qed.

Lemma tfold_frame {A} st f (body : Task A) Q1 (Q : Result A → St → Prop) :
  tfold cfg w step (step st (EvEnter f)) body Q1 →
  (∀ r st1, Q1 r st1 → Q r (step st1 (EvExit f (is_ok r)))) →
  tfold cfg w step st (frame f body) Q.
Proof.
intros Hb HQ. unfold frame. simpl.
apply tfold_Enter.
apply (tfold_bind _ _ _ (fun r st1 => ∃ r0, r = Ok r0 ∧ Q1 r0 st1)).
- apply tfold_attempt. eapply tfold_conseq; [exact Hb|]. eauto.
- intros r st1 (r0 & [= <-] & H1).
  apply tfold_Exit. apply tfold_of_result. auto.
- intros e st1 (r0 & [=] & _).
Qed.

End Fold.

(** ** Walking through a task *)

Arguments bind : simpl never.
Arguments attempt : simpl never.

Ltac emits_walk side :=
  repeat first
    [ apply emits_ret
    | apply emits_throw
    | apply emits_of_result
    | apply emits_parse
    | apply emits_stringify
    | apply emits_prop
    | apply emits_info
    | apply emits_log
    | match goal with
      | |- emits _ _ _ (await ?c) => apply (emits_await _ _ _ c); intros ?
      | |- emits _ _ _ (if ?b then _ else _) => destruct b
      | |- emits _ _ _ (match ?x with _ => _ end) => destruct x
      end
    | apply emits_for_of; intros ?
    | apply emits_finally
    | apply emits_GetKey; intros ?
    | apply emits_spawn; intros ?
    | apply emits_getMatchingFilesInDir; intros ?
    | apply emits_copyAndLog; [intros ?|intros ?]
    | apply emits_runner_run; intros ? ?
    | apply emits_bind; [|intros ?]
    | progress cbv zeta
    | progress side ].

Ltac tfold_await_now :=
  match goal with
  | |- tfold _ _ _ _ (await ?c) _ => apply (tfold_await _ _ _ _ c)
  end.

Ltac unfold_program :=
  unfold buildWin, buildLocal, buildWinGuarded, writeElectronBuilderConfigFile,
    setDebVersion, addDebs, addDeb, getRepoTargets, pullDebDatabase,
    pushDebDatabase, pullArtifacts, pushArtifacts, buildWithRunner.

(** * The Windows pipeline stops what it starts *)

Section BuildWin.
Variable cfg : Config.
Variable w : World.

Lemma vm_step_stop b r : vm_step [b] (EvCall (WinStop b) r) = [].
Proof.
change (vm_step [b] (EvCall (WinStop b) r))
  with (if negb (bool_decide (b = b)) then [b] else []).
by rewrite bool_decide_true.
Qed.

Lemma buildWin_pending type :
  tfold cfg w vm_step [] (buildWin cfg type) (fun _ st => st = []).
Proof.
unfold buildWin. cbv zeta.
repeat (apply tfold_bind_quiet;
        [ solve [unfold_program; emits_walk ltac:(intros; reflexivity)]
        | intros ?
        | intros ?; reflexivity ]).
match goal with
| |- context [WinStart ?b] =>
    apply (tfold_bind _ _ _ _ _ _ (fun r st => st = if is_ok r then [b] else []))
end.
- apply tfold_await. intros r. by destruct r.
- intros u st1 ->. apply tfold_info_bind. cbn [is_ok vm_step].
  apply (tfold_bind _ _ _ _ _ _ (fun _ st => st = [])).
  + eapply tfold_finally.
    * match goal with
      | |- tfold _ _ _ ?st0 _ _ =>
          apply (tfold_quiet _ _ _ st0 _ (fun _ st => st = st0))
      end; [ solve [unfold_program; emits_walk ltac:(intros; reflexivity)] | done ].
    * intros r st1 ->. tfold_await_now. intros rf.
      apply vm_step_stop.
  + intros u' st1 ->.
    apply tfold_quiet; [ solve [emits_walk ltac:(intros; reflexivity)] | done ].
  + done.
- intros e st1 ->. done.
Qed.

End BuildWin.


(** * The helper functions *)

Lemma fold_push_filter {X} (p : X → bool) (l acc : list X) :
  fold_left (fun ret f => if p f then ret ++ [f] else ret) l acc = acc ++ List.filter p l.
Proof.
revert acc. induction l as [|x l IH]; intros acc; simpl.
- by rewrite app_nil_r.
- rewrite IH. destruct (p x); [|done]. by rewrite <- app_assoc.
Qed.

Section Helpers.
Variable cfg : Config.
Variable w : World.

Lemma run_await c s :
  run cfg w (await c) s
  = (respond w (trace s) c, record cfg w c (respond w (trace s) c) s).
Proof. unfold await. simpl. apply run_of_result. Qed.

Lemma run_info msg s : run cfg w (info msg) s = (Ok tt, emit (EvLog Info [LS msg]) s).
Proof. reflexivity. Qed.

Lemma run_getMatchingFilesInDir dir exp listing s :
  respond w (trace s) (Readdir dir) = Ok listing →
  run cfg w (getMatchingFilesInDir dir exp) s
  = (match List.filter (re_test exp) listing with
     | [] => Rejected (JsError ("No files found matching " +:+ re_source exp +:+ "!"))
     | f :: fs => Ok (f :: fs)
     end,
     record cfg w (Readdir dir) (Ok listing) s).
Proof.
intros H. unfold getMatchingFilesInDir.
rewrite run_bind, run_await, H. cbv zeta.
rewrite fold_push_filter. simpl app.
by destruct (List.filter (re_test exp) listing).
Qed.

(** C4. For every directory listing and every filename pattern,
    [getMatchingFilesInDir] returns exactly the filenames of the listing that
    match the pattern, in listing order, and raises an error if and only if
    no filename matches. *)
Theorem getMatchingFilesInDir_filters s dir exp listing :
  respond w (trace s) (Readdir dir) = Ok listing →
  let matching := List.filter (re_test exp) listing in
  let r := (run cfg w (getMatchingFilesInDir dir exp) s).1 in
  (matching ≠ [] → r = Ok matching)
  ∧ (matching = [] →
     r = Rejected (JsError ("No files found matching " +:+ re_source exp +:+ "!")))
  ∧ ((∃ e, r = Rejected e) ↔ matching = []).
Proof.
intros H matching r. subst r.
rewrite (run_getMatchingFilesInDir _ _ _ _ H). fold matching. simpl.
destruct matching as [|f fs].
- split; [done|]. split; [done|]. split; [done | eauto].
- split; [done|]. split; [done|]. split; [by intros [e ?] | done].
Qed.

(** C6. For every template content and every resolved version string, the
    Debian control file [setDebVersion] writes is the template content
    verbatim followed by the line "Version: <version>\n": the function reads
    the template, writes that content to the output file and, when the write
    succeeded, logs the version. *)
Theorem setDebVersion_appends_version s ver templateFile outFile template :
  respond w (trace s) (ReadFile templateFile) = Ok template →
  let contents := template +:+ "Version: " +:+ ver +:+ Str.nl in
  let out := run cfg w (setDebVersion (JStr ver) templateFile outFile) s in
  ∃ r,
    emitted s out.2
    = [EvCall (ReadFile templateFile) (Ok template);
       EvCall (WriteFile outFile (JStr contents)) r]
      ++ (if is_ok r then [EvLog Info [LS ("Version set to " +:+ ver)]] else [])
    ∧ out.1 = match r with Ok _ => Ok tt | Rejected e => Rejected e end.
Proof.
intros H contents out. subst out. unfold setDebVersion.
rewrite run_bind, run_await, H. cbv zeta.
rewrite run_bind, run_await.
set (s1 := record cfg w (ReadFile templateFile) (Ok template) s).
assert (template +:+ ("Version: " +:+ to_str (JStr ver)) +:+ Str.nl = contents) as ->.
{ reflexivity. }
exists (respond w (trace s1) (WriteFile outFile (JStr contents))).
destruct (respond w (trace s1) (WriteFile outFile (JStr contents))) as [[]|e] eqn:E.
- rewrite run_info. split; [|done].
  exact (emitted_replay cfg w
           [EvCall (ReadFile templateFile) (Ok template);
            EvCall (WriteFile outFile (JStr contents)) (Ok tt);
            EvLog Info [LS ("Version set to " +:+ ver)]] s).
- split; [|done].
  exact (emitted_replay cfg w
           [EvCall (ReadFile templateFile) (Ok template);
            EvCall (WriteFile outFile (JStr contents)) (Rejected e)] s).
Qed.

End Helpers.

(** The listing ["a.dmg"; "b.txt"] filtered by /\.dmg$/ and by
    /\.appimage$/. *)
Lemma getMatchingFilesInDir_filters_witness :
  (run Sample.conf (Sample.listing_world ["a.dmg"; "b.txt"])
     (getMatchingFilesInDir "dist" re_dmg) Sample.init).1 = Ok ["a.dmg"]
  ∧ (run Sample.conf (Sample.listing_world ["a.dmg"; "b.txt"])
       (getMatchingFilesInDir "dist" Sample.re_appimage) Sample.init).1
    = Rejected (JsError "No files found matching /\.appimage$/!").
Proof.
split.
- refine (proj1 (getMatchingFilesInDir_filters Sample.conf
                   (Sample.listing_world ["a.dmg"; "b.txt"]) Sample.init
                   "dist" re_dmg ["a.dmg"; "b.txt"] eq_refl) _).
  vm_compute. discriminate.
- refine (proj1 (proj2 (getMatchingFilesInDir_filters Sample.conf
                   (Sample.listing_world ["a.dmg"; "b.txt"]) Sample.init
                   "dist" Sample.re_appimage ["a.dmg"; "b.txt"] eq_refl)) _).
  vm_compute. reflexivity.
Defined.

(** The template "Package: element\n" and the version "1.6.0". *)
Lemma setDebVersion_appends_version_witness :
  ∃ r,
    emitted Sample.init
      (run Sample.conf Sample.happy
         (setDebVersion (JStr "1.6.0") "control.template" "debcontrol") Sample.init).2
    = [EvCall (ReadFile "control.template") (Ok ("Package: element" +:+ Str.nl));
       EvCall (WriteFile "debcontrol"
                 (JStr ("Package: element" +:+ Str.nl +:+ "Version: 1.6.0" +:+ Str.nl))) r]
      ++ (if is_ok r then [EvLog Info [LS "Version set to 1.6.0"]] else []).
Proof.
destruct (setDebVersion_appends_version Sample.conf Sample.happy Sample.init
            "1.6.0" "control.template" "debcontrol" ("Package: element" +:+ Str.nl)
            eq_refl) as (r & H & _).
exists r. exact H.
Defined.

(** * The builder is stopped after the guarded region *)

Section History.
Variable cfg : Config.
Variable w : World.
Variable s0 : State.

Lemma emitted_same (s : State) : emitted s s = [].
Proof. unfold emitted. apply drop_all. Qed.

Lemma fh_bind {A B} pre (t : Task A) (f : A → Task B) Q1 (Q : Result B → list Event → Prop) :
  from_history cfg w s0 pre t Q1 →
  (∀ a evs, Q1 (Ok a) evs → from_history cfg w s0 evs (f a) Q) →
  (∀ e evs, Q1 (Rejected e) evs → Q (Rejected e) evs) →
  from_history cfg w s0 pre (bind t f) Q.
Proof.
unfold from_history. intros Ht Hf He. cbv zeta in *.
set (s := replay cfg w pre s0) in *.
rewrite run_bind.
pose proof (run_emitted cfg w t s) as Hs.
destruct (run cfg w t s) as [[a|e] s1]; cbn [fst snd] in *; [|by apply He].
specialize (Hf a _ Ht). cbv zeta in Hf.
rewrite replay_app in Hf. fold s in Hf. rewrite <- Hs in Hf.
pose proof (run_emitted cfg w (f a) s1) as Hs2.
destruct (run cfg w (f a) s1) as [r s2]; cbn [fst snd] in *.
rewrite <- app_assoc in Hf.
assert (emitted s s2 = emitted s s1 ++ emitted s1 s2) as ->; [|done].
rewrite Hs2 at 1. rewrite Hs at 2. rewrite <- replay_app. by rewrite emitted_replay.
Qed.

Lemma fh_emits P {A} pre (t : Task A) (Q : Result A → list Event → Prop) :
  emits cfg w P t → (∀ r evs, Forall P evs → Q r (pre ++ evs)) →
  from_history cfg w s0 pre t Q.
Proof.
intros Ht HQ. unfold from_history. cbv zeta.
destruct (Ht (replay cfg w pre s0)) as (evs & -> & F).
rewrite emitted_replay. by apply HQ.
Qed.

Lemma fh_await pre c (Q : Result (ret_ty c) → list Event → Prop) :
  (∀ r, Q r (pre ++ [EvCall c r])) → from_history cfg w s0 pre (await c) Q.
Proof.
intros HQ. unfold from_history. cbv zeta. unfold await. cbn [run].
rewrite run_of_result. cbn [fst snd].
set (s := replay cfg w pre s0).
change (record cfg w c (respond w (trace s) c) s)
  with (replay cfg w [EvCall c (respond w (trace s) c)] s).
rewrite emitted_replay. apply HQ.
Qed.

Lemma fh_log_bind {B} pre lvl args (f : unit → Task B) (Q : Result B → list Event → Prop) :
  from_history cfg w s0 (pre ++ [EvLog lvl args]) (f tt) Q →
  from_history cfg w s0 pre (bind (log lvl args) f) Q.
Proof.
intros H. apply (fh_bind _ _ _ (fun r evs => r = Ok tt ∧ evs = pre ++ [EvLog lvl args])).
- unfold from_history. cbv zeta. cbn [run log fst snd]. split; [done|]. f_equal.
  set (s := replay cfg w pre s0).
  change (emit (EvLog lvl args) s) with (replay cfg w [EvLog lvl args] s).
  by rewrite emitted_replay.
- by intros [] evs [_ ->].
- by intros e evs [[=] _].
Qed.

Lemma fh_info_bind {B} pre msg (f : unit → Task B) (Q : Result B → list Event → Prop) :
  from_history cfg w s0 (pre ++ [EvLog Info [LS msg]]) (f tt) Q →
  from_history cfg w s0 pre (bind (info msg) f) Q.
Proof. apply fh_log_bind. Qed.

Lemma fh_GetKey_bind {B} pre (f : option string → Task B) (Q : Result B → list Event → Prop) :
  (∀ v, from_history cfg w s0 pre (f v) Q) →
  from_history cfg w s0 pre (bind (GetKey Ret) f) Q.
Proof. intros H. unfold from_history. cbv zeta. cbn [run bind]. apply H. Qed.

Lemma fh_finally {A} pre (body : Task A) fin Q1 (Q : Result A → list Event → Prop) :
  from_history cfg w s0 pre body Q1 →
  (∀ r evs, Q1 r evs →
     from_history cfg w s0 evs fin (fun rf evs' =>
       Q (match rf with Ok _ => r | Rejected e => Rejected e end) evs')) →
  from_history cfg w s0 pre (finally_ body fin) Q.
Proof.
intros Hb Hf. unfold finally_.
apply (fh_bind _ _ _ (fun r evs => ∃ r0, r = Ok r0 ∧ Q1 r0 evs)).
- unfold from_history in *. cbv zeta in *. rewrite run_attempt. cbn [fst snd]. eauto.
- intros r evs (r0 & [= <-] & H1).
  eapply fh_bind; [apply (Hf _ _ H1) | |].
  + intros [] evs' H2. unfold from_history. cbv zeta. rewrite run_of_result. cbn [fst snd].
    rewrite emitted_same. by rewrite app_nil_r.
  + by intros e evs' H2.
- by intros e evs (r0 & [=] & _).
Qed.

End History.

Section HistoryInvariant.
Variable cfg : Config.
Variable w : World.
Variable s0 : State.

Lemma fh_bind_inv (I : list Event → Prop) (P : Event → Prop) {A B} pre
    (t : Task A) (f : A → Task B) (Q : Result B → list Event → Prop) :
  emits cfg w P t →
  (∀ pre e1, I pre → Forall P e1 → I (pre ++ e1)) →
  I pre →
  (∀ a pre', I pre' → from_history cfg w s0 pre' (f a) Q) →
  (∀ e pre', I pre' → Q (Rejected e) pre') →
  from_history cfg w s0 pre (bind t f) Q.
Proof.
intros Ht HI Hpre Hf He.
apply (fh_bind cfg w s0 _ _ _ (fun _ evs => I evs)); [|done|done].
apply (fh_emits cfg w s0 P); [done|]. intros r evs F. by apply HI.
Qed.

End HistoryInvariant.

Lemma unique_split {X} (P : X → Prop) (l1 : list X) x l2 a y c :
  Forall (fun z => ¬ P z) l1 → Forall (fun z => ¬ P z) l2 → P x → P y →
  l1 ++ x :: l2 = a ++ y :: c → a = l1 ∧ y = x ∧ c = l2.
Proof.
intros H1 H2 Hx Hy. revert a. induction H1 as [|z l1 Hz _ IH]; intros [|z' a] E; simpl in E.
- by injection E as -> ->.
- injection E as -> ->. exfalso.
  rewrite Forall_forall in H2. apply (H2 y); [|done].
  apply elem_of_app. right. by left.
- injection E as -> _. done.
- injection E as -> E. destruct (IH _ E) as (-> & -> & ->). done.
Qed.

Section BuildWinRegion.
Variable cfg : Config.
Variable w : World.
Variable s : State.
Variable type : string.

#[local] Abbreviation dirName := ("element-desktop-" +:+ type +:+ "-" +:+ desktopBranch cfg).
#[local] Abbreviation started := (EvLog Info [LS "...builder started"]).
#[local] Abbreviation removing := (EvLog Info [LS "Removing build dir"]).
#[local] Abbreviation guarded b := (buildWinGuarded cfg b type dirName (repoDirOf cfg type)).
#[local] Abbreviation no_start :=
  (fun ev : Event => ¬ ∃ b, ev = EvCall (WinStart b) (Ok tt)).

Lemma outside_no_start ev : outside_region ev → no_start ev.
Proof. intros [_ H] [b ->]. discriminate H. Qed.

Ltac outside_walk :=
  unfold_program;
  emits_walk ltac:(lazy beta; first [ by split ]).

Lemma fh_bind_outside {A B} pre (t : Task A) (f : A → Task B)
    (Q : Result B → list Event → Prop) :
  emits cfg w outside_region t →
  Forall outside_region pre →
  (∀ a pre', Forall outside_region pre' → from_history cfg w s pre' (f a) Q) →
  (∀ e pre', Forall outside_region pre' → Q (Rejected e) pre') →
  from_history cfg w s pre (bind t f) Q.
Proof.
intros Ht Hpre Hf He.
apply (fh_bind cfg w s _ _ _ (fun _ evs => Forall outside_region evs)).
- apply (fh_emits cfg w s outside_region); [done|].
  intros r evs F. by apply Forall_app.
- done.
- done.
Qed.

(** The guarded region begins by running the script, and calls no builder
    otherwise. *)
Lemma guarded_runs_script b s1 :
  ∃ rr rest,
    emitted s1 (run cfg w (guarded b) s1).2
    = EvLog Info [LS "Starting build..."]
      :: EvCall (WinRunScript b (winScript cfg type dirName)) rr :: rest
    ∧ Forall (fun ev => builder_of ev = None) rest.
Proof.
unfold buildWinGuarded. cbv zeta.
rewrite run_bind, run_info. rewrite run_bind, run_await.
set (s2 := emit (EvLog Info [LS "Starting build..."]) s1).
set (c := WinRunScript b (winScript cfg type dirName)).
destruct (respond w (trace s2) c) as [[]|e].
- match goal with
  | |- context [run cfg w ?t ?s3] =>
      assert (emits cfg w (fun ev => builder_of ev = None) t) as Ht
        by (emits_walk ltac:(lazy beta; reflexivity));
      destruct (Ht s3) as (rest & -> & F)
  end.
  exists (Ok tt), rest. split; [|done].
  change (record cfg w c (Ok tt) s2)
    with (replay cfg w [EvLog Info [LS "Starting build..."]; EvCall c (Ok tt)] s1).
  rewrite <- replay_app. by rewrite emitted_replay.
- exists (Rejected e), []. split; [|done].
  exact (emitted_replay cfg w [EvLog Info [LS "Starting build..."]; EvCall c (Rejected e)] s1).
Qed.

Lemma buildWin_shape :
  from_history cfg w s [] (buildWin cfg type) (fun r evs =>
    (Forall no_start evs ∧ ∃ e, r = Rejected e)
    ∨ ∃ pre b rs tail,
        Forall outside_region pre
        ∧ evs = pre ++ EvCall (WinStart b) (Ok tt) :: started
                  :: emitted (replay cfg w (pre ++ [EvCall (WinStart b) (Ok tt); started]) s)
                       (run cfg w (guarded b)
                          (replay cfg w (pre ++ [EvCall (WinStart b) (Ok tt); started]) s)).2
                  ++ EvCall (WinStop b) rs :: tail
        ∧ match rs, (run cfg w (guarded b)
                       (replay cfg w (pre ++ [EvCall (WinStart b) (Ok tt); started]) s)).1 with
          | Ok _, Ok _ =>
              ∃ rr, tail = [removing; EvCall (Rimraf (repoDirOf cfg type)) rr] ∧ r = rr
          | Ok _, Rejected e => tail = [] ∧ r = Rejected e
          | Rejected e, _ => tail = [] ∧ r = Rejected e
          end).
Proof.
match goal with |- from_history _ _ _ _ _ ?Q0 => set (Q := Q0) end.
assert (∀ e pre', Forall outside_region pre' → Q (Rejected e) pre') as Hfail.
{ intros e pre' F. left. split; [|by eexists].
  eapply Forall_impl; [exact F|]. apply outside_no_start. }
enough (∀ pre, Forall outside_region pre → from_history cfg w s pre (buildWin cfg type) Q)
  as H by (apply H; constructor).
intros pre F. unfold buildWin. cbv zeta.
do 9 (apply fh_bind_outside;
      [ solve [outside_walk] | done | clear pre F; intros ? pre F | exact Hfail ]).
apply fh_GetKey_bind. intros key. apply fh_info_bind.
assert (Forall outside_region
          (pre ++ [EvLog Info [LS ("Starting Windows builder for " +:+ type +:+ "...")]]))
  as F1 by (apply Forall_app; split; [done|]; by repeat constructor).
revert F1. generalize (pre ++ [EvLog Info [LS ("Starting Windows builder for " +:+ type +:+ "...")]]).
clear pre F. intros pre F.
match goal with |- context [WinStart ?b0] => set (b := b0) end.
apply (fh_bind cfg w s _ _ _ (fun r evs => evs = pre ++ [EvCall (WinStart b) r])).
{ apply (fh_await cfg w s _ (WinStart b)). by intros r. }
2:{ intros e evs ->. left. split; [|by eexists].
    apply Forall_app. split.
    - eapply Forall_impl; [exact F|]. apply outside_no_start.
    - repeat constructor. by intros [b' [=]]. }
intros [] evs ->. apply fh_info_bind.
rewrite <- app_assoc. cbn [app].
set (s1 := replay cfg w (pre ++ [EvCall (WinStart b) (Ok tt); started]) s).
apply (fh_bind cfg w s _ _ _
         (fun r evs =>
            ∃ rs, evs = (pre ++ [EvCall (WinStart b) (Ok tt); started])
                        ++ emitted s1 (run cfg w (guarded b) s1).2 ++ [EvCall (WinStop b) rs]
                  ∧ r = match rs with
                        | Ok _ => (run cfg w (guarded b) s1).1
                        | Rejected e => Rejected e
                        end)).
- apply (fh_finally cfg w s _ _ _
           (fun r evs => r = (run cfg w (guarded b) s1).1
                         ∧ evs = (pre ++ [EvCall (WinStart b) (Ok tt); started])
                                 ++ emitted s1 (run cfg w (guarded b) s1).2)).
  + by unfold from_history.
  + intros r evs [-> ->]. apply (fh_await cfg w s _ (WinStop b)). intros rs. exists rs.
    split; [by rewrite <- app_assoc | done].
- intros [] evs (rs & -> & Hr). apply fh_info_bind.
  apply (fh_await cfg w s _ (Rimraf (repoDirOf cfg type))). intros rr.
  right. exists pre, b, rs, [removing; EvCall (Rimraf (repoDirOf cfg type)) rr].
  split; [done|]. fold s1. split.
  + rewrite <- !app_assoc. reflexivity.
  + destruct rs as [[]|e]; [|discriminate Hr]. rewrite <- Hr. by exists rr.
- intros e evs (rs & -> & Hr).
  right. exists pre, b, rs, []. split; [done|]. fold s1. split.
  + rewrite <- !app_assoc. reflexivity.
  + destruct rs as [[]|e']; [by rewrite <- Hr | by injection Hr as ->].
Qed.

End BuildWinRegion.

Section BuildWinStops.
Variable cfg : Config.
Variable w : World.

(** C9. In the remote-scripted (Windows) pipeline the remote build
    environment is stopped on every exit path.  No builder that was started
    is left without [stop()] invoked on it, and a build that resolves has
    started one.  Once [builder.start()] has succeeded, the history goes on
    with the whole run of the guarded region (the script first, then the
    extraction of the artifacts), whatever its outcome, and right after it
    with [builder.stop()] on the same builder; no step of the region and no
    call to a builder comes before the start or after the stop.  Then
    [buildWin] rethrows the error of [stop()], else the error of the guarded
    region, and only when both succeeded removes the checkout and returns. *)
Theorem buildWin_stops_builder s type :
  let out := run cfg w (buildWin cfg type) s in
  let evs := emitted s out.2 in
  let dirName := "element-desktop-" +:+ type +:+ "-" +:+ desktopBranch cfg in
  let started := EvLog Info [LS "...builder started"] in
  pending_stops evs = []
  ∧ (out.1 = Ok tt → ∃ pre b post, evs = pre ++ EvCall (WinStart b) (Ok tt) :: post)
  ∧ ∀ pre b post,
      evs = pre ++ EvCall (WinStart b) (Ok tt) :: post →
      let s1 := replay cfg w (pre ++ [EvCall (WinStart b) (Ok tt); started]) s in
      let g := run cfg w (buildWinGuarded cfg b type dirName (repoDirOf cfg type)) s1 in
      Forall outside_region pre
      ∧ (∃ rr rest,
           emitted s1 g.2
           = EvLog Info [LS "Starting build..."]
             :: EvCall (WinRunScript b (winScript cfg type dirName)) rr :: rest
           ∧ Forall (fun ev => builder_of ev = None) rest)
      ∧ ∃ rs tail,
          post = started :: emitted s1 g.2 ++ EvCall (WinStop b) rs :: tail
          ∧ Forall outside_region tail
          ∧ match rs, g.1 with
            | Ok _, Ok _ =>
                ∃ rr, tail = [EvLog Info [LS "Removing build dir"];
                              EvCall (Rimraf (repoDirOf cfg type)) rr]
                      ∧ out.1 = rr
            | Ok _, Rejected e => tail = [] ∧ out.1 = Rejected e
            | Rejected e, _ => tail = [] ∧ out.1 = Rejected e
            end.
Proof.
intros out evs dirName started. subst dirName started.
assert (pending_stops evs = []) as Hp.
{ subst evs out. destruct (buildWin_pending cfg w type s) as (evs & -> & H).
  by rewrite emitted_replay. }
split; [done|].
pose proof (buildWin_shape cfg w s type) as Hs.
unfold from_history in Hs. cbv zeta in Hs. cbn [app replay fold_left] in Hs.
fold out in Hs. fold evs in Hs.
destruct Hs as [[Hno [e He]] | (pre0 & b0 & rs & tail & Fpre & E0 & Hres)].
- split; [intros Hok; rewrite Hok in He; discriminate He|].
  intros pre b post E. exfalso.
  rewrite Forall_forall in Hno.
  apply (Hno (EvCall (WinStart b) (Ok tt))); [|by exists b].
  rewrite E. apply elem_of_app. right. by left.
- split; [intros _; by eexists pre0, b0, _|].
  intros pre b post E s1 g.
  destruct (guarded_runs_script cfg w type b0
              (replay cfg w (pre0 ++ [EvCall (WinStart b0) (Ok tt);
                                       EvLog Info [LS "...builder started"]]) s))
    as (rr & rest & Eg & Frest).
  assert (Forall outside_region tail) as Ftail.
  { destruct rs as [[]|e];
      [destruct (run cfg w _ _).1 as [[]|e]|]; try (destruct Hres as [-> _]; constructor).
    destruct Hres as (rr' & -> & _). by repeat constructor. }
  rewrite E0 in E.
  apply (unique_split (fun ev => ∃ b', ev = EvCall (WinStart b') (Ok tt))) in E;
    [ | eapply Forall_impl; [exact Fpre|]; intros ev [_ H] [b' ->]; discriminate H
      | | by exists b0 | by exists b ].
  2:{ constructor; [by intros [b' [=]]|]. apply Forall_app. split.
      - rewrite Eg. constructor; [by intros [b' [=]]|].
        constructor; [by intros [b' [=]]|].
        eapply Forall_impl; [exact Frest|]. intros ev H [b' ->]. discriminate H.
      - constructor; [by intros [b' [=]]|].
        eapply Forall_impl; [exact Ftail|]. intros ev [_ H] [b' ->]. discriminate H. }
  destruct E as (-> & Eb & ->).
  assert (b = b0) as -> by (by simplify_eq).
  subst s1 g. split; [done|]. split; [by exists rr, rest|].
  exists rs, tail. split; [done|]. split; [done|]. exact Hres.
Qed.

End BuildWinStops.

(** The Windows build of the sample run with a script that fails, and with
    an output directory that holds no installer: in both the builder is
    stopped right after the guarded region has failed, and the build then
    rethrows the error of the region. *)
Lemma buildWin_stops_builder_witness :
  let b := {| wb_repoDir := "builds/element-desktop-win64-v1.6.0"; wb_type := "win64";
              wb_vmName := "win10"; wb_username := "builder"; wb_password := "hunter2";
              wb_keyContainer := None |} in
  let script := winScript Sample.conf "win64" "element-desktop-win64-v1.6.0" in
  let rethrown (e : Error) (rs : Result unit) : Result unit :=
    match rs with Ok _ => Rejected e | Rejected e' => Rejected e' end in
  (let out := run Sample.conf (Sample.failing Sample.is_WinRunScript)
                (buildWin Sample.conf "win64") Sample.init in
   let evs := emitted Sample.init out.2 in
   ∃ rs,
     evs = take 9 evs
           ++ [EvCall (WinStart b) (Ok tt);
               EvLog Info [LS "...builder started"];
               EvLog Info [LS "Starting build..."];
               EvCall (WinRunScript b script) (Rejected (External "failed"));
               EvCall (WinStop b) rs]
     ∧ out.1 = rethrown (External "failed") rs)
  ∧ (let out := run Sample.conf (Sample.listing_world ["RELEASES"])
                  (buildWin Sample.conf "win64") Sample.init in
     let evs := emitted Sample.init out.2 in
     ∃ rs,
       evs = take 9 evs
             ++ [EvCall (WinStart b) (Ok tt);
                 EvLog Info [LS "...builder started"];
                 EvLog Info [LS "Starting build..."];
                 EvCall (WinRunScript b script) (Ok tt);
                 EvLog Info [LS "Build complete!"];
                 EvCall (Mkdir "/home/builder/packages.riot.im/desktop/install/win32/x64")
                   (Ok tt);
                 EvCall (Mkdir "/home/builder/packages.riot.im/desktop/update/win32/x64")
                   (Ok tt);
                 EvCall (Readdir "builds/element-desktop-win64-v1.6.0/dist/squirrel-windows")
                   (Ok ["RELEASES"]);
                 EvCall (WinStop b) rs]
       ∧ out.1 = rethrown (JsError "No files found matching /\.exe$/!") rs).
Proof.
intros b script rethrown. split.
- intros out evs.
  assert (evs = take 9 evs ++ EvCall (WinStart b) (Ok tt) :: drop 10 evs) as Hsplit
    by (vm_compute; reflexivity).
  destruct (proj2 (proj2 (buildWin_stops_builder Sample.conf
                            (Sample.failing Sample.is_WinRunScript) Sample.init "win64"))
              (take 9 evs) b (drop 10 evs) Hsplit)
    as (_ & _ & rs & tail & Epost & _ & Hres).
  match type of Hres with
  | match rs with Ok _ => match ?g with _ => _ end | _ => _ end =>
      assert (g = Rejected (External "failed")) as Hg by (vm_compute; reflexivity);
      rewrite Hg in Hres
  end.
  match type of Epost with
  | _ = _ :: ?region ++ _ =>
      assert (region
              = [EvLog Info [LS "Starting build..."];
                 EvCall (WinRunScript b script) (Rejected (External "failed"))]) as Hr
        by (vm_compute; reflexivity);
      rewrite Hr in Epost
  end.
  exists rs. split.
  + rewrite Hsplit at 1. rewrite Epost.
    destruct rs as [[]|e]; destruct Hres as [-> _]; reflexivity.
  + destruct rs as [[]|e]; destruct Hres as [_ H]; exact H.
- intros out evs.
  assert (evs = take 9 evs ++ EvCall (WinStart b) (Ok tt) :: drop 10 evs) as Hsplit
    by (vm_compute; reflexivity).
  destruct (proj2 (proj2 (buildWin_stops_builder Sample.conf
                            (Sample.listing_world ["RELEASES"]) Sample.init "win64"))
              (take 9 evs) b (drop 10 evs) Hsplit)
    as (_ & _ & rs & tail & Epost & _ & Hres).
  match type of Hres with
  | match rs with Ok _ => match ?g with _ => _ end | _ => _ end =>
      assert (g = Rejected (JsError "No files found matching /\.exe$/!")) as Hg
        by (vm_compute; reflexivity);
      rewrite Hg in Hres
  end.
  match type of Epost with
  | _ = _ :: ?region ++ _ =>
      assert (region
              = [EvLog Info [LS "Starting build..."];
                 EvCall (WinRunScript b script) (Ok tt);
                 EvLog Info [LS "Build complete!"];
                 EvCall (Mkdir "/home/builder/packages.riot.im/desktop/install/win32/x64")
                   (Ok tt);
                 EvCall (Mkdir "/home/builder/packages.riot.im/desktop/update/win32/x64")
                   (Ok tt);
                 EvCall (Readdir "builds/element-desktop-win64-v1.6.0/dist/squirrel-windows")
                   (Ok ["RELEASES"])]) as Hr
        by (vm_compute; reflexivity);
      rewrite Hr in Epost
  end.
  exists rs. split.
  + rewrite Hsplit at 1. rewrite Epost.
    destruct rs as [[]|e]; destruct Hres as [-> _]; reflexivity.
  + destruct rs as [[]|e]; destruct Hres as [_ H]; exact H.
Defined.

(** * Ingestion without a codename *)

Section Ingestion.
Variable cfg : Config.
Variable w : World.

Lemma codenames_none conf :
  Forall (fun line => Str.startsWith line "Codename" = false) (Str.split conf Str.nl) →
  codenames conf = [].
Proof.
unfold codenames. intros H. generalize (@nil (option string)) as acc.
induction H as [|line lines Hl _ IH]; intros acc; simpl; [done|].
rewrite Hl. apply IH.
Qed.

Lemma run_getRepoTargets dbDir conf s :
  respond w (trace s) (ReadFile (Path.join [dbDir; "conf"; "distributions"])) = Ok conf →
  run cfg w (getRepoTargets dbDir) s
  = (Ok (codenames conf),
     record cfg w (ReadFile (Path.join [dbDir; "conf"; "distributions"])) (Ok conf) s).
Proof. intros H. unfold getRepoTargets. by rewrite run_bind, run_await, H. Qed.

(** C10. If conf/distributions holds no line starting with "Codename",
    [getRepoTargets] returns the empty list and [addDeb] succeeds without a
    single ingestion: it reads the file, logs, and returns. *)
Theorem addDeb_without_codename s dbDir deb conf :
  respond w (trace s) (ReadFile (Path.join [dbDir; "conf"; "distributions"])) = Ok conf →
  Forall (fun line => Str.startsWith line "Codename" = false) (Str.split conf Str.nl) →
  let out := run cfg w (addDeb dbDir deb) s in
  (run cfg w (getRepoTargets dbDir) s).1 = Ok []
  ∧ out.1 = Ok tt
  ∧ ingestions (emitted s out.2) = []
  ∧ emitted s out.2
    = [EvCall (ReadFile (Path.join [dbDir; "conf"; "distributions"])) (Ok conf);
       EvLog Info [LS ("Adding " +:+ deb +:+ " for " +:+ "...")]].
Proof.
intros H Hno out.
assert (emitted s out.2
        = [EvCall (ReadFile (Path.join [dbDir; "conf"; "distributions"])) (Ok conf);
           EvLog Info [LS ("Adding " +:+ deb +:+ " for " +:+ "...")]]
        ∧ out.1 = Ok tt) as [He Hr].
{ subst out. unfold addDeb.
  rewrite run_bind, (run_getRepoTargets _ _ _ H), (codenames_none _ Hno).
  rewrite run_bind, run_info. simpl. split; [|done].
  exact (emitted_replay cfg w
           [EvCall (ReadFile (Path.join [dbDir; "conf"; "distributions"])) (Ok conf);
            EvLog Info [LS ("Adding " +:+ deb +:+ " for " +:+ "...")]] s). }
split; [|split; [done|split; [|done]]].
- by rewrite (run_getRepoTargets _ _ _ H), (codenames_none _ Hno).
- by rewrite He.
Qed.

End Ingestion.

(** A conf/distributions without a Codename line. *)
Lemma addDeb_without_codename_witness :
  let out :=
    run Sample.conf (Sample.distributions_world ("Origin: element" +:+ Str.nl))
      (addDeb "/home/builder/debian" "element.deb") Sample.init in
  out.1 = Ok tt ∧ ingestions (emitted Sample.init out.2) = [].
Proof.
destruct (addDeb_without_codename Sample.conf
            (Sample.distributions_world ("Origin: element" +:+ Str.nl))
            Sample.init "/home/builder/debian" "element.deb"
            ("Origin: element" +:+ Str.nl) eq_refl) as (_ & H1 & H2 & _).
- vm_compute. repeat constructor.
- split; [exact H1 | exact H2].
Defined.

(** * The credential comes first *)

Section Credential.
Variable cfg : Config.
Variable w : World.

(** C8. The signing credential is acquired first in [start], before any
    network or build side effect: the first call of every run is
    [getSecret('riot_key_container')].  If it fails the run fails with that
    error and nothing else has happened: no pull, no build, no push, [building]
    was written [false] and never [true], the mirror is untouched. *)
Theorem start_acquires_credential_first s :
  let hello :=
    EvLog Info
      [LS ("Starting Element Desktop " +:+ desktopBranch cfg +:+ " release builder...")] in
  let ask := GetSecret "riot_key_container" in
  let out := run cfg w (start cfg) s in
  (∃ r rest, emitted s out.2 = hello :: EvSetBuilding false :: EvCall ask r :: rest)
  ∧ ∀ e,
      respond w (trace s ++ [hello; EvSetBuilding false]) ask = Rejected e →
      out.1 = Rejected e
      ∧ emitted s out.2 = [hello; EvSetBuilding false; EvCall ask (Rejected e)]
      ∧ building out.2 = false
      ∧ remotePub out.2 = remotePub s
      ∧ riotSigningKeyContainer out.2 = riotSigningKeyContainer s.
Proof.
intros hello ask out. subst out. unfold start.
rewrite run_bind, run_info. fold hello.
rewrite run_bind. cbn [run].
rewrite run_bind, run_await. fold ask.
set (s2 := set_building false (emit hello s)).
assert (trace s2 = trace s ++ [hello; EvSetBuilding false]) as Ht.
{ subst s2. cbn [trace set_building emit]. by rewrite <- app_assoc. }
rewrite <- Ht.
destruct (respond w (trace s2) ask) as [key|e] eqn:E.
- split; [|by intros e [=]].
  match goal with
  | |- context [run cfg w ?t ?s3] =>
      destruct (run_replay cfg w t s3) as [evs ->]
  end.
  exists (Ok key), evs.
  change (record cfg w ask (Ok key) s2)
    with (replay cfg w [hello; EvSetBuilding false; EvCall ask (Ok key)] s).
  rewrite <- replay_app. apply emitted_replay.
- split.
  + exists (Rejected e), [].
    exact (emitted_replay cfg w [hello; EvSetBuilding false; EvCall ask (Rejected e)] s).
  + intros e' [= <-]. split; [done|]. split; [|done].
    exact (emitted_replay cfg w [hello; EvSetBuilding false; EvCall ask (Rejected e)] s).
Qed.

End Credential.

(** A run of the sample builder with the key chain locked. *)
Lemma start_acquires_credential_first_witness :
  let out :=
    run Sample.conf (Sample.failing Sample.is_GetSecret) (start Sample.conf) Sample.init in
  out.1 = Rejected (External "failed")
  ∧ emitted Sample.init out.2
    = [EvLog Info [LS "Starting Element Desktop v1.6.0 release builder..."];
       EvSetBuilding false;
       EvCall (GetSecret "riot_key_container") (Rejected (External "failed"))]
  ∧ building out.2 = false
  ∧ remotePub out.2 = remotePub Sample.init.
Proof.
destruct (proj2 (start_acquires_credential_first Sample.conf
                   (Sample.failing Sample.is_GetSecret) Sample.init)
            (External "failed") eq_refl) as (H1 & H2 & H3 & H4 & _).
split; [exact H1|]. split; [exact H2|]. split; [exact H3 | exact H4].
Defined.

(** * The electron-builder configuration *)

Lemma lookup_set_eq k v fs : lookup_field k (set_field k v fs) = Some v.
Proof.
induction fs as [|[k' v'] fs IH]; simpl.
- by rewrite String.eqb_refl.
- destruct (String.eqb k k') eqn:E; simpl.
  + by rewrite String.eqb_refl.
  + by rewrite E.
Qed.

Lemma lookup_set_ne k k' v fs :
  k ≠ k' → lookup_field k' (set_field k v fs) = lookup_field k' fs.
Proof.
intros Hne. induction fs as [|[k0 v0] fs IH]; simpl.
- destruct (String.eqb_spec k' k); [congruence | done].
- destruct (String.eqb_spec k k0) as [->|Hk]; simpl.
  + destruct (String.eqb_spec k' k0); [congruence | done].
  + by rewrite IH.
Qed.

Lemma with_path_holds_only k1 k2 v o :
  holds_only k2 (lookup_field k1 o) →
  with_path k1 k2 v o = set_field k1 (JObj [(k2, v)]) o.
Proof.
unfold with_path, holds_only.
destruct (lookup_field k1 o) as [[| | | | | |[|[k' x] [|? ?]]]|]; try done.
intros ->. simpl. by rewrite String.eqb_refl.
Qed.

Section Config.
Variable cfg : Config.
Variable w : World.

(** C5, as amended.  For every platform type and every package.json whose
    build section is an object, the generated configuration is that build
    section with its whole [extraMetadata] entry replaced by
    [{productName}] ("Element" for linux, the manifest's productName
    otherwise) and its whole [deb] entry replaced by
    [{fpm: ["--deb-custom-control=debcontrol"]}]; every other entry is the
    build section's.  It is the build section with only
    [extraMetadata.productName] and [deb.fpm] set when the build section holds
    nothing else under [extraMetadata] and [deb].  It is what
    [writeElectronBuilderConfigFile] serialises and writes. *)
Theorem electronBuilderConfig_replaces_entries s type repoDir ver text pkg build :
  respond w (trace s) (ReadFile (Path.join [repoDir; "package.json"])) = Ok text →
  JSON_parse w text = Ok pkg →
  get_prop pkg "build" = Ok (JObj build) →
  ∃ fields,
    electronBuilderConfig type pkg = Ok (JObj fields)
    ∧ lookup_field "extraMetadata" fields
      = Some (JObj [("productName", productNameFor type pkg)])
    ∧ lookup_field "deb" fields = Some (JObj [("fpm", JArr [JStr debFlag])])
    ∧ (∀ k, k ≠ "extraMetadata" → k ≠ "deb" →
         lookup_field k fields = lookup_field k build)
    ∧ (holds_only "productName" (lookup_field "extraMetadata" build) →
       holds_only "fpm" (lookup_field "deb" build) →
       JObj fields = configAsWorded type pkg build [JStr debFlag])
    ∧ ∃ r,
        emitted s (run cfg w (writeElectronBuilderConfigFile type repoDir ver) s).2
        = [EvCall (ReadFile (Path.join [repoDir; "package.json"])) (Ok text);
           EvCall (WriteFile (Path.join [repoDir; ELECTRON_BUILDER_CFG_FILE])
                     (JStr (JSON_stringify w (JObj fields)))) r].
Proof.
intros Hread Hparse Hbuild.
set (E := JObj [("productName", productNameFor type pkg)]).
set (D := JObj [("fpm", JArr [JStr debFlag])]).
exists (set_field "deb" D (set_field "extraMetadata" E build)).
assert (electronBuilderConfig type pkg
        = Ok (JObj (set_field "deb" D (set_field "extraMetadata" E build)))) as Hcfg.
{ unfold electronBuilderConfig. rewrite Hbuild.
  assert ((if String.eqb type "linux" then JStr "Element"
           else match get_prop pkg "productName" with
                | Ok v => v
                | Rejected _ => JUndef
                end) = productNameFor type pkg) as ->.
  { unfold productNameFor. destruct (String.eqb type "linux"); [done|].
    destruct pkg; simpl in Hbuild; try discriminate; done. }
  reflexivity. }
split; [done|]. split.
{ rewrite lookup_set_ne by done. apply lookup_set_eq. }
split; [apply lookup_set_eq|]. split.
{ intros k H1 H2. rewrite !lookup_set_ne by done. done. }
split.
{ intros H1 H2. unfold configAsWorded.
  rewrite (with_path_holds_only "extraMetadata" _ _ _ H1).
  rewrite with_path_holds_only; [done|].
  by rewrite lookup_set_ne. }
unfold writeElectronBuilderConfigFile.
rewrite run_bind, run_await, Hread.
rewrite run_bind. unfold parse at 1. cbn [run]. rewrite Hparse, run_of_result.
rewrite run_bind, Hcfg, run_of_result.
rewrite run_bind. unfold stringify at 1. cbn [run].
unfold await. cbn [run]. rewrite run_of_result.
eexists.
match goal with
| |- emitted s (_, record cfg w ?c ?r (record cfg w ?c0 ?r0 s)).2 = _ =>
    exact (emitted_replay cfg w [EvCall c0 r0; EvCall c r] s)
end.
Qed.

End Config.

(** The sample package.json, whose build section is
    [{appId, deb: {depends}}], built for mac. *)
Lemma electronBuilderConfig_replaces_entries_witness :
  ∃ fields,
    electronBuilderConfig "mac" Sample.pkg = Ok (JObj fields)
    ∧ lookup_field "deb" fields = Some (JObj [("fpm", JArr [JStr debFlag])])
    ∧ lookup_field "appId" fields = Some (JStr "im.riot.app").
Proof.
destruct (electronBuilderConfig_replaces_entries Sample.conf Sample.happy Sample.init
            "mac" "builds/element-desktop-mac-v1.6.0" (JStr "1.6.0")
            Sample.pkg_text Sample.pkg Sample.build eq_refl eq_refl eq_refl)
  as (fields & H1 & _ & H3 & H4 & _).
exists fields. split; [exact H1|]. split; [exact H3|].
rewrite H4; [reflexivity | discriminate | discriminate].
Defined.

(** The claim on the configuration fails as stated: for the sample
    package.json, whose build section
    declares [deb.depends], the generated configuration is not the build
    section with [deb.fpm] set to a list that includes the flag: the
    [Object.assign] has dropped [deb.depends]. *)
Lemma electronBuilderConfig_drops_siblings :
  get_prop Sample.pkg "build" = Ok (JObj Sample.build)
  ∧ ¬ ∃ fpm,
        In (JStr debFlag) fpm
        ∧ electronBuilderConfig "mac" Sample.pkg
          = Ok (configAsWorded "mac" Sample.pkg Sample.build fpm).
Proof.
split; [reflexivity|].
intros (fpm & _ & H). vm_compute in H. discriminate H.
Qed.

(** * Re-entrancy *)

(** Running a task alone is resuming it each time the call it waits for has
    settled. *)
Lemma run_advance cfg w {A} (t : Task A) s :
  run cfg w t s
  = match advance w t s with
    | (Finished r, s') => (r, s')
    | (Suspended c k, s') =>
        run cfg w (k (respond w (trace s') c)) (record cfg w c (respond w (trace s') c) s')
    end.
Proof. revert s. induction t; intros s; simpl; auto. Qed.

(** Whatever [this.building] holds when [start] is called, the invocation
    goes on to [pullArtifacts] as soon as its secret has arrived: the flag is
    cleared before it is tested. *)
Lemma start_clears_guard cfg w s key :
  let called := advance w (start cfg) s in
  respond w (trace called.2) (GetSecret "riot_key_container") = Ok key →
  waiting_for called.1 = Some (GetSecret "riot_key_container")
  ∧ building called.2 = false
  ∧ let resumed := settle cfg w called.1 called.2 in
    waiting_for resumed.1 = Some (pull_call (pubDir cfg) (rsyncRoot cfg))
    ∧ building resumed.2 = true.
Proof.
intros called H. split; [reflexivity|]. split; [reflexivity|].
intros resumed. subst resumed. unfold settle.
change called.1 with
  (Suspended (GetSecret "riot_key_container")
     (fun r => bind (of_result r) (fun key =>
        SetKey key (Ret tt) ;;
        b <- GetBuilding Ret ;;
        if b : bool then Ret tt else
        finally_ (startGuarded cfg TYPES) (SetBuilding false (Ret tt)) ;; Ret tt))).
lazy beta iota zeta. rewrite H. split; reflexivity.
Qed.

(** C1, on the code.  [start] assigns [this.building = false] on entry, before
    it tests the flag.  In the sample world: the first invocation has set
    [building] and waits for its pull; a second invocation then clears the
    flag, passes the guard once its secret has arrived and starts a pull of its
    own; resumed in turn, both invocations build every platform and both
    push. *)
Theorem start_reentry_runs_twice :
  building Reentry.first_pulling.2 = true
  ∧ waiting_for Reentry.first_pulling.1
    = Some (pull_call (pubDir Sample.conf) (rsyncRoot Sample.conf))
  ∧ building Reentry.second_called.2 = false
  ∧ waiting_for Reentry.second_resumed.1
    = Some (pull_call (pubDir Sample.conf) (rsyncRoot Sample.conf))
  ∧ waiting_for Reentry.finished.1.1 = None
  ∧ waiting_for Reentry.finished.1.2 = None
  ∧ entered (progress_of Sample.conf (trace Reentry.finished.2))
    = ["win64"; "win64"; "mac"; "mac"; "linux"; "linux"]
  ∧ pushes (progress_of Sample.conf (trace Reentry.finished.2)) = 2.
Proof. vm_compute. repeat split. Qed.

(** * Debian ingestion *)

Lemma fold_ingest evs st : fold_left ingest_step evs st = st ++ ingestions evs.
Proof.
revert st. induction evs as [|ev evs IH]; intros st; simpl.
- by rewrite app_nil_r.
- rewrite IH. unfold ingest_step, ingestions. simpl.
  destruct (ingestion ev); simpl; [by rewrite <- app_assoc | done].
Qed.

Lemma length_ingestion_pairs cfg repoDir debs targets :
  length (ingestion_pairs cfg repoDir debs targets) = length debs * length targets.
Proof.
unfold ingestion_pairs. induction debs as [|f debs IH]; simpl; [done|].
by rewrite length_app, length_map, IH.
Qed.

Section AddDebs.
Variable cfg : Config.
Variable w : World.
Variable conf : string.
Variable targets : list string.
Hypothesis read_conf :
  ∀ tr, respond w tr (ReadFile (Path.join [debDir cfg; "conf"; "distributions"])) = Ok conf.
Hypothesis conf_targets : codenames conf = map Some targets.

Lemma tfold_includedeb st t deb :
  tfold cfg w ingest_step st
    (spawn "reprepro" [Some "includedeb"; Some t; Some deb] (Some (debDir cfg)))
    (fun r st' => st' = st ++ [(Some t, deb)] ∧ (all_ingest cfg w → r = Ok tt)).
Proof.
unfold spawn.
apply (tfold_bind _ _ _ _ _ _
         (fun r st' => st' = st ++ [(Some t, deb)]
                       ∧ (all_ingest cfg w → r = Ok (Some 0)))).
- apply (tfold_await_resp _ _ _ _
           (Spawn "reprepro" [Some "includedeb"; Some t; Some deb] (Some (debDir cfg)))).
  intros tr. split; [done|]. intros H. apply (H tr t deb).
- intros code st1 [-> H]. destruct code as [[|n]|].
  + apply tfold_ret. auto.
  + apply tfold_throw. split; [done|]. intros Ha. by specialize (H Ha).
  + apply tfold_ret. auto.
- intros e st1 [-> H]. split; [done|]. intros Ha. by specialize (H Ha).
Qed.

Lemma tfold_targets deb ts st :
  tfold cfg w ingest_step st
    (for_of (map Some ts) (fun target =>
       spawn "reprepro" [Some "includedeb"; target; Some deb] (Some (debDir cfg))))
    (fun r st' =>
       ∃ done rest,
         ts = done ++ rest
         ∧ st' = st ++ map (fun t => (Some t, deb)) done
         ∧ (r = Ok tt → rest = [])
         ∧ (all_ingest cfg w → r = Ok tt)).
Proof.
revert st. induction ts as [|t ts IH]; intros st; simpl.
- apply tfold_ret. exists [], []. simpl. by rewrite app_nil_r.
- eapply tfold_bind; [apply tfold_includedeb | |].
  + intros [] st1 [-> Hall]. eapply tfold_conseq; [apply IH|].
    intros r st' (done & rest & -> & -> & Hr & Ha).
    exists (t :: done), rest. simpl. by rewrite <- app_assoc.
  + intros e st1 [-> Hall]. exists [t], ts. simpl. split; [done|].
    split; [done|]. split; [done | exact Hall].
Qed.

Lemma tfold_addDeb deb st :
  tfold cfg w ingest_step st (addDeb (debDir cfg) deb)
    (fun r st' =>
       ∃ done rest,
         targets = done ++ rest
         ∧ st' = st ++ map (fun t => (Some t, deb)) done
         ∧ (r = Ok tt → rest = [])
         ∧ (all_ingest cfg w → r = Ok tt)).
Proof.
unfold addDeb.
apply (tfold_bind _ _ _ _ _ _ (fun r st' => st' = st ∧ r = Ok (map Some targets))).
- unfold getRepoTargets.
  apply (tfold_bind _ _ _ _ _ _ (fun r st' => st' = st ∧ r = Ok conf)).
  + apply (tfold_await_known _ _ _ _
             (ReadFile (Path.join [debDir cfg; "conf"; "distributions"])) (Ok conf));
      [apply read_conf | done].
  + intros c st1 [-> [= ->]]. apply tfold_ret. by rewrite conf_targets.
  + by intros e st1 [_ [=]].
- intros ts st1 [-> [= ->]]. apply tfold_info_bind. apply tfold_targets.
- by intros e st1 [_ [=]].
Qed.

(** C7.  Debian ingestion is per target and per package: in a repository
    whose conf/distributions exposes the targets [targets], ingesting the
    packages [debs] performs the ingestions of the (package, target) pairs in
    order, one [reprepro includedeb] each.  Each can fail by itself: the
    ingestions performed are always a prefix of the pairs, they are all of
    them, N times M, when [addDebs] succeeds, and it succeeds when every
    ingestion does. *)
Theorem addDebs_ingests_every_pair s repoDir debs :
  let out := run cfg w (addDebs cfg repoDir debs) s in
  let ops := ingestions (emitted s out.2) in
  let pairs := ingestion_pairs cfg repoDir debs targets in
  length pairs = length debs * length targets
  ∧ (∃ rest, pairs = ops ++ rest)
  ∧ (out.1 = Ok tt → ops = pairs)
  ∧ (all_ingest cfg w → out.1 = Ok tt ∧ ops = pairs).
Proof.
intros out ops pairs.
split; [apply length_ingestion_pairs|].
assert (∀ st,
  tfold cfg w ingest_step st (addDebs cfg repoDir debs)
    (fun r st' =>
       ∃ done rest,
         pairs = done ++ rest ∧ st' = st ++ done
         ∧ (r = Ok tt → rest = []) ∧ (all_ingest cfg w → r = Ok tt))) as H.
{ subst pairs. clear out ops. unfold addDebs, ingestion_pairs.
  induction debs as [|f ds IH]; intros st; simpl.
  - apply tfold_ret. exists [], []. simpl. by rewrite app_nil_r.
  - eapply tfold_bind; [apply tfold_addDeb | |].
    + intros [] st1 (done & rest & E & -> & Hr & Ha).
      specialize (Hr eq_refl). subst rest. rewrite app_nil_r in E. subst done.
      eapply tfold_conseq; [apply IH|].
      intros r st' (done & rest & -> & -> & Hr' & Ha').
      match goal with
      | |- ∃ d r, ?a ++ done ++ rest = _ ∧ _ => exists (a ++ done), rest
      end.
      rewrite <- !app_assoc. done.
    + intros e st1 (done & rest & E & -> & Hr & Ha).
      rewrite E, map_app, <- app_assoc.
      match goal with
      | |- ∃ d r, ?a ++ ?b = _ ∧ _ => exists a, b
      end.
      split; [done|]. split; [done|]. split; [done | exact Ha]. }
destruct (H [] s) as (evs & Hs & done & rest & E & Hf & Hr & Ha).
fold out in Hs, Hr, Ha.
assert (ops = done) as ->.
{ subst ops. rewrite Hs, emitted_replay.
  rewrite fold_ingest in Hf. simpl in Hf. done. }
split; [by exists rest|]. split.
- intros Hok. rewrite E, (Hr Hok). by rewrite app_nil_r.
- intros Hall. specialize (Ha Hall). split; [done|].
  rewrite E, (Hr Ha). by rewrite app_nil_r.
Qed.

End AddDebs.

(** The sample repository exposes buster and bullseye: one package, two
    ingestions. *)
Lemma addDebs_ingests_every_pair_witness :
  let out :=
    run Sample.conf Sample.happy
      (addDebs Sample.conf "builds/element-desktop-linux-v1.6.0" ["element.deb"])
      Sample.init in
  out.1 = Ok tt
  ∧ ingestions (emitted Sample.init out.2)
    = [(Some "buster",
        "/home/builder/builds/element-desktop-linux-v1.6.0/dist/element.deb");
       (Some "bullseye",
        "/home/builder/builds/element-desktop-linux-v1.6.0/dist/element.deb")].
Proof.
destruct (addDebs_ingests_every_pair Sample.conf Sample.happy Sample.distributions
            ["buster"; "bullseye"] (fun _ => eq_refl) eq_refl Sample.init
            "builds/element-desktop-linux-v1.6.0" ["element.deb"])
  as (_ & _ & _ & H).
destruct H as [H1 H2]; [intros tr t deb; reflexivity|].
split; [exact H1 | exact H2].
Defined.

(** * Where an rsync goes *)

Lemma str_length_app a b : String.length (a +:+ b) = String.length a + String.length b.
Proof.
induction a as [|c a IH]; [done|].
change (S (String.length (a +:+ b)) = S (String.length a + String.length b)).
by rewrite IH.
Qed.

Lemma str_app_assoc a b c : (a +:+ b) +:+ c = a +:+ b +:+ c.
Proof.
induction a as [|x a IH]; [done|].
change (String x ((a +:+ b) +:+ c) = String x (a +:+ b +:+ c)).
by rewrite IH.
Qed.

Lemma str_app_inv_tail a b c : a +:+ c = b +:+ c → a = b.
Proof.
revert b. induction a as [|x a IH]; intros [|y b] H.
- done.
- apply (f_equal String.length) in H.
  change (String.length c = S (String.length (b +:+ c))) in H.
  rewrite str_length_app in H. lia.
- apply (f_equal String.length) in H.
  change (S (String.length (a +:+ c)) = String.length c) in H.
  rewrite str_length_app in H. lia.
- change (String x (a +:+ c) = String y (b +:+ c)) in H.
  injection H as -> H. f_equal. by apply IH.
Qed.

Lemma str_get_last a c : String.get (String.length a) (a +:+ String c "") = Some c.
Proof. induction a as [|x a IH]; [done | exact IH]. Qed.

(** Two strings that end in different characters differ. *)
Lemma str_last_ne a b c d : c ≠ d → a +:+ String c "" ≠ b +:+ String d "".
Proof.
intros Hne H.
assert (String.length a = String.length b) as Hl.
{ apply (f_equal String.length) in H. rewrite !str_length_app in H.
  change (String.length (String c "")) with 1 in H.
  change (String.length (String d "")) with 1 in H. lia. }
pose proof (str_get_last a c) as Ha. rewrite H, Hl, str_get_last in Ha. congruence.
Qed.

Lemma debian_not_packages a b : a +:+ "debian" ≠ b +:+ "packages.riot.im".
Proof.
intros H.
apply (str_last_ne (a +:+ "debia") (b +:+ "packages.riot.i") "n" "m"); [done|].
by rewrite !str_app_assoc.
Qed.

Section Destinations.
Variable cfg : Config.

Lemma debDir_not_remote : debDir cfg ≠ remotePubLocation cfg.
Proof.
change (cwd cfg +:+ "/" +:+ "debian" ≠ rsyncRoot cfg +:+ "packages.riot.im").
rewrite <- str_app_assoc. apply debian_not_packages.
Qed.

Lemma debDir_not_pubDir : debDir cfg ≠ pubDir cfg.
Proof.
change (cwd cfg +:+ "/" +:+ "debian" ≠ cwd cfg +:+ "/" +:+ "packages.riot.im").
rewrite <- !str_app_assoc. apply debian_not_packages.
Qed.

Lemma remoteDeb_not_remote : rsyncRoot cfg +:+ "debian" ≠ remotePubLocation cfg.
Proof. apply debian_not_packages. Qed.

Lemma remoteDeb_not_pubDir : rsyncRoot cfg +:+ "debian" ≠ pubDir cfg.
Proof.
change (rsyncRoot cfg +:+ "debian" ≠ cwd cfg +:+ "/" +:+ "packages.riot.im").
rewrite <- (str_app_assoc (cwd cfg)). apply debian_not_packages.
Qed.

(** The local copy is not the mirror unless the mirror root is the working
    directory itself. *)
Lemma pubDir_not_remote : rsyncRoot cfg ≠ cwd cfg +:+ "/" → pubDir cfg ≠ remotePubLocation cfg.
Proof.
intros Hne H. apply Hne.
change (cwd cfg +:+ "/" +:+ "packages.riot.im" = rsyncRoot cfg +:+ "packages.riot.im") in H.
rewrite <- str_app_assoc in H. symmetry. by apply str_app_inv_tail in H.
Qed.

Lemma build_event_rsync args d dir r :
  last args = Some (Some d) → d ≠ remotePubLocation cfg → d ≠ pubDir cfg →
  build_event cfg (EvCall (Spawn "rsync" args dir) r) = true.
Proof.
intros Hl H1 H2. unfold build_event, rsync_into, rsync_dest.
change (String.eqb "rsync" "rsync") with true. cbv iota. rewrite Hl.
apply String.eqb_neq in H1, H2. by rewrite H1, H2.
Qed.

Lemma is_pull_call_into c : is_pull_call cfg c = true → rsync_into (pubDir cfg) c = true.
Proof.
destruct c; try discriminate. unfold is_pull_call.
intros H. apply andb_prop in H as [H Hd]. apply andb_prop in H as [Hc Ha].
apply String.eqb_eq in Hc. apply bool_decide_eq_true in Ha. subst.
unfold rsync_into, rsync_dest.
change (String.eqb "rsync" "rsync") with true. cbv iota.
change (last (strs ["-av"; "--delete"; rsyncRoot cfg +:+ "packages.riot.im/"; pubDir cfg]))
  with (Some (Some (pubDir cfg))).
apply String.eqb_refl.
Qed.

Lemma build_event_quiet ev p : build_event cfg ev = true → progress_step cfg p ev = p.
Proof.
destruct ev as [c r| | | | |]; try discriminate; [|done].
unfold build_event. intros H. apply andb_prop in H as [H1 H2].
apply negb_true_iff in H1, H2.
unfold progress_step.
assert (is_pull cfg (EvCall c r) = false) as ->.
{ unfold is_pull. destruct (is_pull_call cfg c) eqn:E; [|done].
  apply is_pull_call_into in E. congruence. }
unfold is_remote_write, writes_remote_pub. by rewrite H1.
Qed.

End Destinations.

Section BuildEvents.
Variable cfg : Config.
Variable w : World.

Lemma build_event_pullDeb r :
  build_event cfg
    (EvCall (Spawn "rsync"
               (strs ["-av"; "--delete"; rsyncRoot cfg +:+ "debian/"; debDir cfg]) None) r)
  = true.
Proof.
apply (build_event_rsync cfg _ (debDir cfg));
  [reflexivity | apply debDir_not_remote | apply debDir_not_pubDir].
Qed.

Lemma build_event_pushDeb r :
  build_event cfg
    (EvCall (Spawn "rsync"
               (strs ["-av"; "--delete"; debDir cfg +:+ "/"; rsyncRoot cfg +:+ "debian"])
               None) r)
  = true.
Proof.
apply (build_event_rsync cfg _ (rsyncRoot cfg +:+ "debian"));
  [reflexivity | apply remoteDeb_not_remote | apply remoteDeb_not_pubDir].
Qed.

Lemma emits_build type : emits cfg w (fun ev => build_event cfg ev = true) (build cfg type).
Proof.
unfold build. destruct (Str.startsWith type "win"); unfold_program;
  emits_walk ltac:(lazy beta;
                   first [ reflexivity
                         | apply build_event_pullDeb
                         | apply build_event_pushDeb ]).
Qed.

End BuildEvents.

(** * The progress of a run of [start] *)

Section StartProgress.
Variable cfg : Config.
Variable w : World.

Lemma tfold_buildOne type p :
  pulled p = true → failed p = [] →
  tfold cfg w (progress_step cfg) p (buildOne cfg type)
    (fun r p' =>
       (r = Ok Normal
        ∧ p' = {| pulled := true; entered := entered p ++ [type];
                  built := built p ++ [type]; failed := [];
                  pushes := pushes p; orderly := orderly p |})
       ∨ (r = Ok Return
          ∧ p' = {| pulled := true; entered := entered p ++ [type];
                    built := built p; failed := [type];
                    pushes := pushes p; orderly := orderly p |})).
Proof.
intros Hp Hf. unfold buildOne.
set (p_ok := {| pulled := true; entered := entered p ++ [type];
                built := built p ++ [type]; failed := [];
                pushes := pushes p; orderly := orderly p |}).
set (p_ko := {| pulled := true; entered := entered p ++ [type];
                built := built p; failed := [type];
                pushes := pushes p; orderly := orderly p |}).
apply (tfold_try_catch _ _ _ _ _ _
         (fun r p' => match r with
                      | Ok c => c = Normal ∧ p' = p_ok
                      | Rejected _ => p' = p_ko
                      end)).
- apply tfold_info_bind.
  change (progress_step cfg p (EvLog Info _)) with p.
  apply (tfold_bind _ _ _ _ _ _ (fun r p' => p' = if is_ok r then p_ok else p_ko)).
  + apply (tfold_frame _ _ _ _ _ _
             (fun _ p' => p' = progress_step cfg p (EvEnter (FBuild type)))).
    * apply tfold_quiet; [|done].
      eapply emits_weaken; [|apply emits_build].
      intros ev Hev st. by apply build_event_quiet.
    * intros r st1 ->. subst p_ok p_ko.
      destruct p as [pl en bu fa pu ord]. simpl in Hp, Hf. subst.
      destruct r; cbn; by rewrite andb_true_r.
  + intros [] st1 ->. by apply tfold_ret.
  + by intros e st1 ->.
- intros a st1 [-> ->]. by left.
- intros e st1 ->. apply tfold_log_bind.
  change (progress_step cfg p_ko (EvLog Err _)) with p_ko.
  apply tfold_ret. by right.
Qed.

Lemma tfold_builds types p :
  pulled p = true → failed p = [] →
  tfold cfg w (progress_step cfg) p (for_of_c types (buildOne cfg))
    (fun r p' =>
       (r = Ok Normal
        ∧ p' = {| pulled := true; entered := entered p ++ types;
                  built := built p ++ types; failed := [];
                  pushes := pushes p; orderly := orderly p |})
       ∨ (∃ done t rest,
            types = done ++ t :: rest
            ∧ r = Ok Return
            ∧ p' = {| pulled := true; entered := entered p ++ done ++ [t];
                      built := built p ++ done; failed := [t];
                      pushes := pushes p; orderly := orderly p |})).
Proof.
revert p. induction types as [|t ts IH]; intros p Hp Hf; simpl.
- apply tfold_ret. left. split; [done|].
  destruct p; simpl in *; subst. by rewrite !app_nil_r.
- eapply tfold_bind; [by apply tfold_buildOne | |].
  + intros c p1 [[[= ->] ->] | [[= ->] ->]].
    * eapply tfold_conseq; [by apply IH|]. cbn [entered built pushes orderly].
      intros r p' [[-> ->] | (d & t' & rest & -> & -> & ->)].
      -- left. split; [done|]. by rewrite <- !app_assoc.
      -- right. exists (t :: d), t', rest. split; [done|]. split; [done|].
         by rewrite <- !app_assoc.
    * apply tfold_ret. right. exists [], t, ts. split; [done|]. split; [done|].
      by rewrite app_nil_r.
  + by intros e p1 [[[=] _] | [[=] _]].
Qed.

End StartProgress.

Section FoldMore.
Variable cfg : Config.
Variable w : World.
Context {St : Type}.
Variable step : St → Event → St.

Lemma tfold_SetBuilding_bind {B} st b (f : unit → Task B) (Q : Result B → St → Prop) :
  tfold cfg w step (step st (EvSetBuilding b)) (f tt) Q →
  tfold cfg w step st (bind (SetBuilding b (Ret tt)) f) Q.
Proof. intros H. exact (tfold_SetBuilding cfg w step st b (f tt) Q H). Qed.

Lemma tfold_SetKey_bind {B} st v (f : unit → Task B) (Q : Result B → St → Prop) :
  tfold cfg w step (step st (EvSetKey v)) (f tt) Q →
  tfold cfg w step st (bind (SetKey v (Ret tt)) f) Q.
Proof. intros H. exact (tfold_SetKey cfg w step st v (f tt) Q H). Qed.

Lemma tfold_GetBuilding_bind {B} st (f : bool → Task B) (Q : Result B → St → Prop) :
  (∀ b, tfold cfg w step st (f b) Q) →
  tfold cfg w step st (bind (GetBuilding Ret) f) Q.
Proof. intros H. exact (tfold_GetBuilding cfg w step st f Q H). Qed.

End FoldMore.

Section StartOutcome.
Variable cfg : Config.
Variable w : World.

Lemma is_pull_call_pull : is_pull_call cfg (pull_call (pubDir cfg) (rsyncRoot cfg)) = true.
Proof.
unfold is_pull_call, pull_call.
change (String.eqb "rsync" "rsync") with true.
by rewrite !bool_decide_true.
Qed.

Lemma step_pull r :
  progress_step cfg progress0 (EvCall (pull_call (pubDir cfg) (rsyncRoot cfg)) r)
  = if spawn_exit (pull_call (pubDir cfg) (rsyncRoot cfg)) r
    then {| pulled := true; entered := []; built := []; failed := []; pushes := 0;
            orderly := true |}
    else pull_failed cfg.
Proof.
unfold progress_step, is_pull. rewrite is_pull_call_pull. cbn [andb].
destruct (spawn_exit _ r); [done|].
unfold is_remote_write, pull_failed.
by destruct (writes_remote_pub cfg _).
Qed.

Lemma push_writes_remote r :
  is_remote_write cfg (EvCall (push_call (pubDir cfg) (rsyncRoot cfg)) r) = true.
Proof.
unfold is_remote_write, writes_remote_pub, rsync_into, rsync_dest, push_call.
change (String.eqb "rsync" "rsync") with true. cbv iota.
change (last (strs _)) with (Some (Some (rsyncRoot cfg +:+ "packages.riot.im"))).
apply String.eqb_refl.
Qed.

Lemma push_not_pull r :
  is_pull cfg (EvCall (push_call (pubDir cfg) (rsyncRoot cfg)) r) = false.
Proof.
unfold is_pull, is_pull_call, push_call.
rewrite (bool_decide_false (strs _ = strs _)); [by rewrite andb_false_r|].
intros H. apply (f_equal length) in H. discriminate H.
Qed.

Lemma step_push p r :
  built p = TYPES → failed p = [] →
  progress_step cfg p (EvCall (push_call (pubDir cfg) (rsyncRoot cfg)) r)
  = {| pulled := pulled p; entered := entered p; built := built p; failed := failed p;
       pushes := S (pushes p); orderly := orderly p |}.
Proof.
intros Hb Hf. unfold progress_step.
rewrite push_not_pull, push_writes_remote.
unfold may_push. rewrite Hb, Hf, !bool_decide_true by done.
by rewrite andb_true_r.
Qed.

Lemma tfold_pullArtifacts :
  tfold cfg w (progress_step cfg) progress0 (pullArtifacts (pubDir cfg) (rsyncRoot cfg))
    (fun r p' =>
       (r = Ok tt
        ∧ p' = {| pulled := true; entered := []; built := []; failed := []; pushes := 0;
                  orderly := true |})
       ∨ ((∃ e, r = Rejected e) ∧ p' = pull_failed cfg)).
Proof.
unfold pullArtifacts. apply tfold_info_bind.
change (progress_step cfg progress0 (EvLog Info _)) with progress0.
unfold spawn.
apply (tfold_bind _ _ _ _ _ _
         (fun r p' =>
            p' = progress_step cfg progress0
                   (EvCall (pull_call (pubDir cfg) (rsyncRoot cfg)) r))).
- apply (tfold_await _ _ _ _ (pull_call (pubDir cfg) (rsyncRoot cfg))). done.
- intros code p1 ->. rewrite step_pull.
  destruct code as [[|n]|]; cbn [spawn_exit pull_call].
  + apply tfold_ret. by left.
  + apply tfold_throw. right. eauto.
  + apply tfold_ret. by left.
- intros e p1 ->. rewrite step_pull. right. eauto.
Qed.

Lemma tfold_pushArtifacts p :
  built p = TYPES → failed p = [] →
  tfold cfg w (progress_step cfg) p (pushArtifacts (pubDir cfg) (rsyncRoot cfg))
    (fun _ p' =>
       p' = {| pulled := pulled p; entered := entered p; built := built p;
               failed := failed p; pushes := S (pushes p); orderly := orderly p |}).
Proof.
intros Hb Hf. unfold pushArtifacts. apply tfold_info_bind.
change (progress_step cfg p (EvLog Info _)) with p.
unfold spawn.
apply (tfold_bind _ _ _ _ _ _
         (fun r p' =>
            p' = progress_step cfg p
                   (EvCall (push_call (pubDir cfg) (rsyncRoot cfg)) r))).
- apply (tfold_await _ _ _ _ (push_call (pubDir cfg) (rsyncRoot cfg))). done.
- intros code p1 ->. rewrite step_push by done.
  destruct code as [[|n]|]; [by apply tfold_ret | by apply tfold_throw | by apply tfold_ret].
- intros e p1 ->. by rewrite step_push.
Qed.

Lemma tfold_startGuarded :
  tfold cfg w (progress_step cfg) progress0 (startGuarded cfg TYPES)
    (fun _ p' => start_outcome cfg p').
Proof.
unfold startGuarded. apply tfold_SetBuilding_bind.
change (progress_step cfg progress0 (EvSetBuilding true)) with progress0.
eapply tfold_bind; [apply tfold_pullArtifacts | |].
- intros [] p1 [[_ ->] | [[e [=]] _]].
  eapply tfold_bind; [by apply tfold_builds | |].
  + cbn [entered built pushes orderly app].
    intros c p2 [[[= ->] ->] | (d & t & rest & E & [= ->] & ->)].
    * apply tfold_info_bind.
      match goal with
      | |- tfold _ _ _ (progress_step cfg ?p (EvLog Info _)) _ _ =>
          change (progress_step cfg p (EvLog Info _)) with p
      end.
      eapply tfold_bind; [by apply tfold_pushArtifacts | |].
      -- intros [] p3 ->. apply tfold_info_bind. apply tfold_ret.
         right. right. right. done.
      -- intros e p3 ->. right. right. right. done.
    * apply tfold_ret. right. right. left. by exists d, t, rest.
  + intros e p2 [[[=] _] | (d & t & rest & _ & [=] & _)].
- intros e p1 [[[=] _] | [_ ->]]. right. by left.
Qed.

Lemma tfold_start :
  tfold cfg w (progress_step cfg) progress0 (start cfg)
    (fun _ p' => start_outcome cfg p').
Proof.
unfold start. apply tfold_info_bind.
change (progress_step cfg progress0 (EvLog Info _)) with progress0.
apply tfold_SetBuilding_bind.
change (progress_step cfg progress0 (EvSetBuilding false)) with progress0.
apply (tfold_bind _ _ _ _ _ _ (fun _ p' => p' = progress0)).
- apply (tfold_await _ _ _ _ (GetSecret "riot_key_container")). done.
- intros key p1 ->. apply tfold_SetKey_bind.
  change (progress_step cfg progress0 (EvSetKey key)) with progress0.
  apply tfold_GetBuilding_bind. intros [|].
  + apply tfold_ret. by left.
  + cbv zeta. change (length TYPES =? 0) with false. cbv iota.
    eapply tfold_bind.
    * eapply tfold_finally; [apply tfold_startGuarded|].
      intros r p2 Hp2. apply tfold_SetBuilding. apply tfold_ret.
      exact Hp2.
    * intros c p2 Hp2. apply tfold_ret. exact Hp2.
    * intros e p2 Hp2. exact Hp2.
- intros e p1 ->. by left.
Qed.

End StartOutcome.

(** * All platforms or none *)

Section Publish.
Variable cfg : Config.
Variable w : World.

Lemma orderly_step p ev :
  orderly (progress_step cfg p ev) = true → orderly p = true.
Proof.
destruct ev as [c r| | | |[t]|[t] [|]]; try done.
- unfold progress_step. destruct (is_pull cfg _); [done|].
  destruct (is_remote_write cfg _); [|done].
  cbn [orderly]. by intros [? _]%andb_prop.
- cbn. by intros [? _]%andb_prop.
Qed.

Lemma orderly_fold evs p :
  orderly (fold_left (progress_step cfg) evs p) = true → orderly p = true.
Proof.
revert p. induction evs as [|ev evs IH]; intros p H; simpl in H; [done|].
eapply orderly_step, IH, H.
Qed.

Lemma orderly_at pre ev post :
  orderly (progress_of cfg (pre ++ ev :: post)) = true →
  orderly (progress_step cfg (progress_of cfg pre) ev) = true.
Proof.
unfold progress_of. rewrite fold_left_app. simpl. apply orderly_fold.
Qed.

Lemma pushes_step p ev : pushes p ≤ pushes (progress_step cfg p ev).
Proof.
destruct ev as [c r| | | |[t]|[t] [|]]; try done.
unfold progress_step. destruct (is_pull cfg _); [done|].
destruct (is_remote_write cfg _); [|done]. cbn. lia.
Qed.

Lemma pushes_fold evs p : pushes p ≤ pushes (fold_left (progress_step cfg) evs p).
Proof.
revert p. induction evs as [|ev evs IH]; intros p; simpl; [done|].
etransitivity; [apply pushes_step | apply IH].
Qed.

Hypothesis mirror_elsewhere : rsyncRoot cfg ≠ cwd cfg +:+ "/".

Lemma pull_not_write ev : is_pull cfg ev = true → is_remote_write cfg ev = false.
Proof.
destruct ev as [c r| | | | |]; try done. unfold is_pull, is_remote_write.
intros [Hc _]%andb_prop. apply is_pull_call_into in Hc.
unfold writes_remote_pub, rsync_into in *.
destruct (rsync_dest c) as [d|]; [|done].
apply String.eqb_eq in Hc as ->. apply String.eqb_neq.
by apply pubDir_not_remote.
Qed.

Lemma pull_failed_nothing : pull_failed cfg = progress0.
Proof.
unfold pull_failed.
assert (writes_remote_pub cfg (pull_call (pubDir cfg) (rsyncRoot cfg)) = false) as ->; [|done].
apply (pull_not_write (EvCall (pull_call (pubDir cfg) (rsyncRoot cfg)) (Ok None))).
unfold is_pull. by rewrite is_pull_call_pull.
Qed.

Lemma write_counts p ev :
  is_remote_write cfg ev = true →
  progress_step cfg p ev
  = {| pulled := pulled p; entered := entered p; built := built p; failed := failed p;
       pushes := S (pushes p); orderly := orderly p && may_push p |}.
Proof.
intros H. destruct ev as [c r| | | | |]; try done.
unfold progress_step. rewrite H.
destruct (is_pull cfg (EvCall c r)) eqn:E; [|done].
apply pull_not_write in E. congruence.
Qed.

Lemma no_write evs p :
  pushes (fold_left (progress_step cfg) evs p) = pushes p →
  Forall (fun ev => is_remote_write cfg ev = false) evs.
Proof.
revert p. induction evs as [|ev evs IH]; intros p H; simpl in H; [done|].
pose proof (pushes_step p ev) as H1.
pose proof (pushes_fold evs (progress_step cfg p ev)) as H2.
constructor.
- destruct (is_remote_write cfg ev) eqn:E; [|done].
  rewrite (write_counts p ev E) in H, H2. cbn [pushes] in H2. lia.
- apply (IH (progress_step cfg p ev)). lia.
Qed.

(** C2.  In every run of [start] of a builder whose mirror root is not its
    working directory: when the build of a platform fails, no rsync towards
    the published tree on the mirror runs ([pushArtifacts] is not invoked), the
    platforms after the failed one are not built, and the published tree on
    the mirror after the run is the one before the run; an rsync towards the
    published tree ([pushArtifacts] is one) runs only once every configured
    platform has built and none has failed; and every platform build is
    entered after the pull has succeeded, while no build has failed. *)
Theorem start_publishes_all_or_nothing s :
  let out := run cfg w (start cfg) s in
  let evs := emitted s out.2 in
  let p := progress_of cfg evs in
  (failed p ≠ [] →
     pushes p = 0
     ∧ Forall (fun ev => is_remote_write cfg ev = false) evs
     ∧ remotePub out.2 = remotePub s
     ∧ ∃ done t rest,
         TYPES = done ++ t :: rest
         ∧ entered p = done ++ [t] ∧ built p = done ∧ failed p = [t])
  ∧ (∀ pre ev post,
       evs = pre ++ ev :: post → is_remote_write cfg ev = true →
       built (progress_of cfg pre) = TYPES ∧ failed (progress_of cfg pre) = [])
  ∧ (∀ pre t post,
       evs = pre ++ EvEnter (FBuild t) :: post →
       pulled (progress_of cfg pre) = true ∧ failed (progress_of cfg pre) = [])
  ∧ (∀ r, is_remote_write cfg (EvCall (push_call (pubDir cfg) (rsyncRoot cfg)) r) = true)
  ∧ (∀ r, is_pull cfg (EvCall (pull_call (pubDir cfg) (rsyncRoot cfg)) r)
          = spawn_exit (pull_call (pubDir cfg) (rsyncRoot cfg)) r).
Proof.
intros out evs p.
destruct (tfold_start cfg w s) as (evs' & Hs & Hout).
fold out in Hs.
assert (evs = evs') as <-. { subst evs. by rewrite Hs, emitted_replay. }
fold (progress_of cfg evs) in Hout. fold p in Hout.
assert (orderly p = true) as Hord.
{ destruct Hout as [->|[->|[(d & t & rest & _ & ->)| ->]]]; try done.
  by rewrite pull_failed_nothing. }
split; [|split; [|split; [|split]]].
- intros Hfail.
  destruct Hout as [E|[E|[(d & t & rest & HT & E)| E]]];
    try (rewrite pull_failed_nothing in E); rewrite E in Hfail; try done.
  assert (Forall (fun ev => is_remote_write cfg ev = false) evs) as Hnw.
  { apply (no_write evs progress0). fold (progress_of cfg evs). fold p. by rewrite E. }
  rewrite E. cbn [pushes entered built failed].
  split; [done|]. split; [done|]. split.
  + rewrite Hs. by apply remote_replay.
  + by exists d, t, rest.
- intros pre ev post E Hw. subst p. rewrite E in Hord.
  apply orderly_at in Hord. rewrite write_counts in Hord by done.
  cbn [orderly] in Hord. apply andb_prop in Hord as [_ Hm].
  unfold may_push in Hm. apply andb_prop in Hm as [H1 H2].
  by apply bool_decide_eq_true in H1, H2.
- intros pre t post E. subst p. rewrite E in Hord.
  apply orderly_at in Hord. cbn in Hord.
  apply andb_prop in Hord as [_ Hm].
  unfold may_enter in Hm. apply andb_prop in Hm as [H1 H2].
  by apply bool_decide_eq_true in H2.
- apply push_writes_remote.
- intros r. unfold is_pull. by rewrite is_pull_call_pull.
Qed.

End Publish.

Section Platforms.
Variable cfg : Config.
Variable w : World.

(** C3, as amended.  The configured platform set is the fixed ordered list
    win64, mac, linux.  Every run of [start] enters the build of a prefix of
    it, in that order, each platform once, and of all three when the pull has
    succeeded and no build fails. *)
Theorem start_builds_prefix_of_TYPES s :
  let p := progress_of cfg (emitted s (run cfg w (start cfg) s).2) in
  TYPES = ["win64"; "mac"; "linux"]
  ∧ (∃ rest, TYPES = entered p ++ rest)
  ∧ (pulled p = true → failed p = [] → entered p = TYPES ∧ built p = TYPES).
Proof.
intros p.
destruct (tfold_start cfg w s) as (evs' & Hs & Hout).
assert (p = fold_left (progress_step cfg) evs' progress0) as Hp.
{ subst p. by rewrite Hs, emitted_replay. }
rewrite <- Hp in Hout. clear Hp Hs.
split; [done|].
assert (pulled (pull_failed cfg) = false ∧ entered (pull_failed cfg) = []) as [Hpf1 Hpf2].
{ unfold pull_failed. by destruct (writes_remote_pub cfg _). }
destruct Hout as [->|[->|[(d & t & rest & HT & ->)| ->]]].
- split; [by exists TYPES | done].
- split; [rewrite Hpf2; by exists TYPES | by rewrite Hpf1].
- split; [|done]. exists rest. cbn [entered]. by rewrite <- app_assoc.
- split; [exists []; by rewrite app_nil_r | done].
Qed.

End Platforms.

(** The sample run with the packaging of the linux build failing: win64 and
    mac are built, nothing is pushed and the mirror keeps its tree. *)
Lemma start_publishes_all_or_nothing_witness :
  let out :=
    run Sample.conf (Sample.failing Sample.is_linux_packaging) (start Sample.conf)
      Sample.init in
  let p := progress_of Sample.conf (emitted Sample.init out.2) in
  pushes p = 0
  ∧ remotePub out.2 = remotePub Sample.init
  ∧ built p = ["win64"; "mac"] ∧ failed p = ["linux"].
Proof.
assert (rsyncRoot Sample.conf ≠ cwd Sample.conf +:+ "/") as Hne by discriminate.
destruct (proj1 (start_publishes_all_or_nothing Sample.conf
                   (Sample.failing Sample.is_linux_packaging) Hne Sample.init))
  as (H1 & _ & H3 & _).
- vm_compute. discriminate.
- split; [exact H1|]. split; [exact H3|]. vm_compute. split; reflexivity.
Defined.

(** The sample run: the pull succeeds, no build fails, the three platforms
    are built. *)
Lemma start_builds_prefix_of_TYPES_witness :
  entered (progress_of Sample.conf
             (emitted Sample.init
                (run Sample.conf Sample.happy (start Sample.conf) Sample.init).2))
  = ["win64"; "mac"; "linux"].
Proof.
destruct (start_builds_prefix_of_TYPES Sample.conf Sample.happy Sample.init)
  as (_ & _ & H).
destruct H as [H _]; [vm_compute; reflexivity | vm_compute; reflexivity | exact H].
Defined.

(** The claim on the platform set fails as stated: the sample run, in which
    every build succeeds,
    enters the builds of win64, mac and linux, and not of win32. *)
Lemma start_does_not_build_win32 :
  entered (progress_of Sample.conf
             (emitted Sample.init
                (run Sample.conf Sample.happy (start Sample.conf) Sample.init).2))
  ≠ ["win64"; "win32"; "mac"; "linux"].
Proof. vm_compute. discriminate. Qed.


(** * More on the logic of runs *)

Section LogicMore.
Variable cfg : Config.
Variable w : World.

Lemma emits_emitted (P : Event → Prop) {A} (t : Task A) s :
  emits cfg w P t → Forall P (emitted s (run cfg w t s).2).
Proof.
intros H. destruct (H s) as (evs & -> & F). by rewrite emitted_replay.
Qed.

(** Whatever the task, it leaves some ghost state. *)
Lemma tfold_any {St} (step : St → Event → St) {A} st (t : Task A) :
  tfold cfg w step st t (fun _ _ => True).
Proof. intros s. destruct (run_replay cfg w t s) as [evs H]. by exists evs. Qed.

Lemma tfold_emitted {St} (step : St → Event → St) {A} st (t : Task A) Q s :
  tfold cfg w step st t Q →
  Q (run cfg w t s).1 (fold_left step (emitted s (run cfg w t s).2) st).
Proof.
intros H. destruct (H s) as (evs & Hs & HQ). by rewrite Hs, emitted_replay.
Qed.

End LogicMore.

(** * What [start] leaves behind *)

Section StartEnds.
Variable cfg : Config.
Variable w : World.

Lemma tfold_start_building b :
  tfold cfg w (fun b ev => match ev with EvSetBuilding b' => b' | _ => b end) b
    (start cfg) (fun _ b' => b' = false).
Proof.
unfold start. apply tfold_info_bind. apply tfold_SetBuilding_bind.
cbv beta iota.
apply (tfold_bind _ _ _ _ _ _ (fun _ b' => b' = false)).
- apply (tfold_await _ _ _ _ (GetSecret "riot_key_container")). done.
- intros key b1 ->. apply tfold_SetKey_bind. apply tfold_GetBuilding_bind.
  intros [|]; [by apply tfold_ret|].
  cbv zeta. change (length TYPES =? 0) with false. cbv iota.
  apply (tfold_bind _ _ _ _ _ _ (fun _ b' => b' = false)).
  + eapply tfold_finally; [apply tfold_any|].
    intros r b2 _. apply tfold_SetBuilding. by apply tfold_ret.
  + intros c b2 ->. by apply tfold_ret.
  + by intros e b2 ->.
- by intros e b1 ->.
Qed.

(** Whatever the world answers and however the run ends, by a return or by a
    rejection, [start] leaves [this.building] false. *)
Theorem start_leaves_building_false s :
  building (run cfg w (start cfg) s).2 = false.
Proof.
rewrite (run_emitted cfg w (start cfg) s) at 1.
rewrite building_replay. unfold building_after.
exact (tfold_emitted cfg w _ _ _ _ s (tfold_start_building (building s))).
Qed.

End StartEnds.


(** * What [start] does with a failed build *)

Section StartResult.
Variable cfg : Config.
Variable w : World.

Lemma tfold_startGuarded_result :
  tfold cfg w (progress_step cfg) progress0 (startGuarded cfg TYPES)
    (fun r p' =>
       (p' = pull_failed cfg ∧ ∃ e, r = Rejected e)
       ∨ (r = Ok Return
          ∧ ∃ done t rest,
              TYPES = done ++ t :: rest
              ∧ p' = {| pulled := true; entered := done ++ [t]; built := done;
                        failed := [t]; pushes := 0; orderly := true |})
       ∨ p' = {| pulled := true; entered := TYPES; built := TYPES; failed := [];
                 pushes := 1; orderly := true |}).
Proof.
unfold startGuarded. apply tfold_SetBuilding_bind.
change (progress_step cfg progress0 (EvSetBuilding true)) with progress0.
eapply tfold_bind; [apply tfold_pullArtifacts | |].
- intros [] p1 [[_ ->] | [[e [=]] _]].
  eapply tfold_bind; [by apply tfold_builds | |].
  + cbn [entered built pushes orderly app].
    intros c p2 [[[= ->] ->] | (d & t & rest & E & [= ->] & ->)].
    * apply tfold_info_bind.
      match goal with
      | |- tfold _ _ _ (progress_step cfg ?p (EvLog Info _)) _ _ =>
          change (progress_step cfg p (EvLog Info _)) with p
      end.
      eapply tfold_bind; [by apply tfold_pushArtifacts | |].
      -- intros [] p3 ->. apply tfold_info_bind. apply tfold_ret.
         right. right. done.
      -- intros e p3 ->. right. right. done.
    * apply tfold_ret. right. left. split; [done|]. by exists d, t, rest.
  + intros e p2 [[[=] _] | (d & t & rest & _ & [=] & _)].
- intros e p1 [[[=] _] | [_ ->]]. left. eauto.
Qed.

Lemma tfold_start_result :
  tfold cfg w (progress_step cfg) progress0 (start cfg)
    (fun r p' =>
       p' = progress0
       ∨ (p' = pull_failed cfg ∧ ∃ e, r = Rejected e)
       ∨ (r = Ok tt
          ∧ ∃ done t rest,
              TYPES = done ++ t :: rest
              ∧ p' = {| pulled := true; entered := done ++ [t]; built := done;
                        failed := [t]; pushes := 0; orderly := true |})
       ∨ p' = {| pulled := true; entered := TYPES; built := TYPES; failed := [];
                 pushes := 1; orderly := true |}).
Proof.
unfold start. apply tfold_info_bind.
change (progress_step cfg progress0 (EvLog Info _)) with progress0.
apply tfold_SetBuilding_bind.
change (progress_step cfg progress0 (EvSetBuilding false)) with progress0.
apply (tfold_bind _ _ _ _ _ _ (fun _ p' => p' = progress0)).
- apply (tfold_await _ _ _ _ (GetSecret "riot_key_container")). done.
- intros key p1 ->. apply tfold_SetKey_bind.
  change (progress_step cfg progress0 (EvSetKey key)) with progress0.
  apply tfold_GetBuilding_bind. intros [|].
  + apply tfold_ret. by left.
  + cbv zeta. change (length TYPES =? 0) with false. cbv iota.
    eapply tfold_bind.
    * eapply tfold_finally; [apply tfold_startGuarded_result|].
      intros r p2 Hp2. apply tfold_SetBuilding. apply tfold_ret.
      exact Hp2.
    * intros c p2 [[_ [e [=]]] | [[_ H] | ->]]; apply tfold_ret.
      -- right. right. left. done.
      -- right. right. right. done.
    * intros e p2 [[-> _] | [[[=] _] | ->]].
      -- right. left. eauto.
      -- right. right. right. done.
- intros e p1 ->. by left.
Qed.

(** A failed platform build does not make [start] fail: the error is logged
    and [start] returns normally.  [start] rejects only with no build entered
    (the rejection of [getSecret] or of [pullArtifacts]) or with every
    platform built (the rejection of [pushArtifacts]). *)
Theorem start_swallows_build_failure s :
  let out := run cfg w (start cfg) s in
  let p := progress_of cfg (emitted s out.2) in
  (failed p ≠ [] → out.1 = Ok tt)
  ∧ ((∃ e, out.1 = Rejected e) →
     failed p = [] ∧ (entered p = [] ∨ (entered p = TYPES ∧ built p = TYPES))).
Proof.
intros out p.
pose proof (tfold_emitted cfg w _ _ _ _ s tfold_start_result) as H.
fold out in H. fold (progress_of cfg (emitted s out.2)) in H. fold p in H.
assert (failed (pull_failed cfg) = [] ∧ entered (pull_failed cfg) = []) as [Hf He].
{ unfold pull_failed. by destruct (writes_remote_pub cfg _). }
destruct H as [-> | [[-> _] | [[Hr (d & t & rest & _ & ->)] | ->]]].
- split; [done|]. intros _. split; [done | by left].
- split; [by rewrite Hf|]. intros _. split; [done | by left].
- split; [done|]. rewrite Hr. intros [e [=]].
- split; [done|]. intros _. split; [done | by right].
Qed.

End StartResult.

(** The sample run with the packaging of the linux build failing returns
    normally. *)
Lemma start_swallows_build_failure_witness :
  (run Sample.conf (Sample.failing Sample.is_linux_packaging) (start Sample.conf)
     Sample.init).1 = Ok tt.
Proof.
refine (proj1 (start_swallows_build_failure Sample.conf
                 (Sample.failing Sample.is_linux_packaging) Sample.init) _).
vm_compute. discriminate.
Defined.


(** * More on the helper functions *)

Section HelpersMore.
Variable cfg : Config.
Variable w : World.

Lemma run_parse text s : run cfg w (parse text) s = (JSON_parse w text, s).
Proof. unfold parse. cbn [run]. apply run_of_result. Qed.

(** [getMatchingFilesInDir] never resolves to an empty list: what it resolves
    to is a non-empty list of names of the listing that match the pattern; and
    it rejects with the error of [readdir] when that rejects. *)
Theorem getMatchingFilesInDir_never_empty s dir exp :
  let r := (run cfg w (getMatchingFilesInDir dir exp) s).1 in
  r ≠ Ok []
  ∧ (∀ fs, r = Ok fs →
       ∃ listing,
         respond w (trace s) (Readdir dir) = Ok listing
         ∧ Forall (fun f => In f listing ∧ re_test exp f = true) fs)
  ∧ (∀ e, respond w (trace s) (Readdir dir) = Rejected e → r = Rejected e).
Proof.
intros r. subst r.
destruct (respond w (trace s) (Readdir dir)) as [listing|e] eqn:E.
- rewrite (run_getMatchingFilesInDir cfg w dir exp listing s E). cbn [fst].
  destruct (List.filter (re_test exp) listing) as [|f fs] eqn:F.
  + split; [done|]. split; [by intros fs' [=] | by intros e [=]].
  + split; [done|]. split; [|by intros e [=]].
    intros fs' [= <-]. exists listing. split; [done|].
    rewrite <- F. apply Forall_forall. intros x Hx.
    apply list_elem_of_In, filter_In in Hx. done.
- unfold getMatchingFilesInDir. rewrite run_bind, run_await, E. cbn [fst].
  split; [done|]. split; [by intros fs [=] | by intros e' [= ->]].
Qed.

(** When package.json is not valid JSON, or is [null], or has no build
    section (absent or [null]), [writeElectronBuilderConfigFile] rejects and
    has written nothing: reading package.json is all it did. *)
Theorem writeElectronBuilderConfigFile_needs_build s type repoDir ver text :
  respond w (trace s) (ReadFile (Path.join [repoDir; "package.json"])) = Ok text →
  ((∃ e, JSON_parse w text = Rejected e)
   ∨ ∃ pkg, JSON_parse w text = Ok pkg
            ∧ (pkg = JNull ∨ get_prop pkg "build" = Ok JUndef
               ∨ get_prop pkg "build" = Ok JNull)) →
  let out := run cfg w (writeElectronBuilderConfigFile type repoDir ver) s in
  (∃ e, out.1 = Rejected e)
  ∧ emitted s out.2 = [EvCall (ReadFile (Path.join [repoDir; "package.json"])) (Ok text)].
Proof.
intros Hread Hbad out. subst out. unfold writeElectronBuilderConfigFile.
rewrite run_bind, run_await, Hread.
rewrite run_bind, run_parse.
destruct Hbad as [[e He] | (pkg & Hp & Hb)].
- rewrite He. cbv beta iota. split; [eauto|].
  exact (emitted_replay cfg w
           [EvCall (ReadFile (Path.join [repoDir; "package.json"])) (Ok text)] s).
- rewrite Hp. cbv beta iota.
  assert (∃ e, electronBuilderConfig type pkg = Rejected e) as [e He].
  { unfold electronBuilderConfig.
    destruct Hb as [-> | [-> | ->]]; cbn; eauto. }
  rewrite run_bind, He, run_of_result. cbv beta iota. split; [eauto|].
  exact (emitted_replay cfg w
           [EvCall (ReadFile (Path.join [repoDir; "package.json"])) (Ok text)] s).
Qed.

(** The four mirror transfers log one line and run one rsync each; they
    resolve when that rsync ended with exit code 0 and also when it was ended
    by a signal (exit code [null]); with any other exit code they reject with
    that code. *)
Theorem transfers_follow_exit_code s (local remote : string) :
  Forall
    (fun '(t, args) =>
       ∃ line (code : Result (option nat)),
         emitted s (run cfg w t s).2
         = [EvLog Info line; EvCall (Spawn "rsync" (strs args) None) code]
         ∧ (run cfg w t s).1
           = match code with
             | Ok (Some (S n)) => Rejected (ExitCode (S n))
             | Ok _ => Ok tt
             | Rejected e => Rejected e
             end)
    [(pullArtifacts local remote,
      ["-av"; "--delete"; remote +:+ "packages.riot.im/"; local]);
     (pushArtifacts local remote,
      ["-av"; "--delete"; "--delay-updates"; local +:+ "/"; remote +:+ "packages.riot.im"]);
     (pullDebDatabase local remote,
      ["-av"; "--delete"; remote +:+ "debian/"; local]);
     (pushDebDatabase local remote,
      ["-av"; "--delete"; local +:+ "/"; remote +:+ "debian"])].
Proof.
assert (∀ line args,
  ∃ code : Result (option nat),
    emitted s (run cfg w (log Info line ;; spawn "rsync" args None) s).2
    = [EvLog Info line; EvCall (Spawn "rsync" args None) code]
    ∧ (run cfg w (log Info line ;; spawn "rsync" args None) s).1
      = match code with
        | Ok (Some (S n)) => Rejected (ExitCode (S n))
        | Ok _ => Ok tt
        | Rejected e => Rejected e
        end) as H.
{ intros line args.
  rewrite run_bind. cbn [run log]. unfold spawn. rewrite run_bind, run_await.
  set (s1 := emit (EvLog Info line) s).
  exists (respond w (trace s1) (Spawn "rsync" args None)).
  destruct (respond w (trace s1) (Spawn "rsync" args None)) as [[[|n]|]|e];
    (split; [|done]);
    match goal with
    | |- emitted s _ = [_; EvCall ?c ?r] =>
        exact (emitted_replay cfg w [EvLog Info line; EvCall c r] s)
    end. }
repeat apply List.Forall_cons; try apply List.Forall_nil; lazy beta iota.
- destruct (H [LS "Pulling artifacts..."]
              (strs ["-av"; "--delete"; remote +:+ "packages.riot.im/"; local]))
    as (code & H1 & H2).
  by exists [LS "Pulling artifacts..."], code.
- destruct (H [LS "Uploading artifacts..."]
              (strs ["-av"; "--delete"; "--delay-updates"; local +:+ "/";
                     remote +:+ "packages.riot.im"]))
    as (code & H1 & H2).
  by exists [LS "Uploading artifacts..."], code.
- destruct (H [LS "Pulling debian database..."; LS (remote +:+ "debian/"); LS local]
              (strs ["-av"; "--delete"; remote +:+ "debian/"; local]))
    as (code & H1 & H2).
  by exists [LS "Pulling debian database..."; LS (remote +:+ "debian/"); LS local], code.
- destruct (H [LS "Pushing debian database..."]
              (strs ["-av"; "--delete"; local +:+ "/"; remote +:+ "debian"]))
    as (code & H1 & H2).
  by exists [LS "Pushing debian database..."], code.
Qed.

End HelpersMore.

(** A package.json that holds [null]: nothing is written. *)
Lemma writeElectronBuilderConfigFile_needs_build_witness :
  let out :=
    run Sample.conf (Sample.manifest_world JNull)
      (writeElectronBuilderConfigFile "mac" "builds/element-desktop-mac-v1.6.0" (JStr "1.6.0"))
      Sample.init in
  (∃ e, out.1 = Rejected e)
  ∧ emitted Sample.init out.2
    = [EvCall (ReadFile "builds/element-desktop-mac-v1.6.0/package.json") (Ok "null")].
Proof.
apply (writeElectronBuilderConfigFile_needs_build Sample.conf (Sample.manifest_world JNull)
         Sample.init "mac" "builds/element-desktop-mac-v1.6.0" (JStr "1.6.0") "null").
- reflexivity.
- right. exists JNull. split; [reflexivity | by left].
Defined.

(** * The commands of a build *)

Section RunnerCommands.
Variable cfg : Config.
Variable w : World.

Lemma tfold_runner_run r args st :
  tfold cfg w runner_step st (runner_run (Some r) args)
    (fun res st' => st' = st ++ [(r, args, is_ok res)]).
Proof. unfold runner_run. apply (tfold_await _ _ _ _ (RunnerRun r args)). done. Qed.

Lemma tfold_buildWithRunner r ver type :
  tfold cfg w runner_step [] (buildWithRunner (Some r) ver type)
    (fun res st' =>
       match res with
       | Ok _ => st' = map (fun c => (r, c, true)) build_commands
       | Rejected _ =>
           ∃ pre c rest,
             build_commands = pre ++ c :: rest
             ∧ st' = map (fun c => (r, c, true)) pre ++ [(r, c, false)]
       end).
Proof.
unfold buildWithRunner.
eapply tfold_bind; [apply tfold_runner_run | |]; cycle 1.
{ intros e st1 ->. by exists [], ["yarn"; "install"], (tail build_commands). }
intros [] st1 ->.
eapply tfold_bind; [apply tfold_runner_run | |]; cycle 1.
{ intros e st1 ->. by exists (take 1 build_commands), ["yarn"; "run"; "hak"; "check"],
    (drop 2 build_commands). }
intros [] st1 ->.
eapply tfold_bind; [apply tfold_runner_run | |]; cycle 1.
{ intros e st1 ->. by exists (take 2 build_commands), ["yarn"; "run"; "build:native"],
    (drop 3 build_commands). }
intros [] st1 ->.
eapply tfold_bind; [apply tfold_runner_run | |]; cycle 1.
{ intros e st1 ->.
  by exists (take 3 build_commands), ["yarn"; "run"; "fetch"; "-d"; "element.io/release"],
    (drop 4 build_commands). }
intros [] st1 ->.
eapply tfold_conseq; [apply tfold_runner_run|].
intros [[]|e] st1 ->; [done|].
by exists (take 4 build_commands), ["yarn"; "build"; "--config"; ELECTRON_BUILDER_CFG_FILE], [].
Qed.

(** [buildWithRunner] hands its five commands to the one runner it was given,
    in order, and stops at the first that fails: when it resolves all five
    have run and succeeded; when it rejects, the commands run are a prefix of
    the five, all of them successful but the last.  Without a runner it
    rejects with a [TypeError] and has done nothing. *)
Theorem buildWithRunner_stops_at_first_failure s runner ver type :
  let out := run cfg w (buildWithRunner runner ver type) s in
  let log := runner_log (emitted s out.2) in
  match runner, out.1 with
  | Some r, Ok _ => log = map (fun c => (r, c, true)) build_commands
  | Some r, Rejected _ =>
      ∃ pre c rest,
        build_commands = pre ++ c :: rest
        ∧ log = map (fun c => (r, c, true)) pre ++ [(r, c, false)]
  | None, res =>
      (∃ msg, res = Rejected (TypeError msg)) ∧ emitted s out.2 = []
  end.
Proof.
intros out log. subst out log. destruct runner as [r|].
- exact (tfold_emitted cfg w _ _ _ _ s (tfold_buildWithRunner r ver type)).
- split; [by eexists | exact (emitted_replay cfg w [] s)].
Qed.

End RunnerCommands.

(** * Which pipeline builds which platform *)

Section Dispatch.
Variable cfg : Config.
Variable w : World.

Lemma bind_throw {A B} e (f : A → Task B) : bind (Throw e) f = Throw e.
Proof. reflexivity. Qed.

Lemma emits_buildLocal_other type :
  type ≠ "mac" → type ≠ "linux" →
  emits cfg w (fun ev => platform_call cfg type ev ∧ is_local_call ev = false)
    (buildLocal cfg type).
Proof.
intros Hm Hl. unfold buildLocal.
apply String.eqb_neq in Hm, Hl. rewrite Hm, Hl.
unfold buildWithRunner, runner_run. rewrite !bind_throw.
unfold_program.
emits_walk ltac:(lazy beta; first [ by split ]).
Qed.

Lemma emits_build_platform type :
  emits cfg w (platform_call cfg type) (build cfg type).
Proof.
unfold build.
destruct (Str.startsWith type "win") eqn:Ew.
- unfold_program.
  emits_walk ltac:(lazy beta;
                   first [ exact I | by left | by repeat split ]).
- destruct (String.eqb_spec type "mac") as [->|Hm];
    [|destruct (String.eqb_spec type "linux") as [->|Hl]].
  + unfold buildLocal.
    change (String.eqb "mac" "linux") with false.
    change (String.eqb "mac" "mac") with true.
    cbv beta iota zeta delta [buildWithRunner runner_run makeMacRunner].
    unfold_program.
    emits_walk ltac:(lazy beta; first [ exact I | by left | by right ]).
  + unfold buildLocal.
    change (String.eqb "linux" "linux") with true.
    change (String.eqb "linux" "mac") with false.
    cbv beta iota zeta delta [buildWithRunner runner_run makeLinuxRunner].
    unfold_program.
    emits_walk ltac:(lazy beta; first [ exact I | reflexivity | by left | by right ]).
  + eapply emits_weaken; [|by apply emits_buildLocal_other].
    by intros ev [H _].
Qed.

(** The pipelines stay apart: whatever the world answers, the build of a
    platform type calls only what [platform_call] grants that type. *)
Theorem build_calls_by_platform s type :
  Forall (platform_call cfg type) (emitted s (run cfg w (build cfg type) s).2).
Proof. apply emits_emitted, emits_build_platform. Qed.

Lemma rejects_bind {A B} (t : Task A) (f : A → Task B) :
  (∀ a s, ∃ e, (run cfg w (f a) s).1 = Rejected e) →
  ∀ s, ∃ e, (run cfg w (bind t f) s).1 = Rejected e.
Proof.
intros H s. rewrite run_bind.
destruct (run cfg w t s) as [[a|e] s1]; [apply H | by exists e].
Qed.

(** A type that is neither a Windows one nor mac nor linux is cloned and
    configured, and then its build always fails: there is no runner for it,
    so no command of the build runs, no process is spawned, and nothing is
    copied into the published tree. *)
Theorem build_unknown_type_fails s type :
  Str.startsWith type "win" = false → type ≠ "mac" → type ≠ "linux" →
  let out := run cfg w (build cfg type) s in
  (∃ e, out.1 = Rejected e)
  ∧ Forall (fun ev => platform_call cfg type ev ∧ is_local_call ev = false)
      (emitted s out.2).
Proof.
intros Hw Hm Hl out. subst out. unfold build. rewrite Hw. split.
- revert s. unfold buildLocal.
  pose proof Hm as Hm'. pose proof Hl as Hl'.
  apply String.eqb_neq in Hm', Hl'. rewrite Hm', Hl'.
  unfold buildWithRunner, runner_run. rewrite !bind_throw.
  cbv zeta.
  repeat first [rewrite bind_throw | apply rejects_bind; intros ?].
  intros s. by eexists.
- by apply emits_emitted, emits_buildLocal_other.
Qed.

End Dispatch.

(** A FreeBSD build in the sample world: cloned, configured, and rejected
    for want of a runner. *)
Lemma build_unknown_type_fails_witness :
  let out := run Sample.conf Sample.happy (build Sample.conf "freebsd") Sample.init in
  (∃ e, out.1 = Rejected e)
  ∧ Forall (fun ev => platform_call Sample.conf "freebsd" ev ∧ is_local_call ev = false)
      (emitted Sample.init out.2).
Proof.
apply (build_unknown_type_fails Sample.conf Sample.happy Sample.init "freebsd");
  [reflexivity | discriminate | discriminate].
Defined.

(** * Publication follows packaging *)

Section FoldInvariant.
Variable cfg : Config.
Variable w : World.
Context {St : Type}.
Variable step : St → Event → St.

(** A property of the ghost state that the events of a task preserve. *)
Lemma tfold_invariant (I : St → Prop) (P : Event → Prop) {A} st (t : Task A) :
  emits cfg w P t → (∀ st ev, P ev → I st → I (step st ev)) → I st →
  tfold cfg w step st t (fun _ st' => I st').
Proof.
intros Ht Hstep Hst s. destruct (Ht s) as (evs & H & F). exists evs. split; [done|].
clear H. revert st Hst. induction F as [|ev evs Hev _ IH]; intros st Hst; simpl; auto.
Qed.

Lemma tfold_bind_invariant (I : St → Prop) (P : Event → Prop) {A B} st
    (t : Task A) (f : A → Task B) (Q : Result B → St → Prop) :
  emits cfg w P t → (∀ st ev, P ev → I st → I (step st ev)) → I st →
  (∀ a st1, I st1 → tfold cfg w step st1 (f a) Q) →
  (∀ e st1, I st1 → Q (Rejected e) st1) →
  tfold cfg w step st (bind t f) Q.
Proof.
intros Ht Hstep Hst Hf He.
apply (tfold_bind cfg w step st t f (fun _ st' => I st')); [|done|done].
by apply (tfold_invariant I P).
Qed.

End FoldInvariant.

Section Publication.
Variable cfg : Config.
Variable w : World.
Hypothesis cwd_absolute : Str.startsWith (cwd cfg) "/" = true.

Lemma repo_file_unpublished type f data r :
  is_publication cfg (EvCall (WriteFile (Path.join [repoDirOf cfg type; f]) data) r) = false.
Proof.
unfold is_publication, appPubDir, pubDir.
pose proof cwd_absolute as H.
destruct (cwd cfg) as [|c rest]; [done|].
cbn [Str.startsWith] in H. apply andb_prop in H as [Hc _].
apply Ascii.eqb_eq in Hc. subst c. reflexivity.
Qed.

Lemma published_after_keep st ev :
  is_publication cfg ev = false →
  published_after st = true → published_after (packaging_step cfg st ev) = true.
Proof.
intros Hn H. unfold packaging_step. rewrite Hn. by destruct (is_packaged ev).
Qed.

Lemma packaged_keep st ev :
  True →
  packaged st = true ∧ published_after st = true →
  packaged (packaging_step cfg st ev) = true
  ∧ published_after (packaging_step cfg st ev) = true.
Proof.
intros _ [H1 H2]. unfold packaging_step.
destruct (is_publication cfg ev); [|destruct (is_packaged ev)]; simpl; rewrite ?H1, ?H2; done.
Qed.

Lemma tfold_packaged {A} st (t : Task A) :
  packaged st = true ∧ published_after st = true →
  tfold cfg w (packaging_step cfg) st t
    (fun _ st' => published_after st' = true).
Proof.
intros H. eapply tfold_conseq.
- apply (tfold_invariant cfg w _
           (fun st => packaged st = true ∧ published_after st = true)
           (fun _ => True)); [|apply packaged_keep|done].
  intros s. destruct (run_replay cfg w t s) as [evs E]. exists evs.
  split; [done|]. by apply Forall_forall.
- by intros r st' [_ H'].
Qed.

Ltac unpublished :=
  unfold_program;
  emits_walk ltac:(lazy beta; first [ reflexivity | apply repo_file_unpublished ]).

Lemma tfold_buildWithRunner_packaging runner ver type st :
  published_after st = true →
  tfold cfg w (packaging_step cfg) st (buildWithRunner runner ver type)
    (fun r st' => published_after st' = true ∧ (is_ok r = true → packaged st' = true)).
Proof.
intros Hst. destruct runner as [r|]; [|by apply tfold_throw].
unfold buildWithRunner, runner_run.
do 4 (eapply (tfold_bind_invariant cfg w _ (fun st => published_after st = true)
               (fun ev => is_publication cfg ev = false));
      [ solve [unpublished] | by apply published_after_keep | done
      | intros _ ? ? | by intros ] ).
match goal with
| |- tfold _ _ _ _ (await ?c) _ => apply (tfold_await _ _ _ _ c)
end.
intros [[]|e]; unfold packaging_step; by cbn.
Qed.

Lemma tfold_buildLocal_packaging type st :
  published_after st = true →
  tfold cfg w (packaging_step cfg) st (buildLocal cfg type)
    (fun _ st' => published_after st' = true).
Proof.
intros Hst. unfold buildLocal. cbv zeta.
do 10 (eapply (tfold_bind_invariant cfg w _ (fun st => published_after st = true)
               (fun ev => is_publication cfg ev = false));
      [ solve [unpublished] | by apply published_after_keep | done
      | intros ? ? ? | by intros ] ).
eapply tfold_bind; [by apply tfold_buildWithRunner_packaging | |].
- intros [] stp [Hpa Hpk]. apply tfold_packaged. auto.
- by intros e stp [Hpa _].
Qed.

Lemma tfold_buildWin_packaging type st :
  published_after st = true →
  tfold cfg w (packaging_step cfg) st (buildWin cfg type)
    (fun _ st' => published_after st' = true).
Proof.
intros Hst. unfold buildWin. cbv zeta.
do 13 (eapply (tfold_bind_invariant cfg w _ (fun st => published_after st = true)
               (fun ev => is_publication cfg ev = false));
      [ solve [unpublished] | by apply published_after_keep | done
      | intros ? ? ? | by intros ] ).
apply (tfold_bind _ _ _ _ _ _ (fun _ st' => published_after st' = true)).
- eapply (tfold_finally _ _ _ _ _ _ (fun _ st' => published_after st' = true)).
  + unfold buildWinGuarded. cbv zeta.
    eapply (tfold_bind_invariant cfg w _ (fun st => published_after st = true)
              (fun ev => is_publication cfg ev = false));
      [ solve [unpublished] | by apply published_after_keep | done
      | intros _ stp Hpa | by intros ].
    eapply tfold_bind;
      [ match goal with
        | |- tfold _ _ _ _ (await ?c) _ =>
            apply (tfold_await _ _ _ _ c
                     (fun r st' => published_after st' = true
                                   ∧ (is_ok r = true → packaged st' = true)))
        end | |].
    * intros [[]|e]; unfold packaging_step; by cbn.
    * intros [] stq [Hq Hk]. apply tfold_packaged. auto.
    * by intros e stq [Hq _].
  + intros r stp Hpa. eapply tfold_conseq.
    * apply (tfold_invariant cfg w _ (fun st => published_after st = true)
               (fun ev => is_publication cfg ev = false));
        [ solve [unpublished] | by apply published_after_keep | done ].
    * by intros rf stq Hq.
- intros [] stp Hpa.
  apply (tfold_invariant cfg w _ (fun st => published_after st = true)
           (fun ev => is_publication cfg ev = false));
    [ solve [unpublished] | by apply published_after_keep | done ].
- by intros e stp Hpa.
Qed.

Lemma published_after_sticky evs st :
  published_after (fold_left (packaging_step cfg) evs st) = true →
  published_after st = true.
Proof.
revert st. induction evs as [|ev evs IH]; intros st H; [done|].
apply IH in H. unfold packaging_step in H.
destruct (is_publication cfg ev); [|by destruct (is_packaged ev)].
simpl in H. by apply andb_prop in H as [H _].
Qed.

Lemma packaged_by evs st :
  packaged (fold_left (packaging_step cfg) evs st) = true →
  packaged st = true ∨ Exists (fun e => is_packaged e = true) evs.
Proof.
revert st. induction evs as [|ev evs IH]; intros st H; [by left|].
destruct (IH _ H) as [H1|H1]; [|by right; right].
unfold packaging_step in H1.
destruct (is_publication cfg ev); [by left|].
destruct (is_packaged ev) eqn:E; [right; by left | by left].
Qed.

(** Nothing is published before the packaging has succeeded: in the build of
    any platform type, every copy of an artifact and every write into the
    published tree comes after a successful packaging command ([yarn build]
    in the runner, or the script of the Windows builder).  A build that fails
    up to its packaging has left the published tree alone. *)
Theorem build_publishes_after_packaging s type :
  let evs := emitted s (run cfg w (build cfg type) s).2 in
  ∀ pre ev post,
    evs = pre ++ ev :: post →
    is_publication cfg ev = true →
    Exists (fun e => is_packaged e = true) pre.
Proof.
intros evs pre ev post E Hev.
assert (published_after (packaging_of cfg evs) = true) as H.
{ subst evs. clear E. unfold build, packaging_of.
  destruct (Str.startsWith type "win").
  - exact (tfold_emitted cfg w _ _ _ _ s (tfold_buildWin_packaging type {| packaged := false; published_after := true |} eq_refl)).
  - exact (tfold_emitted cfg w _ _ _ _ s (tfold_buildLocal_packaging type {| packaged := false; published_after := true |} eq_refl)). }
unfold packaging_of in H. rewrite E, fold_left_app in H. cbn [fold_left] in H.
apply published_after_sticky in H.
unfold packaging_step at 1 in H. rewrite Hev in H. simpl in H.
apply andb_prop in H as [_ H].
by destruct (packaged_by _ _ H) as [H'|H'].
Qed.

End Publication.

(** The mac build of the sample run: its first copy comes after the
    packaging. *)
Lemma build_publishes_after_packaging_witness :
  let evs := emitted Sample.init
               (run Sample.conf Sample.happy (build Sample.conf "mac") Sample.init).2 in
  evs !! 18
  = Some (EvCall (CopyFile "builds/element-desktop-mac-v1.6.0/dist/Element.dmg"
                    "/home/builder/packages.riot.im/desktop/install/macos/Element.dmg")
            (Ok tt))
  ∧ Exists (fun e => is_packaged e = true) (take 18 evs).
Proof.
intros evs.
set (ev := EvCall (CopyFile "builds/element-desktop-mac-v1.6.0/dist/Element.dmg"
                     "/home/builder/packages.riot.im/desktop/install/macos/Element.dmg")
             (Ok tt)).
assert (evs !! 18 = Some ev) as Hl by (vm_compute; reflexivity).
split; [exact Hl|].
exact (build_publishes_after_packaging Sample.conf Sample.happy eq_refl Sample.init "mac"
         (take 18 evs) ev (drop 19 evs)
         (eq_sym (take_drop_middle evs 18 ev Hl)) eq_refl).
Defined.

(** * The order of the Debian operations *)

Section DebianOrder.
Variable cfg : Config.
Variable w : World.

#[local] Abbreviation step := (deb_order_step cfg).
#[local] Abbreviation fresh := {| deb_failed := false; deb_phase := 0; deb_kept := true |}.
#[local] Abbreviation pulled := {| deb_failed := false; deb_phase := 1; deb_kept := true |}.
#[local] Abbreviation pull_args :=
  (strs ["-av"; "--delete"; rsyncRoot cfg +:+ "debian/"; debDir cfg]).
#[local] Abbreviation push_args :=
  (strs ["-av"; "--delete"; debDir cfg +:+ "/"; rsyncRoot cfg +:+ "debian"]).

Lemma deb_quiet ev d : deb_op ev = false → step d ev = d.
Proof. intros H. unfold deb_order_step. by rewrite H. Qed.

Lemma is_deb_pull_call r : is_deb_pull cfg (EvCall (Spawn "rsync" pull_args None) r) = true.
Proof. unfold is_deb_pull. by apply bool_decide_eq_true_2. Qed.

Lemma is_deb_push_call r : is_deb_push cfg (EvCall (Spawn "rsync" push_args None) r) = true.
Proof. unfold is_deb_push. by apply bool_decide_eq_true_2. Qed.

Lemma deb_step_pull r :
  step fresh (EvCall (Spawn "rsync" pull_args None) r)
  = {| deb_failed := negb (exited_ok (EvCall (Spawn "rsync" pull_args None) r));
       deb_phase := 1; deb_kept := true |}.
Proof.
unfold deb_order_step.
change (deb_op (EvCall (Spawn "rsync" pull_args None) r)) with true. cbv iota.
change (is_rsync (EvCall (Spawn "rsync" pull_args None) r)) with true. cbv iota.
cbn [deb_failed deb_phase deb_kept]. by rewrite is_deb_pull_call.
Qed.

Lemma deb_step_push r :
  deb_kept (step pulled (EvCall (Spawn "rsync" push_args None) r)) = true.
Proof.
unfold deb_order_step.
change (deb_op (EvCall (Spawn "rsync" push_args None) r)) with true. cbv iota.
cbn [deb_failed deb_phase deb_kept]. by rewrite is_deb_push_call, orb_true_r.
Qed.

Lemma deb_step_includedeb dir target deb r :
  step pulled (EvCall (Spawn "reprepro" [Some "includedeb"; target; Some deb] dir) r)
  = {| deb_failed :=
         negb (exited_ok (EvCall (Spawn "reprepro" [Some "includedeb"; target; Some deb] dir) r));
       deb_phase := 1; deb_kept := true |}.
Proof.
unfold deb_order_step.
change (deb_op (EvCall (Spawn "reprepro" [Some "includedeb"; target; Some deb] dir) r))
  with true. cbv iota.
change (is_rsync (EvCall (Spawn "reprepro" [Some "includedeb"; target; Some deb] dir) r))
  with false. cbv iota.
change (bool_decide
          (is_Some (ingestion (EvCall (Spawn "reprepro" [Some "includedeb"; target; Some deb]
                                         dir) r)))) with true.
reflexivity.
Qed.

Lemma tfold_spawn_from (d : DebOrder) cmd args dir :
  (∀ r, step d (EvCall (Spawn cmd args dir) r)
        = {| deb_failed := negb (exited_ok (EvCall (Spawn cmd args dir) r));
             deb_phase := 1; deb_kept := true |}) →
  tfold cfg w step d (spawn cmd args dir)
    (fun r d' => deb_kept d' = true ∧ (is_ok r = true → d' = pulled)).
Proof.
intros Hstep. unfold spawn.
eapply tfold_bind;
  [ apply (tfold_await _ _ _ _ (Spawn cmd args dir)
             (fun r d' => d' = {| deb_failed := negb (exited_ok (EvCall (Spawn cmd args dir) r));
                                  deb_phase := 1; deb_kept := true |}));
    intros r; apply Hstep | |].
- intros [[|n]|] d' ->.
  + by apply tfold_ret.
  + by apply tfold_throw.
  + by apply tfold_ret.
- by intros e d' ->.
Qed.

Lemma tfold_deb_for_of {X} (xs : list X) (body : X → Task unit) :
  (∀ x, tfold cfg w step pulled (body x)
          (fun r d' => deb_kept d' = true ∧ (is_ok r = true → d' = pulled))) →
  tfold cfg w step pulled (for_of xs body)
    (fun r d' => deb_kept d' = true ∧ (is_ok r = true → d' = pulled)).
Proof.
intros Hb. induction xs as [|x xs IH]; simpl; [by apply tfold_ret|].
eapply tfold_bind; [apply Hb | |].
- intros [] d' [_ H]. rewrite H by done. apply IH.
- by intros e d' [H _].
Qed.

Lemma tfold_deb_addDeb dir deb :
  tfold cfg w step pulled (addDeb dir deb)
    (fun r d' => deb_kept d' = true ∧ (is_ok r = true → d' = pulled)).
Proof.
unfold addDeb.
apply tfold_bind_quiet;
  [ solve [unfold getRepoTargets; emits_walk ltac:(lazy beta; intros; reflexivity)]
  | intros targets | by intros ].
apply tfold_info_bind. change (step pulled (EvLog Info _)) with pulled.
apply tfold_deb_for_of. intros target. apply tfold_spawn_from.
intros r. apply deb_step_includedeb.
Qed.

Lemma tfold_deb_linux :
  tfold cfg w step fresh (buildLocal cfg "linux") (fun _ d' => deb_kept d' = true).
Proof.
unfold buildLocal.
change (String.eqb "linux" "linux") with true.
change (String.eqb "linux" "mac") with false.
cbv beta iota zeta.
do 12 (apply tfold_bind_quiet;
        [ solve [unfold_program; emits_walk ltac:(lazy beta; intros; reflexivity)]
        | intros ? | by intros ]).
apply (tfold_bind _ _ _ _ _ _ (fun _ d' => deb_kept d' = true)).
- eapply tfold_bind;
    [ unfold pullDebDatabase; apply tfold_log_bind;
      change (step fresh (EvLog Info _)) with fresh;
      apply tfold_spawn_from; intros r; apply deb_step_pull | |].
  + intros [] d1 [_ H]. rewrite H by done.
    apply tfold_bind_quiet;
      [ solve [emits_walk ltac:(lazy beta; intros; reflexivity)]
      | intros debs | by intros ].
    eapply tfold_bind;
      [ unfold addDebs; apply tfold_deb_for_of; intros f; apply tfold_deb_addDeb | |].
    * intros [] d2 [_ H2]. rewrite H2 by done.
      unfold pushDebDatabase. apply tfold_info_bind.
      change (step pulled (EvLog Info _)) with pulled.
      unfold spawn.
      eapply tfold_bind;
        [ apply (tfold_await _ _ _ _ (Spawn "rsync" push_args None)
                   (fun _ d' => deb_kept d' = true)); intros r; apply deb_step_push | |].
      -- intros [[|n]|] d3 H3; [by apply tfold_ret | by apply tfold_throw | by apply tfold_ret].
      -- by intros e d3 H3.
    * by intros e d2 [H2 _].
  + by intros e d1 [H1 _].
- intros [] d1 H1.
  apply (tfold_invariant cfg w _ (fun d => deb_kept d = true)
           (fun ev => deb_op ev = false));
    [ solve [emits_walk ltac:(lazy beta; intros; reflexivity)]
    | intros ? ? Hq ?; by rewrite (deb_quiet _ _ Hq) | done ].
- by intros e d1 H1.
Qed.

Lemma platform_not_linux type ev :
  type ≠ "linux" → platform_call cfg type ev → deb_op ev = false.
Proof.
intros Hl H. destruct ev as [c r| | | | |]; try reflexivity.
destruct c; try reflexivity. simpl in H. done.
Qed.

Lemma tfold_deb_build type :
  tfold cfg w step fresh (build cfg type) (fun _ d' => deb_kept d' = true).
Proof.
destruct (decide (type = "linux")) as [->|Hl].
- apply tfold_deb_linux.
- apply (tfold_invariant cfg w _ (fun d => deb_kept d = true)
           (fun ev => deb_op ev = false));
    [| intros ? ? Hq ?; by rewrite (deb_quiet _ _ Hq) | done].
  eapply emits_weaken; [|apply emits_build_platform].
  intros ev. by apply platform_not_linux.
Qed.

Lemma deb_kept_sticky evs d :
  deb_kept (fold_left step evs d) = true → deb_kept d = true.
Proof.
revert d. induction evs as [|ev evs IH]; intros d H; [done|].
apply IH in H. unfold deb_order_step in H.
destruct (deb_op ev); [|done]. cbn [deb_kept] in H.
by apply andb_prop in H as [[H _]%andb_prop _].
Qed.

Lemma deb_failed_by evs d :
  deb_failed (fold_left step evs d) = false →
  deb_failed d = false ∧ Forall (fun e => deb_op e = true → exited_ok e = true) evs.
Proof.
revert d. induction evs as [|ev evs IH]; intros d H; [by split|].
simpl in H. destruct (IH _ H) as [H' F]. unfold deb_order_step in H'.
destruct (deb_op ev) eqn:Hop.
- cbn [deb_failed] in H'. apply orb_false_elim in H' as [H1 H2].
  split; [done|]. constructor; [|done]. intros _. by apply negb_false_iff in H2.
- split; [done|]. constructor; [|done]. intros Ht. congruence.
Qed.

Lemma deb_phase_count evs d :
  deb_phase (fold_left step evs d)
  = deb_phase d + length (List.filter is_rsync evs).
Proof.
revert d. induction evs as [|ev evs IH]; intros d; simpl; [lia|].
rewrite IH. unfold deb_order_step, deb_op.
destruct (is_rsync ev); simpl; [lia|].
destruct (bool_decide _); simpl; lia.
Qed.

Lemma no_rsync evs : length (List.filter is_rsync evs) = 0 → Forall (fun e => is_rsync e = false) evs.
Proof.
induction evs as [|ev evs IH]; simpl; [done|].
destruct (is_rsync ev) eqn:E; simpl; [lia|]. intros H. constructor; auto.
Qed.

(** While no rsync has run and the order is kept, nothing was done. *)
Lemma deb_fresh_idle evs d :
  deb_kept (fold_left step evs d) = true →
  deb_phase (fold_left step evs d) = 0 →
  Forall (fun e => deb_op e = false) evs.
Proof.
revert d. induction evs as [|ev evs IH]; intros d Hk Hp; [done|].
simpl in Hk, Hp.
pose proof (deb_kept_sticky _ _ Hk) as Hk1.
pose proof (deb_phase_count evs (step d ev)) as Hc. rewrite Hp in Hc.
constructor; [|by eapply IH].
destruct (deb_op ev) eqn:Hop; [|done]. exfalso.
unfold deb_order_step in Hk1, Hc. rewrite Hop in Hk1, Hc.
cbn [deb_kept deb_phase] in Hk1, Hc.
destruct (is_rsync ev) eqn:Hr; [lia|].
destruct (deb_phase d); [|lia].
apply andb_prop in Hk1 as [_ Hk1]. unfold is_deb_pull in Hk1.
apply bool_decide_eq_true_1 in Hk1.
destruct ev as [c r| | | | |]; try discriminate Hk1.
destruct c; try discriminate Hk1. injection Hk1 as -> _ _. discriminate Hr.
Qed.

(** Once an rsync has run and the order is kept, the first operation was the
    pull. *)
Lemma deb_pulled_first evs d :
  deb_phase d = 0 →
  deb_kept (fold_left step evs d) = true →
  deb_phase (fold_left step evs d) = 1 →
  ∃ a p b, evs = a ++ p :: b ∧ is_deb_pull cfg p = true
           ∧ Forall (fun e => deb_op e = false) a
           ∧ Forall (fun e => is_rsync e = false) b.
Proof.
revert d. induction evs as [|ev evs IH]; intros d Hd Hk Hp; simpl in Hk, Hp.
- rewrite Hd in Hp. discriminate Hp.
- destruct (deb_op ev) eqn:Hop.
  + pose proof (deb_kept_sticky _ _ Hk) as Hk1.
    pose proof (deb_phase_count evs (step d ev)) as Hc. rewrite Hp in Hc.
    unfold deb_order_step in Hk1, Hc. rewrite Hop in Hk1, Hc.
    cbn [deb_kept deb_phase] in Hk1, Hc. rewrite Hd in Hk1, Hc.
    apply andb_prop in Hk1 as [_ Hpull].
    assert (is_rsync ev = true) as Hr.
    { unfold is_deb_pull in Hpull. apply bool_decide_eq_true_1 in Hpull.
      destruct ev as [c r| | | | |]; try discriminate Hpull.
      destruct c; try discriminate Hpull. by injection Hpull as -> _ _. }
    rewrite Hr in Hc.
    exists [], ev, evs. split; [done|]. split; [done|]. split; [constructor|].
    apply no_rsync. lia.
  + rewrite (deb_quiet _ _ Hop) in Hk, Hp.
    destruct (IH d Hd Hk Hp) as (a & p & b & -> & H1 & H2 & H3).
    exists (ev :: a), p, b. split; [done|]. split; [done|]. split; [by constructor | done].
Qed.

(** After the push, nothing. *)
Lemma deb_pushed_last evs d :
  2 ≤ deb_phase d →
  deb_kept (fold_left step evs d) = true →
  Forall (fun e => deb_op e = false) evs.
Proof.
revert d. induction evs as [|ev evs IH]; intros d Hd Hk; [done|]. simpl in Hk.
destruct (deb_op ev) eqn:Hop.
- exfalso. apply deb_kept_sticky in Hk. unfold deb_order_step in Hk. rewrite Hop in Hk.
  cbn [deb_kept] in Hk. destruct (deb_phase d) as [|[|n]]; [lia | lia |].
  by rewrite andb_false_r in Hk.
- constructor; [done|]. rewrite (deb_quiet _ _ Hop) in Hk. by eapply IH.
Qed.

(** The Debian database is handled in order.  In the build of any platform
    type, an rsync or an ingestion runs only when every rsync and every
    ingestion before it has ended with a falsy exit code (0, or [null] for a
    process ended by a signal, which the code takes for success).  The first
    of these operations is the pull of the database from the mirror; every
    other one comes after that pull, with no other rsync in between, and is
    an ingestion or the push onto the mirror; and the push is the last of
    them. *)
Theorem build_keeps_debian_order s type :
  let evs := emitted s (run cfg w (build cfg type) s).2 in
  ∀ pre ev post,
    evs = pre ++ ev :: post →
    deb_op ev = true →
    Forall (fun e => deb_op e = true → exited_ok e = true) pre
    ∧ ((is_deb_pull cfg ev = true ∧ Forall (fun e => deb_op e = false) pre)
       ∨ (∃ a p b,
            pre = a ++ p :: b ∧ is_deb_pull cfg p = true
            ∧ Forall (fun e => deb_op e = false) a
            ∧ Forall (fun e => is_rsync e = false) b
            ∧ (is_Some (ingestion ev)
               ∨ (is_deb_push cfg ev = true ∧ Forall (fun e => deb_op e = false) post)))).
Proof.
intros evs pre ev post E Hop.
pose proof (tfold_emitted cfg w _ _ _ _ s (tfold_deb_build type)) as H.
cbv beta in H. fold evs in H. rewrite E, fold_left_app in H. cbn [fold_left] in H.
set (dp := fold_left step pre fresh) in *.
pose proof (deb_kept_sticky _ _ H) as Hk.
unfold deb_order_step at 1 in Hk. rewrite Hop in Hk. cbn [deb_kept] in Hk.
apply andb_prop in Hk as [[Hkp Hf]%andb_prop Hph].
apply negb_true_iff in Hf.
split; [by apply (deb_failed_by pre fresh)|].
destruct (deb_phase dp) as [|[|n]] eqn:Hp; [| |discriminate Hph].
- left. split; [done|]. by apply (deb_fresh_idle pre fresh).
- right. destruct (deb_pulled_first pre fresh eq_refl Hkp Hp) as (a & p & b & -> & H1 & H2 & H3).
  exists a, p, b. split; [done|]. split; [done|]. split; [done|]. split; [done|].
  apply orb_prop in Hph as [Hi|Hpush].
  + left. by apply bool_decide_eq_true_1 in Hi.
  + right. split; [done|].
    apply (deb_pushed_last post (step dp ev)); [|done].
    unfold deb_order_step. rewrite Hop. cbn [deb_phase].
    assert (is_rsync ev = true) as ->; [|lia].
    unfold is_deb_push in Hpush. apply bool_decide_eq_true_1 in Hpush.
    destruct ev as [c r| | | | |]; try discriminate Hpush.
    destruct c; try discriminate Hpush. by injection Hpush as -> _ _.
Qed.

End DebianOrder.

(** The linux build of the sample run: the push comes after the pull and
    the two ingestions, which all succeeded, and is the last operation on
    the database. *)
Lemma build_keeps_debian_order_witness :
  let evs := emitted Sample.init
               (run Sample.conf Sample.happy (build Sample.conf "linux") Sample.init).2 in
  let push := EvCall (Spawn "rsync"
                        (strs ["-av"; "--delete"; "/home/builder/debian/";
                               "packages@mirror:/srv/debian"]) None) (Ok (Some 0)) in
  evs !! 25 = Some push
  ∧ Forall (fun e => deb_op e = true → exited_ok e = true) (take 25 evs)
  ∧ ∃ a p b,
      take 25 evs = a ++ p :: b ∧ is_deb_pull Sample.conf p = true
      ∧ Forall (fun e => deb_op e = false) a
      ∧ Forall (fun e => is_rsync e = false) b
      ∧ Forall (fun e => deb_op e = false) (drop 26 evs).
Proof.
intros evs push.
assert (evs !! 25 = Some push) as Hl by (vm_compute; reflexivity).
split; [exact Hl|].
destruct (build_keeps_debian_order Sample.conf Sample.happy Sample.init "linux"
            (take 25 evs) push (drop 26 evs)
            (eq_sym (take_drop_middle evs 25 push Hl)) eq_refl)
  as [H1 [[Hpull _] | (a & p & b & E & Hp & Ha & Hb & [Hi | [_ Hpost]])]].
- discriminate Hpull.
- destruct Hi as [x Hx]. discriminate Hx.
- split; [exact H1|]. exists a, p, b.
  split; [exact E|]. split; [exact Hp|]. split; [exact Ha|]. split; [exact Hb | exact Hpost].
Defined.

(** * The checkout is removed last *)

Section Checkout.
Variable cfg : Config.
Variable w : World.
Variable s : State.
Variable type : string.

#[local] Abbreviation dir := (repoDirOf cfg type).
#[local] Abbreviation first3 :=
  [EvCall (Mkdir "builds") (Ok tt); EvCall (Rimraf dir) (Ok tt);
   EvLog Info [LS ("Cloning element-desktop into " +:+ dir)]].
#[local] Abbreviation clone rc :=
  (EvCall (GitClone dir [DESKTOP_GIT_REPO; dir; "-b"; desktopBranch cfg]) rc).
#[local] Abbreviation removing := (EvLog Info [LS "Removing build dir"]).

(** The history of a build: it ends at the directory of the builds or at the
    first removal when one of them fails; else it goes on with the clone, with
    steps that neither clone nor remove, and, unless one of these failed,
    with the last removal, whose result is the result of the build. *)
#[local] Abbreviation checkout_shape :=
  (fun (r : Result unit) (evs : list Event) =>
     (∃ e, evs = [EvCall (Mkdir "builds") (Rejected e)] ∧ r = Rejected e)
     ∨ (∃ e, evs = [EvCall (Mkdir "builds") (Ok tt); EvCall (Rimraf dir) (Rejected e)]
             ∧ r = Rejected e)
     ∨ ∃ rc mid fin,
         evs = first3 ++ clone rc :: mid ++ fin
         ∧ Forall keeps_checkout mid
         ∧ ((fin = [] ∧ ∃ e, r = Rejected e)
            ∨ fin = [removing; EvCall (Rimraf dir) r])).

Ltac checkout_walk :=
  unfold_program;
  emits_walk ltac:(lazy beta; first [ by split ]).

Ltac pass :=
  apply (fh_bind_inv cfg w s
           (fun evs => ∃ rc mid, evs = first3 ++ clone rc :: mid ∧ Forall keeps_checkout mid)
           keeps_checkout);
  [ solve [checkout_walk]
  | intros ? e1 (rc' & mid' & -> & F') F1; exists rc', (mid' ++ e1);
    split; [by rewrite <- !app_assoc | by apply Forall_app]
  | done
  | idtac
  | intros e' ? (rc' & mid' & -> & F'); right; right; exists rc', mid', [];
    rewrite app_nil_r; split; [done|]; split; [done|]; left; by eauto ].

Lemma checkout_first {B} (f : unit → Task B) (Q : Result B → list Event → Prop) :
  (∀ e, Q (Rejected e) [EvCall (Mkdir "builds") (Rejected e)]) →
  (∀ e, Q (Rejected e) [EvCall (Mkdir "builds") (Ok tt); EvCall (Rimraf dir) (Rejected e)]) →
  (∀ e, Q (Rejected e) (first3 ++ [clone (Rejected e)])) →
  from_history cfg w s (first3 ++ [clone (Ok tt)]) (f tt) Q →
  from_history cfg w s []
    (await (Mkdir "builds") ;;
     await (Rimraf dir) ;;
     info ("Cloning element-desktop into " +:+ dir) ;;
     u <- await (GitClone dir [DESKTOP_GIT_REPO; dir; "-b"; desktopBranch cfg]) ;;
     f u) Q.
Proof.
intros H0 H1 H2 Hf.
apply (fh_bind cfg w s _ _ _ (fun r evs => evs = [EvCall (Mkdir "builds") r])).
{ apply (fh_await cfg w s _ (Mkdir "builds")). by intros r. }
2:{ intros e evs ->. apply H0. }
intros [] evs ->.
apply (fh_bind cfg w s _ _ _
         (fun r evs => evs = [EvCall (Mkdir "builds") (Ok tt); EvCall (Rimraf dir) r])).
{ apply (fh_await cfg w s _ (Rimraf dir)). by intros r. }
2:{ intros e evs ->. apply H1. }
intros [] evs ->. apply fh_info_bind. cbn [app].
apply (fh_bind cfg w s _ _ _ (fun r evs => evs = first3 ++ [clone r])).
{ apply (fh_await cfg w s _ (GitClone dir [DESKTOP_GIT_REPO; dir; "-b"; desktopBranch cfg])).
  by intros r. }
2:{ intros e evs ->. apply H2. }
by intros [] evs ->.
Qed.

Lemma checkout_last pre :
  (∃ rc mid, pre = first3 ++ clone rc :: mid ∧ Forall keeps_checkout mid) →
  from_history cfg w s pre (info "Removing build dir" ;; await (Rimraf dir)) checkout_shape.
Proof.
intros (rc & mid & -> & F). apply fh_info_bind.
apply (fh_await cfg w s _ (Rimraf dir)). intros rr.
right. right. exists rc, mid, [removing; EvCall (Rimraf dir) rr].
split; [by rewrite <- !app_assoc|]. split; [done|]. by right.
Qed.

Lemma buildLocal_checkout :
  from_history cfg w s [] (buildLocal cfg type) checkout_shape.
Proof.
unfold buildLocal. cbv zeta.
apply checkout_first.
- intros e. left. by exists e.
- intros e. right. left. by exists e.
- intros e. right. right. exists (Rejected e), [], []. cbn [app].
  split; [done|]. split; [done|]. left. by eauto.
- assert (∃ rc mid, first3 ++ [clone (Ok tt)] = first3 ++ clone rc :: mid
                    ∧ Forall keeps_checkout mid) as H by (by exists (Ok tt), []).
  revert H. generalize (first3 ++ [clone (Ok tt)]). intros pre H.
  do 9 (pass; clear pre H; intros ? pre H).
  by apply checkout_last.
Qed.

Lemma buildWin_checkout :
  from_history cfg w s [] (buildWin cfg type) checkout_shape.
Proof.
unfold buildWin. cbv zeta.
apply checkout_first.
- intros e. left. by exists e.
- intros e. right. left. by exists e.
- intros e. right. right. exists (Rejected e), [], []. cbn [app].
  split; [done|]. split; [done|]. left. by eauto.
- assert (∃ rc mid, first3 ++ [clone (Ok tt)] = first3 ++ clone rc :: mid
                    ∧ Forall keeps_checkout mid) as H by (by exists (Ok tt), []).
  revert H. generalize (first3 ++ [clone (Ok tt)]). intros pre H.
  do 10 (pass; clear pre H; intros ? pre H).
  by apply checkout_last.
Qed.

End Checkout.

Section Cleanup.
Variable cfg : Config.
Variable w : World.

(** How the removals of the checkout stand when a build ends: after a build
    that resolved, and after one that rejected. *)
#[local] Abbreviation cleaned r st :=
  (match r with
   | Ok _ => st = (2, Some true)
   | Rejected _ => st.1 ≤ 1 ∨ st = (2, Some false)
   end).

Ltac kept_walk :=
  unfold_program;
  emits_walk ltac:(lazy beta; first [ reflexivity | intros; reflexivity ]).

Ltac keep dir :=
  eapply (tfold_bind_invariant cfg w _ (fun st => st = (1, None))
            (fun ev => removal_step dir (1, None) ev = (1, None)));
  [ solve [kept_walk] | by intros ? ? ? -> | done | intros ? ? -> | intros ? ? ->; left; simpl; lia ].

Lemma tfold_first_removal {B} dir (f : unit → Task B) (Q : Result B → nat * option bool → Prop) :
  tfold cfg w (removal_step dir) (1, Some true) (f tt) Q →
  (∀ e, Q (Rejected e) (0, None)) → (∀ e, Q (Rejected e) (1, Some false)) →
  tfold cfg w (removal_step dir) (0, None)
    (await (Mkdir "builds") ;; u <- await (Rimraf dir) ;; f u) Q.
Proof.
intros Hf H0 H1.
apply (tfold_bind _ _ _ _ _ _ (fun _ st => st = (0, None))).
- by apply (tfold_await _ _ _ _ (Mkdir "builds")).
- intros _ st ->.
  apply (tfold_bind _ _ _ _ _ _ (fun r st => st = (1, Some (is_ok r)))).
  + apply (tfold_await _ _ _ _ (Rimraf dir)). intros r.
    cbn [removal_step]. by rewrite String.eqb_refl.
  + by intros [] st ->.
  + intros e st ->. apply H1.
- intros e st ->. apply H0.
Qed.

Lemma tfold_last_removal dir :
  tfold cfg w (removal_step dir) (1, None)
    (info "Removing build dir" ;; await (Rimraf dir)) (fun r st => cleaned r st).
Proof.
apply tfold_info_bind. change (removal_step dir (1, None) (EvLog Info _)) with (1, @None bool).
apply (tfold_await _ _ _ _ (Rimraf dir)). intros r.
cbn [removal_step]. rewrite String.eqb_refl. destruct r as [[]|e]; [done | by right].
Qed.

Lemma tfold_buildLocal_removals type :
  tfold cfg w (removal_step (repoDirOf cfg type)) (0, None) (buildLocal cfg type)
    (fun r st => cleaned r st).
Proof.
unfold buildLocal. cbv zeta.
apply tfold_first_removal; [|left; simpl; lia|left; simpl; lia].
apply tfold_info_bind.
change (removal_step _ (1, Some true) (EvLog Info _)) with (1, @None bool).
do 10 keep (repoDirOf cfg type).
apply tfold_last_removal.
Qed.

Lemma tfold_buildWin_removals type :
  tfold cfg w (removal_step (repoDirOf cfg type)) (0, None) (buildWin cfg type)
    (fun r st => cleaned r st).
Proof.
unfold buildWin. cbv zeta.
apply (tfold_first_removal (repoDirOf cfg type)); [|left; simpl; lia|left; simpl; lia].
apply tfold_info_bind.
change (removal_step _ (1, Some true) (EvLog Info _)) with (1, @None bool).
do 11 keep (repoDirOf cfg type).
apply (tfold_last_removal (repoDirOf cfg type)).
Qed.

Lemma split_elem {X} (l a : list X) x b : l = a ++ x :: b → x ∈ l.
Proof. intros ->. apply elem_of_app. right. by left. Qed.

(** The checkout of a build is removed before the clone and once more as the
    very last step, and only then.  The clone of a build comes right after
    the successful removal of its checkout (and a log line), there is one
    clone at most, and after it the only removal is that of the checkout, as
    the last event of the history, after the line that announces it; the
    result of that removal is the result of the build.  So a build resolves
    exactly when its history ends with the successful second removal of its
    checkout, and a build that rejects has left the checkout of its failed
    attempt in place, unless it is that last removal that failed. *)
Theorem build_removes_checkout_last s type :
  let out := run cfg w (build cfg type) s in
  let evs := emitted s out.2 in
  let dir := repoDirOf cfg type in
  let rm := removals dir evs in
  (∀ pre ev post,
     evs = pre ++ ev :: post → is_clone ev = true →
     pre = [EvCall (Mkdir "builds") (Ok tt); EvCall (Rimraf dir) (Ok tt);
            EvLog Info [LS ("Cloning element-desktop into " +:+ dir)]]
     ∧ (∃ rc, ev = EvCall (GitClone dir [DESKTOP_GIT_REPO; dir; "-b"; desktopBranch cfg]) rc)
     ∧ Forall (fun e => is_clone e = false) post
     ∧ ∀ a e b,
         post = a ++ e :: b → is_removal e = true →
         b = [] ∧ e = EvCall (Rimraf dir) out.1
         ∧ last a = Some (EvLog Info [LS "Removing build dir"]))
  ∧ (out.1 = Ok tt →
     ∃ pre, evs = pre ++ [EvCall (Rimraf dir) (Ok tt)]
            ∧ Exists (fun e => is_clone e = true) pre)
  ∧ (out.1 = Ok tt ↔ rm = (2, Some true))
  ∧ ((∃ e, out.1 = Rejected e) → rm.1 ≤ 1 ∨ rm = (2, Some false)).
Proof.
intros out evs dir rm. subst dir.
assert (cleaned out.1 rm) as H.
{ subst out rm evs. unfold build, removals. destruct (Str.startsWith type "win").
  - exact (tfold_emitted cfg w _ _ _ _ s (tfold_buildWin_removals type)).
  - exact (tfold_emitted cfg w _ _ _ _ s (tfold_buildLocal_removals type)). }
assert (from_history cfg w s [] (build cfg type)
          (fun r evs' =>
             (∃ e, evs' = [EvCall (Mkdir "builds") (Rejected e)] ∧ r = Rejected e)
             ∨ (∃ e, evs' = [EvCall (Mkdir "builds") (Ok tt);
                             EvCall (Rimraf (repoDirOf cfg type)) (Rejected e)]
                     ∧ r = Rejected e)
             ∨ ∃ rc mid fin,
                 evs' = [EvCall (Mkdir "builds") (Ok tt);
                         EvCall (Rimraf (repoDirOf cfg type)) (Ok tt);
                         EvLog Info [LS ("Cloning element-desktop into "
                                         +:+ repoDirOf cfg type)]]
                        ++ EvCall (GitClone (repoDirOf cfg type)
                                     [DESKTOP_GIT_REPO; repoDirOf cfg type; "-b";
                                      desktopBranch cfg]) rc
                        :: mid ++ fin
                 ∧ Forall keeps_checkout mid
                 ∧ ((fin = [] ∧ ∃ e, r = Rejected e)
                    ∨ fin = [EvLog Info [LS "Removing build dir"];
                             EvCall (Rimraf (repoDirOf cfg type)) r]))) as S.
{ unfold build. destruct (Str.startsWith type "win");
    [apply buildWin_checkout | apply buildLocal_checkout]. }
unfold from_history in S. cbv zeta in S. cbn [app replay fold_left] in S.
fold out in S. fold evs in S.
split; [|split; [|split]].
- intros pre ev post E Hev.
  destruct S as [(e & S & _) | [(e & S & _) | (rc & mid & fin & S & Fmid & Hfin)]].
  + apply split_elem in E. rewrite S in E.
    apply list_elem_of_singleton in E. by subst ev.
  + apply split_elem in E. rewrite S in E.
    apply elem_of_cons in E as [->|E]; [done|].
    apply list_elem_of_singleton in E. by subst ev.
  + assert (Forall (fun e => is_clone e = false) (mid ++ fin)) as Fpost.
    { apply Forall_app. split.
      - eapply Forall_impl; [exact Fmid|]. by intros e [? _].
      - destruct Hfin as [[-> _] | ->]; by repeat constructor. }
    rewrite S in E.
    apply (unique_split (fun e => is_clone e = true)
             [EvCall (Mkdir "builds") (Ok tt);
              EvCall (Rimraf (repoDirOf cfg type)) (Ok tt);
              EvLog Info [LS ("Cloning element-desktop into " +:+ repoDirOf cfg type)]]
             _ (mid ++ fin) pre ev post) in E;
      [ | by repeat constructor
        | eapply Forall_impl; [exact Fpost|]; intros e He; by rewrite He
        | done | done ].
    destruct E as (-> & -> & ->).
    split; [done|]. split; [by eexists|]. split; [done|].
    intros a e b E He.
    destruct Hfin as [[-> _] | ->].
    * rewrite app_nil_r in E. apply split_elem in E.
      rewrite Forall_forall in Fmid. destruct (Fmid e E) as [_ He']. congruence.
    * change (mid ++ [EvLog Info [LS "Removing build dir"];
                      EvCall (Rimraf (repoDirOf cfg type)) out.1])
        with (mid ++ [EvLog Info [LS "Removing build dir"]]
                  ++ [EvCall (Rimraf (repoDirOf cfg type)) out.1]) in E.
      rewrite app_assoc in E.
      apply (unique_split (fun e => is_removal e = true)
               (mid ++ [EvLog Info [LS "Removing build dir"]]) _ [] a e b) in E;
        [ | apply Forall_app; split;
            [ eapply Forall_impl; [exact Fmid|]; intros e' [_ He']; by rewrite He'
            | by repeat constructor ]
          | constructor | done | done ].
      destruct E as (-> & -> & ->).
      split; [done|]. split; [done|]. by rewrite last_snoc.
- intros Hok.
  destruct S as [(e & _ & S) | [(e & _ & S) | (rc & mid & fin & S & Fmid & Hfin)]];
    try (rewrite Hok in S; discriminate S).
  destruct Hfin as [[_ [e He]] | ->]; [rewrite Hok in He; discriminate He|].
  rewrite Hok in S.
  exists (EvCall (Mkdir "builds") (Ok tt)
          :: EvCall (Rimraf (repoDirOf cfg type)) (Ok tt)
          :: EvLog Info [LS ("Cloning element-desktop into " +:+ repoDirOf cfg type)]
          :: EvCall (GitClone (repoDirOf cfg type)
                       [DESKTOP_GIT_REPO; repoDirOf cfg type; "-b"; desktopBranch cfg]) rc
          :: mid ++ [EvLog Info [LS "Removing build dir"]]).
  split.
  + rewrite S. cbn [app]. by rewrite <- app_assoc.
  + do 3 apply Exists_cons_tl. by apply Exists_cons_hd.
- destruct out.1 as [[]|e]; [done|].
  split; [done|]. intros E. rewrite E in H. destruct H as [H|[=]]. simpl in H. lia.
- destruct out.1 as [[]|e]; [by intros [e [=]] | done].
Qed.

End Cleanup.

(** The mac build of the sample run: the clone comes after the removal of the
    checkout, and the build ends with the second one. *)
Lemma build_removes_checkout_last_witness :
  let out := run Sample.conf Sample.happy (build Sample.conf "mac") Sample.init in
  let evs := emitted Sample.init out.2 in
  let dir := "builds/element-desktop-mac-v1.6.0" in
  take 3 evs = [EvCall (Mkdir "builds") (Ok tt); EvCall (Rimraf dir) (Ok tt);
                EvLog Info [LS ("Cloning element-desktop into " +:+ dir)]]
  ∧ last (take 25 evs) = Some (EvLog Info [LS "Removing build dir"])
  ∧ evs !! 25 = Some (EvCall (Rimraf dir) (Ok tt)).
Proof.
intros out evs dir.
set (clone := EvCall (GitClone dir [DESKTOP_GIT_REPO; dir; "-b"; "v1.6.0"]) (Ok tt)).
assert (evs !! 3 = Some clone) as Hl by (vm_compute; reflexivity).
destruct (proj1 (build_removes_checkout_last Sample.conf Sample.happy Sample.init "mac")
            (take 3 evs) clone (drop 4 evs)
            (eq_sym (take_drop_middle evs 3 clone Hl)) eq_refl)
  as (Hpre & _ & _ & Hpost).
split; [exact Hpre|].
assert (drop 4 evs = take 21 (drop 4 evs) ++ EvCall (Rimraf dir) (Ok tt) :: []) as Hd
  by (vm_compute; reflexivity).
destruct (Hpost _ _ _ Hd eq_refl) as (_ & _ & Hlast).
split; [|vm_compute; reflexivity].
assert (last (take 25 evs) = last (take 21 (drop 4 evs))) as -> by (vm_compute; reflexivity).
exact Hlast.
Defined.

(** * Reading the codenames *)

Section Codenames.
Variable cfg : Config.
Variable w : World.

Lemma str_app_nil_r a : a +:+ "" = a.
Proof.
induction a as [|x a IH]; [done|].
change (String x (a +:+ "") = String x a). by rewrite IH.
Qed.

Lemma includes_cons c s sub :
  includes (String c s) sub = false →
  Str.startsWith (String c s) sub = false ∧ includes s sub = false.
Proof.
intros H.
change (Str.startsWith (String c s) sub || includes s sub = false) in H.
by apply orb_false_elim in H.
Qed.

Lemma split_go_free sep cur s :
  includes s sep = false → Str.split_go sep 0 cur s = [cur +:+ s].
Proof.
revert cur. induction s as [|c s IH]; intros cur H.
- by rewrite str_app_nil_r.
- apply includes_cons in H as [H1 H2].
  change (Str.split_go sep 0 cur (String c s))
    with (if Str.startsWith (String c s) sep
          then cur :: Str.split_go sep (String.length sep - 1) "" s
          else Str.split_go sep 0 (cur +:+ String c "") s).
  rewrite H1, IH by done. by rewrite str_app_assoc.
Qed.

Lemma split_go_nl cur l rest :
  includes l Str.nl = false →
  Str.split_go Str.nl 0 cur (l +:+ Str.nl +:+ rest)
  = (cur +:+ l) :: Str.split_go Str.nl 0 "" rest.
Proof.
revert cur. induction l as [|c l IH]; intros cur H.
- rewrite str_app_nil_r.
  change ("" +:+ Str.nl +:+ rest) with (String (Ascii.ascii_of_nat 10) rest).
  change (Str.split_go Str.nl 0 cur (String (Ascii.ascii_of_nat 10) rest))
    with (if Str.startsWith (String (Ascii.ascii_of_nat 10) rest) Str.nl
          then cur :: Str.split_go Str.nl 0 "" rest
          else Str.split_go Str.nl 0 (cur +:+ Str.nl) rest).
  by destruct rest.
- apply includes_cons in H as [H1 H2].
  change (String c l +:+ Str.nl +:+ rest) with (String c (l +:+ Str.nl +:+ rest)).
  change (Str.split_go Str.nl 0 cur (String c (l +:+ Str.nl +:+ rest)))
    with (if Str.startsWith (String c (l +:+ Str.nl +:+ rest)) Str.nl
          then cur :: Str.split_go Str.nl 0 "" (l +:+ Str.nl +:+ rest)
          else Str.split_go Str.nl 0 (cur +:+ String c "") (l +:+ Str.nl +:+ rest)).
  assert (Str.startsWith (String c (l +:+ Str.nl +:+ rest)) Str.nl = false) as ->.
  { revert H1. unfold Str.nl. cbn [Str.startsWith].
    destruct (Ascii.eqb _ c); [|done]. by destruct l. }
  rewrite IH by done. by rewrite str_app_assoc.
Qed.

(** Splitting at the line feeds gives back the lines that were joined. *)
Lemma split_join_lines l lines :
  Forall (fun l => includes l Str.nl = false) (l :: lines) →
  Str.split (Str.join Str.nl (l :: lines)) Str.nl = l :: lines.
Proof.
unfold Str.split. change (Str.nl) with (String (Ascii.ascii_of_nat 10) "") at 2.
cbv iota. fold Str.nl.
revert l. induction lines as [|l2 lines IH]; intros l H.
- inversion H; subst. by apply split_go_free.
- inversion H; subst.
  change (Str.join Str.nl (l :: l2 :: lines))
    with (l +:+ Str.nl +:+ Str.join Str.nl (l2 :: lines)).
  rewrite split_go_nl by done. f_equal. by apply IH.
Qed.

Lemma fold_push_map {X Y} (p : X → bool) (g : X → Y) (l : list X) acc :
  fold_left (fun ret x => if p x then ret ++ [g x] else ret) l acc
  = acc ++ map g (List.filter p l).
Proof.
revert acc. induction l as [|x l IH]; intros acc; simpl.
- by rewrite app_nil_r.
- rewrite IH. destruct (p x); [|done]. by rewrite <- app_assoc.
Qed.

Lemma startsWith_nil s : Str.startsWith s "" = true.
Proof. by destruct s. Qed.

Lemma split_go_at_sep (a b : Ascii.ascii) cur s :
  Str.split_go (String a (String b "")) 0 cur (String a (String b s))
  = cur :: Str.split_go (String a (String b "")) 0 "" s.
Proof.
change (Str.split_go (String a (String b "")) 0 cur (String a (String b s)))
  with (if Ascii.eqb a a && (Ascii.eqb b b && Str.startsWith s "")
        then cur :: Str.split_go (String a (String b "")) 0 "" s
        else Str.split_go (String a (String b "")) 0 (cur +:+ String a "") (String b s)).
by rewrite !Ascii.eqb_refl, startsWith_nil.
Qed.

Lemma split_codename name :
  includes name ": " = false →
  Str.split ("Codename: " +:+ name) ": " = ["Codename"; name].
Proof.
intros H.
change (Str.split ("Codename: " +:+ name) ": ")
  with (Str.split_go ": " 0 "Codename" (String ":" (String " " name))).
rewrite split_go_at_sep, split_go_free by done. reflexivity.
Qed.

Lemma target_of_line l :
  well_formed l = true →
  (if Str.startsWith (conf_line l) "Codename"
   then [Str.split (conf_line l) ": " !! 1] else [])
  = match declared l with Some name => [Some name] | None => [] end.
Proof.
destruct l as [name|line]; intros [H1 H2]%andb_prop; apply negb_true_iff in H2.
- change (conf_line (Codename name)) with ("Codename: " +:+ name).
  change (Str.startsWith ("Codename: " +:+ name) "Codename") with true. cbv iota.
  by rewrite split_codename.
- change (conf_line (Field line)) with line. by rewrite H2.
Qed.

Lemma line_free l : well_formed l = true → includes (conf_line l) Str.nl = false.
Proof.
destruct l as [name|line]; simpl; intros [H1 H2]%andb_prop; apply negb_true_iff in H1.
- exact H1.
- exact H1.
Qed.

(** [getRepoTargets] reads the codenames that conf/distributions declares:
    of a file whose lines are declarations [Codename: name] and lines of
    other fields, it returns the declared names, in the order of the file,
    and nothing else. *)
Theorem getRepoTargets_reads_codenames s repoDir (lines : list ConfLine) :
  forallb well_formed lines = true →
  respond w (trace s) (ReadFile (Path.join [repoDir; "conf"; "distributions"]))
  = Ok (Str.join Str.nl (map conf_line lines)) →
  (run cfg w (getRepoTargets repoDir) s).1 = Ok (map Some (omap declared lines)).
Proof.
intros Hwf Hread. rewrite (run_getRepoTargets cfg w _ _ s Hread). cbn [fst].
f_equal. unfold codenames.
destruct lines as [|l lines]; [done|].
assert (Forall (fun x => well_formed x = true) (l :: lines)) as HF.
{ apply Forall_forall. intros x Hx. apply (proj1 (forallb_forall _ _) Hwf).
  by apply list_elem_of_In. }
clear Hwf. rename HF into Hwf.
cbn [map]. rewrite split_join_lines.
- rewrite fold_push_map. cbn [app].
  change (conf_line l :: map conf_line lines) with (map conf_line (l :: lines)).
  clear Hread. induction Hwf as [|x xs Hx _ IH]; [done|].
  pose proof (target_of_line x Hx) as Ht.
  cbn [map List.filter].
  destruct (Str.startsWith (conf_line x) "Codename"), x as [name|line];
    cbn [declared] in Ht; try discriminate Ht.
  + change (omap declared (Codename name :: xs)) with (name :: omap declared xs).
    cbn [map]. f_equal; [|exact IH]. congruence.
  + exact IH.
- change (conf_line l :: map conf_line lines) with (map conf_line (l :: lines)).
  apply Forall_map. eapply Forall_impl; [exact Hwf|].
  intros x. apply line_free.
Qed.

End Codenames.

(** The sample conf/distributions, with a last line that is empty. *)
Lemma getRepoTargets_reads_codenames_witness :
  (run Sample.conf
     (Sample.distributions_world
        (Str.join Str.nl
           (map conf_line
              [Field "Origin: element"; Codename "buster";
               Field "Origin: element"; Codename "bullseye"; Field ""])))
     (getRepoTargets "/home/builder/debian") Sample.init).1
  = Ok [Some "buster"; Some "bullseye"].
Proof.
apply (getRepoTargets_reads_codenames Sample.conf _ Sample.init "/home/builder/debian"
         [Field "Origin: element"; Codename "buster";
          Field "Origin: element"; Codename "bullseye"; Field ""]);
  reflexivity.
Defined.

(** * The key container of the Windows builder *)

Section SigningKey.
Variable cfg : Config.
Variable w : World.
Variable key : string.

Lemma key_replay evs s :
  Forall (fun ev => is_key_write ev = false) evs →
  riotSigningKeyContainer (replay cfg w evs s) = riotSigningKeyContainer s.
Proof.
revert s. induction evs as [|ev evs IH]; intros s H; simpl; [done|].
inversion H as [|? ? Hev Hevs]; subst. rewrite IH by done.
by destruct ev.
Qed.

Section Rules.
Variable P : Event → Prop.

Lemma keeps_key_emits {A} (t : Task A) :
  emits cfg w (fun ev => P ev ∧ is_key_write ev = false) t → keeps_key cfg w key P t.
Proof.
intros Ht s Hs. destruct (Ht s) as (evs & H & F). exists evs.
split; [done|]. split.
- eapply Forall_impl; [exact F|]. by intros ev [? _].
- rewrite key_replay; [done|]. eapply Forall_impl; [exact F|]. by intros ev [_ ?].
Qed.

Lemma keeps_key_bind {A B} (t : Task A) (f : A → Task B) :
  keeps_key cfg w key P t → (∀ a, keeps_key cfg w key P (f a)) →
  keeps_key cfg w key P (bind t f).
Proof.
intros Ht Hf s Hs. rewrite run_bind.
destruct (Ht s Hs) as (e1 & H1 & F1 & K1).
destruct (run cfg w t s) as [[a|e] s1]; simpl in *; subst.
- destruct (Hf a _ K1) as (e2 & H2 & F2 & K2).
  exists (e1 ++ e2). rewrite replay_app, H2.
  split; [done|]. split; [by apply Forall_app | done].
- by exists e1.
Qed.

Lemma keeps_key_attempt {A} (t : Task A) :
  keeps_key cfg w key P t → keeps_key cfg w key P (attempt t).
Proof. intros Ht s Hs. rewrite run_attempt. by apply Ht. Qed.

Lemma keeps_key_GetKey {A} (k : option string → Task A) :
  keeps_key cfg w key P (k (Some key)) → keeps_key cfg w key P (GetKey k).
Proof. intros Hk s Hs. simpl. rewrite Hs. by apply Hk. Qed.

Lemma keeps_key_for_of_c {X} (xs : list X) body :
  (∀ x, keeps_key cfg w key P (body x)) → keeps_key cfg w key P (for_of_c xs body).
Proof.
intros Hb. induction xs as [|x xs IH]; simpl.
- apply keeps_key_emits, emits_ret.
- apply keeps_key_bind; [apply Hb|].
  intros [|]; [done | apply keeps_key_emits, emits_ret].
Qed.

Lemma keeps_key_step {A} ev (t k : Task A) :
  (∀ s, run cfg w t s = run cfg w k (apply_event cfg w s ev)) →
  P ev → is_key_write ev = false →
  keeps_key cfg w key P k → keeps_key cfg w key P t.
Proof.
intros Ht Hev Hk Hrest s Hs. rewrite Ht.
destruct (Hrest (apply_event cfg w s ev)) as (evs & H & F & K).
{ change (apply_event cfg w s ev) with (replay cfg w [ev] s).
  rewrite key_replay; [done | by repeat constructor]. }
exists (ev :: evs). split; [done|]. split; [by constructor | done].
Qed.

Lemma keeps_key_Enter {A} f (k : Task A) :
  P (EvEnter f) → keeps_key cfg w key P k → keeps_key cfg w key P (Enter f k).
Proof. intros. by apply (keeps_key_step (EvEnter f) _ k). Qed.

Lemma keeps_key_Exit {A} f ok (k : Task A) :
  P (EvExit f ok) → keeps_key cfg w key P k → keeps_key cfg w key P (Exit f ok k).
Proof. intros. by apply (keeps_key_step (EvExit f ok) _ k). Qed.

Lemma keeps_key_SetBuilding {A} b (k : Task A) :
  P (EvSetBuilding b) → keeps_key cfg w key P k → keeps_key cfg w key P (SetBuilding b k).
Proof. intros. by apply (keeps_key_step (EvSetBuilding b) _ k). Qed.

End Rules.

Ltac key_side :=
  lazy beta; split;
  [ intros ? Hb; simpl in Hb; first [discriminate Hb | injection Hb as <-; reflexivity]
  | reflexivity ].

Ltac key_walk := unfold_program; emits_walk key_side.

Lemma keeps_key_buildWin type :
  keeps_key cfg w key (signs_with key) (buildWin cfg type).
Proof.
unfold buildWin. cbv zeta.
do 9 (apply keeps_key_bind; [apply keeps_key_emits; solve [key_walk] | intros ?]).
apply keeps_key_GetKey. cbv beta.
apply keeps_key_emits. key_walk.
Qed.

Lemma keeps_key_build type :
  keeps_key cfg w key (signs_with key) (build cfg type).
Proof.
unfold build. destruct (Str.startsWith type "win"); [apply keeps_key_buildWin|].
apply keeps_key_emits. key_walk.
Qed.

Lemma signs_with_quiet ev : builder_of ev = None → signs_with key ev.
Proof. intros H b Hb. congruence. Qed.

Lemma keeps_key_startGuarded toBuild :
  keeps_key cfg w key (signs_with key) (startGuarded cfg toBuild).
Proof.
unfold startGuarded.
apply keeps_key_SetBuilding; [by apply signs_with_quiet|].
apply keeps_key_bind; [apply keeps_key_emits; solve [key_walk] | intros _].
apply keeps_key_bind; [|intros c; apply keeps_key_emits; solve [key_walk]].
apply keeps_key_for_of_c. intros type. unfold buildOne, try_catch.
apply keeps_key_bind; [|intros r; apply keeps_key_emits; solve [key_walk]].
apply keeps_key_attempt.
apply keeps_key_bind; [apply keeps_key_emits; solve [key_walk] | intros _].
apply keeps_key_bind; [|intros r; apply keeps_key_emits; solve [key_walk]].
unfold frame.
apply keeps_key_Enter; [by apply signs_with_quiet|].
apply keeps_key_bind; [apply keeps_key_attempt, keeps_key_build|].
intros r. apply keeps_key_Exit; [by apply signs_with_quiet|].
apply keeps_key_emits. key_walk.
Qed.

Lemma keeps_key_start_tail :
  keeps_key cfg w key (signs_with key)
    (b <- GetBuilding Ret ;;
     if b : bool then Ret tt else
     if length TYPES =? 0 then Ret tt else
     finally_ (startGuarded cfg TYPES) (SetBuilding false (Ret tt)) ;;
     Ret tt).
Proof.
apply keeps_key_bind; [apply keeps_key_emits, emits_GetBuilding; intros; apply emits_ret|].
intros [|]; [apply keeps_key_emits, emits_ret|].
change (length TYPES =? 0) with false. cbv iota.
apply keeps_key_bind; [|intros; apply keeps_key_emits, emits_ret].
unfold finally_.
apply keeps_key_bind; [apply keeps_key_attempt, keeps_key_startGuarded|].
intros r. apply keeps_key_bind; [|intros; apply keeps_key_emits, emits_of_result].
apply keeps_key_SetBuilding; [by apply signs_with_quiet|].
apply keeps_key_emits, emits_ret.
Qed.

End SigningKey.

Section SignedBuilds.
Variable cfg : Config.
Variable w : World.

(** The Windows builder signs with the credential of this run: every
    builder that a run of [start] starts, runs or stops was made with the key
    container that [getSecret] resolved to at the start of that run, whatever
    the instance held before. *)
Theorem start_signs_with_fetched_key s :
  let evs := emitted s (run cfg w (start cfg) s).2 in
  ∀ ev b,
    In ev evs → builder_of ev = Some b →
    ∃ key, In (EvCall (GetSecret "riot_key_container") (Ok key)) evs
           ∧ wb_keyContainer b = Some key.
Proof.
intros evs ev b Hin Hb. subst evs. revert Hin. unfold start.
set (hello := EvLog Info
      [LS ("Starting Element Desktop " +:+ desktopBranch cfg +:+ " release builder...")]).
set (ask := GetSecret "riot_key_container").
rewrite run_bind, run_info. fold hello.
rewrite run_bind. cbn [run].
rewrite run_bind, run_await. fold ask.
set (s2 := set_building false (emit hello s)).
destruct (respond w (trace s2) ask) as [key|e] eqn:E.
- rewrite run_bind. cbn [run].
  match goal with
  | |- context [run cfg w ?t ?s3] =>
      destruct (keeps_key_start_tail cfg w key s3 eq_refl) as (rest & -> & F & _)
  end.
  change (set_key key (record cfg w ask (Ok key) s2))
    with (replay cfg w [hello; EvSetBuilding false; EvCall ask (Ok key); EvSetKey key] s).
  rewrite <- replay_app, emitted_replay.
  intros Hin. exists key. split; [right; right; by left|].
  apply in_app_or in Hin as [Hin|Hin].
  + repeat (destruct Hin as [<-|Hin]; [discriminate Hb|]). destruct Hin.
  + rewrite Forall_forall in F. apply (F ev); [by apply list_elem_of_In | done].
- intros Hin.
  change (In ev (emitted s (replay cfg w
                   [hello; EvSetBuilding false; EvCall ask (Rejected e)] s))) in Hin.
  rewrite emitted_replay in Hin.
  repeat (destruct Hin as [<-|Hin]; [discriminate Hb|]). destruct Hin.
Qed.

End SignedBuilds.

(** The sample run: the builder of win64 is started with the key container
    the key chain gave. *)
Lemma start_signs_with_fetched_key_witness :
  let evs := emitted Sample.init
               (run Sample.conf Sample.happy (start Sample.conf) Sample.init).2 in
  ∃ b key,
    nth_error evs 18 = Some (EvCall (WinStart b) (Ok tt))
    ∧ In (EvCall (GetSecret "riot_key_container") (Ok key)) evs
    ∧ wb_keyContainer b = Some key.
Proof.
intros evs.
set (b := {| wb_repoDir := "builds/element-desktop-win64-v1.6.0"; wb_type := "win64";
             wb_vmName := "win10"; wb_username := "builder"; wb_password := "hunter2";
             wb_keyContainer := Some "[{{passphrase}}]=container" |}).
assert (nth_error evs 18 = Some (EvCall (WinStart b) (Ok tt))) as Hl
  by (vm_compute; reflexivity).
destruct (start_signs_with_fetched_key Sample.conf Sample.happy Sample.init
            (EvCall (WinStart b) (Ok tt)) b (nth_error_In evs 18 Hl) eq_refl)
  as (key & Hk & Hb).
exists b, key. split; [exact Hl|]. split; [exact Hk | exact Hb].
Defined.

(** * The version marker *)

Section VersionMarker.
Variable cfg : Config.
Variable w : World.

Lemma tfold_Parse {St} (step : St → Event → St) {A} st text
    (k : Result JS → Task A) (Q : Result A → St → Prop) :
  tfold cfg w step st (k (JSON_parse w text)) Q → tfold cfg w step st (Parse text k) Q.
Proof. intros Hk s. simpl. apply Hk. Qed.

Lemma json_not_latest a b : a +:+ "/electron-builder.json" ≠ b +:+ "/update/macos/latest".
Proof.
intros H.
apply (str_last_ne (a +:+ "/electron-builder.jso") (b +:+ "/update/macos/lates") "n" "t");
  [done|].
by rewrite !str_app_assoc.
Qed.

Lemma debcontrol_not_latest a b : a +:+ "/debcontrol" ≠ b +:+ "/update/macos/latest".
Proof.
intros H.
apply (str_last_ne (a +:+ "/debcontro") (b +:+ "/update/macos/lates") "l" "t"); [done|].
by rewrite !str_app_assoc.
Qed.

Lemma marks_only_config ver dir data r :
  marks_only cfg ver (EvCall (WriteFile (Path.join [dir; ELECTRON_BUILDER_CFG_FILE]) data) r).
Proof.
intros data' r' [= H _]. exfalso. exact (json_not_latest _ _ H).
Qed.

Lemma marks_only_debcontrol ver dir data r :
  marks_only cfg ver (EvCall (WriteFile (Path.join [dir; "debcontrol"]) data) r).
Proof.
intros data' r' [= H _]. exfalso. exact (debcontrol_not_latest _ _ H).
Qed.

Lemma marks_only_latest ver r :
  marks_only cfg (Some ver) (EvCall (WriteFile (latestPath cfg) ver) r).
Proof. intros data' r' H. by simplify_eq. Qed.

Ltac marks_walk :=
  unfold_program;
  emits_walk ltac:(lazy beta;
                   first [ apply marks_only_config
                         | apply marks_only_debcontrol
                         | apply marks_only_latest
                         | by intros ? ? [=] ]).

Lemma marks_read_version_keep manifest st ev :
  marks_only cfg None ev →
  marks_read_version cfg w manifest st →
  marks_read_version cfg w manifest (history_step st ev).
Proof.
intros Hev Hst data r Hin. unfold history_step in *.
apply in_app_or in Hin as [Hin|[->|[]]].
- destruct (Hst data r Hin) as (text & pkg & H1 & H2 & H3).
  exists text, pkg. split; [apply in_or_app; by left | done].
- by specialize (Hev data r eq_refl).
Qed.

Lemma fold_history evs st : fold_left history_step evs st = st ++ evs.
Proof.
revert st. induction evs as [|ev evs IH]; intros st; simpl; [by rewrite app_nil_r|].
rewrite IH. unfold history_step. by rewrite <- app_assoc.
Qed.

Lemma bind_ret {A B} (a : A) (f : A → Task B) : bind (Ret a) f = f a.
Proof. reflexivity. Qed.

Lemma marks_read_version_add manifest text pkg ver st ev :
  JSON_parse w text = Ok pkg → get_prop pkg "version" = Ok ver →
  marks_only cfg (Some ver) ev →
  marks_read_version cfg w manifest st ∧ In (EvCall (ReadFile manifest) (Ok text)) st →
  marks_read_version cfg w manifest (history_step st ev)
  ∧ In (EvCall (ReadFile manifest) (Ok text)) (history_step st ev).
Proof.
intros Hp Hv Hev [Hst Hread]. unfold history_step. split; [|apply in_or_app; by left].
intros data r Hin. apply in_app_or in Hin as [Hin|[->|[]]].
- destruct (Hst data r Hin) as (text' & pkg' & H1 & H2 & H3).
  exists text', pkg'. split; [apply in_or_app; by left | done].
- specialize (Hev data r eq_refl). injection Hev as ->.
  exists text, pkg. split; [apply in_or_app; by left | done].
Qed.

Lemma tfold_buildLocal_marks type st :
  marks_read_version cfg w (Path.join [repoDirOf cfg type; "package.json"]) st →
  tfold cfg w history_step st (buildLocal cfg type)
    (fun _ st' =>
       marks_read_version cfg w (Path.join [repoDirOf cfg type; "package.json"]) st').
Proof.
intros Hst. unfold buildLocal. cbv zeta.
set (manifest := Path.join [repoDirOf cfg type; "package.json"]) in *.
do 5 (eapply (tfold_bind_invariant cfg w _ (marks_read_version cfg w manifest)
                (marks_only cfg None));
      [ solve [marks_walk] | by apply marks_read_version_keep | done
      | intros ? ? ? | by intros ]).
apply (tfold_bind _ _ _ _ _ _
         (fun r st' =>
            marks_read_version cfg w manifest st'
            ∧ ∀ text, r = Ok text → In (EvCall (ReadFile manifest) (Ok text)) st')).
- apply (tfold_await _ _ _ _ (ReadFile manifest)). intros r. split.
  + apply marks_read_version_keep; [by intros ? ? [=] | done].
  + intros text ->. apply in_or_app. right. by left.
- intros text st5 [H5 Hread]. specialize (Hread text eq_refl).
  apply tfold_Parse.
  destruct (JSON_parse w text) as [pkg|e] eqn:Ep; [|by apply tfold_throw].
  change (of_result (Ok pkg)) with (Ret pkg). rewrite bind_ret.
  unfold prop.
  destruct (get_prop pkg "version") as [ver|e] eqn:Ev; [|by apply tfold_throw].
  change (of_result (Ok ver)) with (Ret ver). rewrite bind_ret.
  eapply tfold_conseq.
  + apply (tfold_invariant cfg w _
             (fun st' => marks_read_version cfg w manifest st'
                         ∧ In (EvCall (ReadFile manifest) (Ok text)) st')
             (marks_only cfg (Some ver)));
      [ solve [marks_walk]
      | intros ? ?; by apply marks_read_version_add with pkg
      | done ].
  + by intros r st' [H' _].
- by intros e st5 [H5 _].
Qed.

(** The version marker of the macOS updates holds the version of the
    checkout: whenever the build of a platform type writes the file [latest]
    of the published tree, it writes the [version] of the package.json it has
    read from the checkout of that type, as [JSON.parse] gave it. *)
Theorem build_marks_version_of_checkout s type :
  marks_read_version cfg w (Path.join [repoDirOf cfg type; "package.json"])
    (emitted s (run cfg w (build cfg type) s).2).
Proof.
assert (tfold cfg w history_step [] (build cfg type)
          (fun _ st' =>
             marks_read_version cfg w (Path.join [repoDirOf cfg type; "package.json"]) st'))
  as H.
{ unfold build. destruct (Str.startsWith type "win").
  - apply (tfold_invariant cfg w _ _ (marks_only cfg None));
      [ solve [marks_walk] | by apply marks_read_version_keep | by intros ? ? [] ].
  - apply tfold_buildLocal_marks. by intros ? ? []. }
apply (tfold_emitted cfg w _ _ _ _ s) in H. by rewrite fold_history in H.
Qed.

End VersionMarker.

(** The mac build of the sample run writes the version of the sample
    package.json. *)
Lemma build_marks_version_of_checkout_witness :
  let evs := emitted Sample.init
               (run Sample.conf Sample.happy (build Sample.conf "mac") Sample.init).2 in
  nth_error evs 23
  = Some (EvCall (WriteFile (latestPath Sample.conf) (JStr "1.6.0")) (Ok tt))
  ∧ ∃ text pkg,
      In (EvCall (ReadFile "builds/element-desktop-mac-v1.6.0/package.json") (Ok text)) evs
      ∧ JSON_parse Sample.happy text = Ok pkg
      ∧ get_prop pkg "version" = Ok (JStr "1.6.0").
Proof.
intros evs.
assert (nth_error evs 23
        = Some (EvCall (WriteFile (latestPath Sample.conf) (JStr "1.6.0")) (Ok tt))) as Hl
  by (vm_compute; reflexivity).
split; [exact Hl|].
exact (build_marks_version_of_checkout Sample.conf Sample.happy Sample.init "mac"
         (JStr "1.6.0") (Ok tt) (nth_error_In evs 23 Hl)).
Defined.
